(** * quantum-migration-cli: the RSA-to-PQC migration pipeline

    A shallow embedding of [refactor.py] (the AST transformation engine),
    [scanner.py] (risk classifier and the deduplicating merge of the scan),
    [cli.py] (the [migrate] orchestration) and [report.py] (the final
    report), followed by the properties established about them. *)

From Stdlib Require Import String Ascii List ZArith Bool Arith Lia.
Import ListNotations.
Open Scope string_scope.
Set Warnings "-register-all".

(* ================================================================== *)
(** ** Python strings

    A [str] is held as the bytes of its UTF-8 encoding. *)

Module PyStr.

Definition byte (c : ascii) (n : nat) : bool := (nat_of_ascii c =? n)%nat.

(** The text with the given bytes. *)
Fixpoint bytes (l : list nat) : string :=
  match l with
  | [] => EmptyString
  | n :: rest => String (ascii_of_nat n) (bytes rest)
  end.

Definition lower_ascii (c : ascii) : ascii :=
  let n := nat_of_ascii c in
  if andb (65 <=? n)%nat (n <=? 90)%nat then ascii_of_nat (n + 32) else c.

(** [s.lower()].  The ASCII letters are mapped to lower case, and so are
    the two other characters whose lower case holds an ASCII character:
    U+0130 (bytes C4 B0) becomes [i] followed by U+0307 (bytes CC 87), and
    U+212A, the Kelvin sign (bytes E2 84 AA), becomes [k].  The lower case
    of every other character holds no ASCII character, and the character is
    left as it is: the program only looks for ASCII text in a lower-cased
    string. *)
Fixpoint lower (s : string) : string :=
  match s with
  | EmptyString => EmptyString
  | String c r =>
      match r with
      | String c2 r2 =>
          if andb (byte c 196) (byte c2 176)
          then String "i" (String (ascii_of_nat 204) (String (ascii_of_nat 135) (lower r2)))
          else
            match r2 with
            | String c3 r3 =>
                if andb (byte c 226) (andb (byte c2 132) (byte c3 170))
                then String "k" (lower r3)
                else String (lower_ascii c) (lower r)
            | EmptyString => String (lower_ascii c) (lower r)
            end
      | EmptyString => String (lower_ascii c) (lower r)
      end
  end.

(** [s.startswith(p)] *)
Definition startswith (s p : string) : bool := String.prefix p s.

(** [p in s] for strings *)
Fixpoint contains (p s : string) : bool :=
  if String.prefix p s then true
  else match s with
       | EmptyString => false
       | String _ r => contains p r
       end.

(** The white-space characters ([str.isspace]): the ASCII ones, then
    those of two bytes (U+0085, U+00A0) and of three bytes (U+1680,
    U+2000 to U+200A, U+2028, U+2029, U+202F, U+205F, U+3000). *)
Definition is_space (c : ascii) : bool :=
  let n := nat_of_ascii c in
  orb (orb (andb (9 <=? n)%nat (n <=? 13)%nat) (andb (28 <=? n)%nat (n <=? 31)%nat))
      (n =? 32)%nat.

Definition space2 (a b : ascii) : bool :=
  andb (byte a 194) (orb (byte b 133) (byte b 160)).

Definition space3 (a b c : ascii) : bool :=
  let n := nat_of_ascii c in
  orb (andb (byte a 225) (andb (byte b 154) (byte c 128)))
      (orb (andb (byte a 226)
                 (orb (andb (byte b 128)
                            (orb (andb (128 <=? n)%nat (n <=? 138)%nat)
                                 (orb (byte c 168) (orb (byte c 169) (byte c 175)))))
                      (andb (byte b 129) (byte c 159))))
           (andb (byte a 227) (andb (byte b 128) (byte c 128)))).

(** [s.lstrip()] *)
Fixpoint lstrip (s : string) : string :=
  match s with
  | EmptyString => EmptyString
  | String a r =>
      if is_space a then lstrip r
      else
        match r with
        | String b r2 =>
            if space2 a b then lstrip r2
            else
              match r2 with
              | String c r3 => if space3 a b c then lstrip r3 else s
              | EmptyString => s
              end
        | EmptyString => s
        end
  end.

Fixpoint reverse_onto (s acc : string) : string :=
  match s with
  | EmptyString => acc
  | String c r => reverse_onto r (String c acc)
  end.

Definition reverse (s : string) : string := reverse_onto s "".

(** [lstrip] on a text read from its end. *)
Fixpoint lstrip_reversed (s : string) : string :=
  match s with
  | EmptyString => EmptyString
  | String c r =>
      if is_space c then lstrip_reversed r
      else
        match r with
        | String b r2 =>
            if space2 b c then lstrip_reversed r2
            else
              match r2 with
              | String a r3 => if space3 a b c then lstrip_reversed r3 else s
              | EmptyString => s
              end
        | EmptyString => s
        end
  end.

(** [s.rstrip()] and [s.strip()] *)
Definition rstrip (s : string) : string := reverse (lstrip_reversed (reverse s)).

Definition strip (s : string) : string := rstrip (lstrip s).

(** [s.rstrip(chars)] for a set of one-byte characters *)
Fixpoint rstrip_by (p : ascii -> bool) (s : string) : string :=
  match s with
  | EmptyString => EmptyString
  | String c r =>
      match rstrip_by p r with
      | EmptyString => if p c then EmptyString else String c EmptyString
      | r' => String c r'
      end
  end.

Definition digit (n : nat) : string :=
  String (ascii_of_nat (48 + n)) EmptyString.

(** Decimal digits of a natural number, most significant first. *)
Fixpoint digits_fuel (fuel n : nat) (acc : string) : string :=
  match fuel with
  | O => acc
  | S f =>
      let acc' := digit (n mod 10) ++ acc in
      if (n / 10 =? 0)%nat then acc' else digits_fuel f (n / 10) acc'
  end.

Definition str_of_nat (n : nat) : string := digits_fuel (S n) n "".

(** [str(z)] for an [int]. *)
Definition str_of_Z (z : Z) : string :=
  match z with
  | Z0 => "0"
  | Zpos p => str_of_nat (Pos.to_nat p)
  | Zneg p => "-" ++ str_of_nat (Pos.to_nat p)
  end.

End PyStr.

(* ================================================================== *)
(** ** The [ast] module: dynamically typed syntax trees *)

Module PyAst.

(** A Python value that can sit in a field of an [ast.AST] node: [None], a
    [str], an [int], some other scalar (kept by its [repr]), a [list], or a
    node with its class name and its fields in [_fields] order. *)
Inductive value : Type :=
| VNone
| VStr (s : string)
| VInt (z : Z)
| VObj (repr : string)
| VList (items : list value)
| VNode (cls : string) (fields : list (string * value)).

(** [getattr(node, name)] on a field list.  A tree built by [ast.parse]
    carries every mandatory field of its nodes; on a node that lacks one
    (where Python raises [AttributeError]) the tests below simply do not
    match. *)
Fixpoint getattr (fields : list (string * value)) (name : string) : option value :=
  match fields with
  | [] => None
  | (k, v) :: rest => if String.eqb k name then Some v else getattr rest name
  end.

(** [v.<name> == s] for a string attribute of a node. *)
Definition attr_eq (v : value) (name s : string) : bool :=
  match v with
  | VNode _ fs =>
      match getattr fs name with
      | Some (VStr x) => String.eqb x s
      | _ => false
      end
  | _ => false
  end.

(** What a [visit_*] method of a [NodeTransformer] hands back: [None]
    (the node is removed), a node, or a list of nodes. *)
Inductive visited : Type :=
| Removed
| Replaced (node : value)
| Spliced (nodes : list value).

Definition as_value (r : visited) : value :=
  match r with
  | Removed => VNone
  | Replaced n => n
  | Spliced l => VList l
  end.

(** [NodeTransformer.generic_visit]: the loop over a list-valued field. *)
Definition visit_items (visit : value -> visited) : list value -> list value :=
  fix go (old : list value) : list value :=
    match old with
    | [] => []
    | v :: rest =>
        match v with
        | VNode _ _ =>
            match visit v with
            | Removed => go rest
            | Replaced n => n :: go rest
            | Spliced l => (l ++ go rest)%list
            end
        | _ => v :: go rest
        end
    end.

(** [NodeTransformer.generic_visit]: the loop over the fields of a node.
    A field holding a node is replaced by whatever [visit] returns (also a
    list), or deleted when [visit] returns [None]. *)
Definition generic_visit (visit : value -> visited)
  : list (string * value) -> list (string * value) :=
  fix go (fields : list (string * value)) : list (string * value) :=
    match fields with
    | [] => []
    | (name, old) :: rest =>
        match old with
        | VList items => (name, VList (visit_items visit items)) :: go rest
        | VNode _ _ =>
            match visit old with
            | Removed => go rest
            | Replaced n => (name, n) :: go rest
            | Spliced l => (name, VList l) :: go rest
            end
        | _ => (name, old) :: go rest
        end
    end.

(** The same traversal for a transformer that carries instance state (here
    one boolean attribute). *)
Definition visit_items_st (visit : value -> bool -> visited * bool)
  : list value -> bool -> list value * bool :=
  fix go (old : list value) (st : bool) : list value * bool :=
    match old with
    | [] => ([], st)
    | v :: rest =>
        match v with
        | VNode _ _ =>
            let '(r, st1) := visit v st in
            let '(rest', st2) := go rest st1 in
            match r with
            | Removed => (rest', st2)
            | Replaced n => (n :: rest', st2)
            | Spliced l => ((l ++ rest')%list, st2)
            end
        | _ =>
            let '(rest', st2) := go rest st in
            (v :: rest', st2)
        end
    end.

Definition generic_visit_st (visit : value -> bool -> visited * bool)
  : list (string * value) -> bool -> list (string * value) * bool :=
  fix go (fields : list (string * value)) (st : bool) :=
    match fields with
    | [] => ([], st)
    | (name, old) :: rest =>
        match old with
        | VList items =>
            let '(items', st1) := visit_items_st visit items st in
            let '(rest', st2) := go rest st1 in
            ((name, VList items') :: rest', st2)
        | VNode _ _ =>
            let '(r, st1) := visit old st in
            let '(rest', st2) := go rest st1 in
            match r with
            | Removed => (rest', st2)
            | Replaced n => ((name, n) :: rest', st2)
            | Spliced l => ((name, VList l) :: rest', st2)
            end
        | _ =>
            let '(rest', st2) := go rest st in
            ((name, old) :: rest', st2)
        end
    end.

(** Node constructors used by the engine. *)
Definition Name (id : string) : value :=
  VNode "Name" [("id", VStr id); ("ctx", VNode "Load" [])].
Definition Call (func args keywords : value) : value :=
  VNode "Call" [("func", func); ("args", args); ("keywords", keywords)].
Definition Constant (v : value) : value :=
  VNode "Constant" [("value", v); ("kind", VNone)].
Definition Expr (v : value) : value :=
  VNode "Expr" [("value", v)].
Definition alias (name : string) : value :=
  VNode "alias" [("name", VStr name); ("asname", VNone)].
Definition ImportFrom (module : string) (names : list value) (level : Z) : value :=
  VNode "ImportFrom" [("module", VStr module); ("names", VList names); ("level", VInt level)].
Definition Module (body : list value) : value :=
  VNode "Module" [("body", VList body); ("type_ignores", VList [])].

End PyAst.
Import PyAst.

(* ================================================================== *)
(** ** refactor.py *)

(** Mapping from RSA functions to PQC helper functions. *)
Definition RSA_TO_PQC_MAPPING : list (string * string) :=
  [ ("newkeys", "oqs_generate_keypair");
    ("encrypt", "oqs_encrypt");
    ("decrypt", "oqs_decrypt");
    ("sign", "oqs_sign");
    ("verify", "oqs_verify") ].

Fixpoint dict_get (d : list (string * string)) (k : string) : option string :=
  match d with
  | [] => None
  | (k', v) :: rest => if String.eqb k' k then Some v else dict_get rest k
  end.

Module RSA2PQCTransformer.

(** The callee test of [visit_Call]: [node.func] is an [Attribute] on a
    [Name] whose lower-cased [id] is ["rsa"] and whose [attr] is a key of
    the mapping.  Returns the attribute and its replacement. *)
Definition rsa_callee (fields : list (string * value)) : option (string * string) :=
  match getattr fields "func" with
  | Some (VNode "Attribute" ffs) =>
      match getattr ffs "value" with
      | Some (VNode "Name" nfs) =>
          match getattr nfs "id" with
          | Some (VStr id) =>
              if String.eqb (PyStr.lower id) "rsa" then
                match getattr ffs "attr" with
                | Some (VStr func_name) =>
                    match dict_get RSA_TO_PQC_MAPPING func_name with
                    | Some new_func_name => Some (func_name, new_func_name)
                    | None => None
                    end
                | _ => None
                end
              else None
          | _ => None
          end
      | _ => None
      end
  | _ => None
  end.

Definition field_or_none (fields : list (string * value)) (name : string) : value :=
  match getattr fields name with
  | Some v => v
  | None => VNone
  end.

Definition migration_comment (func_name new_func_name : string) : value :=
  Expr (Constant (VStr ("[Info]: Migrated rsa." ++ func_name ++ "() to " ++ new_func_name ++ "()"))).

Fixpoint visit (node : value) : visited :=
  match node with
  | VNode cls fields =>
      if String.eqb cls "Call" then
        (* visit_Call *)
        match rsa_callee fields with
        | Some (func_name, new_func_name) =>
            let new_call :=
              Call (Name new_func_name)
                   (field_or_none fields "args")
                   (field_or_none fields "keywords") in
            Spliced [new_call; migration_comment func_name new_func_name]
        | None => Replaced (VNode cls (generic_visit visit fields))
        end
      else Replaced (VNode cls (generic_visit visit fields))
  | _ => Replaced node
  end.

End RSA2PQCTransformer.

Module RemoveRSAImportTransformer.

(** [[n for n in node.names if n.name != 'rsa']] *)
Definition new_names (fields : list (string * value)) : list value :=
  match getattr fields "names" with
  | Some (VList names) => filter (fun n => negb (attr_eq n "name" "rsa")) names
  | _ => []
  end.

Definition visit_Import (node : value) (fields : list (string * value)) : visited :=
  match new_names fields with
  | [] => Removed
  | _ :: _ => Replaced node
  end.

Definition visit_ImportFrom (node : value) : visited :=
  if attr_eq node "module" "rsa" then Removed else Replaced node.

Fixpoint visit (node : value) : visited :=
  match node with
  | VNode cls fields =>
      if String.eqb cls "Import" then visit_Import node fields
      else if String.eqb cls "ImportFrom" then visit_ImportFrom node
      else Replaced (VNode cls (generic_visit visit fields))
  | _ => Replaced node
  end.

End RemoveRSAImportTransformer.

Module AddPQCImportTransformer.

Definition import_node : value :=
  ImportFrom "pqc_helpers"
    [ alias "oqs_generate_keypair";
      alias "oqs_encrypt";
      alias "oqs_decrypt";
      alias "oqs_sign";
      alias "oqs_verify" ]
    0.

(** [node.body.insert(0, import_node)] *)
Fixpoint body_insert0 (fields : list (string * value)) (n : value) : list (string * value) :=
  match fields with
  | [] => []
  | (k, v) :: rest =>
      if String.eqb k "body" then
        match v with
        | VList body => (k, VList (n :: body)) :: rest
        | _ => (k, v) :: rest
        end
      else (k, v) :: body_insert0 rest n
  end.

(** The state is the instance attribute [self.found]. *)
Fixpoint visit (node : value) (found : bool) : visited * bool :=
  match node with
  | VNode cls fields =>
      if String.eqb cls "ImportFrom" then
        (* visit_ImportFrom *)
        (Replaced node, if attr_eq node "module" "pqc_helpers" then true else found)
      else if String.eqb cls "Module" then
        (* visit_Module *)
        let '(fields', found') := generic_visit_st visit fields found in
        if found' then (Replaced (VNode cls fields'), found')
        else (Replaced (VNode cls (body_insert0 fields' import_node)), found')
      else
        let '(fields', found') := generic_visit_st visit fields found in
        (Replaced (VNode cls fields'), found')
  | _ => (Replaced node, found)
  end.

(** [AddPQCImportTransformer().visit(tree)]: a fresh instance has
    [found = False]. *)
Definition run (tree : value) : value := as_value (fst (visit tree false)).

End AddPQCImportTransformer.

(** The three passes of [refactor_code_ast], in order. *)
Definition transform (tree : value) : value :=
  let tree := as_value (RemoveRSAImportTransformer.visit tree) in
  let tree := as_value (RSA2PQCTransformer.visit tree) in
  AddPQCImportTransformer.run tree.

(* ================================================================== *)
(** ** Exceptions *)

(** The result of a call that may raise: the value, or the text of the
    exception ([str(e)]). *)
Inductive exc (A : Type) : Type :=
| Return (a : A)
| Raise (msg : string).
Arguments Return {A} a.
Arguments Raise {A} msg.

Definition bind {A B : Type} (m : exc A) (k : A -> exc B) : exc B :=
  match m with
  | Return a => k a
  | Raise e => Raise e
  end.

Notation "x <- m ;; k" := (bind m (fun x => k))
  (at level 61, m at next level, right associativity).

Definition nl : string := String (ascii_of_nat 10) EmptyString.

(* ================================================================== *)
(** ** astunparse

    The printer of the [astunparse] package for the node classes the
    engine creates or inspects; every other class is printed by
    [unparse_other], which stands for the rest of the package (and may
    raise, as the package does on a class it has no method for). *)

Module Astunparse.

(** [repr] of a [str] made of printable ASCII characters other than the
    quote and the backslash. *)
Definition plain_char (c : ascii) : bool :=
  let n := nat_of_ascii c in
  andb (andb (32 <=? n)%nat (n <=? 126)%nat)
       (andb (negb (n =? 39)%nat) (negb (n =? 92)%nat)).

Fixpoint plain (s : string) : bool :=
  match s with
  | EmptyString => true
  | String c r => andb (plain_char c) (plain r)
  end.

Fixpoint repeat_str (s : string) (n : nat) : string :=
  match n with
  | O => ""
  | S k => s ++ repeat_str s k
  end.

(** [Unparser.fill] *)
Definition fill (indent : nat) (text : string) : string :=
  nl ++ repeat_str "    " indent ++ text.

(** Attribute access that raises [AttributeError] when the field is
    absent, continuing with [k] on the field's value. *)
Definition with_attr {A : Type} (name : string) (k : value -> exc A)
  : list (string * value) -> exc A :=
  fix find (fields : list (string * value)) : exc A :=
    match fields with
    | [] => Raise ("object has no attribute '" ++ name ++ "'")
    | (n, v) :: rest => if String.eqb n name then k v else find rest
    end.

(** [for t in seq: self.dispatch(t)] *)
Definition each (d : value -> exc string) : list value -> exc string :=
  fix go (l : list value) : exc string :=
    match l with
    | [] => Return ""
    | t :: rest => s1 <- d t ;; s2 <- go rest ;; Return (s1 ++ s2)
    end.

(** [interleave(lambda: self.write(", "), self.dispatch, seq)] *)
Definition interleave (d : value -> exc string) (l : list value) : exc string :=
  match l with
  | [] => Return ""
  | x :: rest =>
      s1 <- d x ;;
      s2 <- (fix go (r : list value) : exc string :=
               match r with
               | [] => Return ""
               | y :: r' => a <- d y ;; b <- go r' ;; Return (", " ++ a ++ b)
               end) rest ;;
      Return (s1 ++ s2)
  end.

(** The argument loops of [_Call], with the [comma] flag they share. *)
Definition comma_each (d : value -> exc string)
  : list value -> bool -> exc (string * bool) :=
  fix go (l : list value) (comma : bool) : exc (string * bool) :=
    match l with
    | [] => Return ("", comma)
    | e :: rest =>
        s1 <- d e ;;
        r <- go rest true ;;
        Return ((if comma then ", " else "") ++ s1 ++ fst r, snd r)
    end.

Definition as_list {A : Type} (v : value) (k : list value -> exc A) : exc A :=
  match v with
  | VList l => k l
  | _ => Raise "object is not iterable"
  end.

Definition as_str {A : Type} (v : value) (k : string -> exc A) : exc A :=
  match v with
  | VStr s => k s
  | _ => Raise "write() argument must be str"
  end.

Section Unparser.

Variable unparse_other : nat -> value -> exc string.

Fixpoint dispatch (indent : nat) (tree : value) {struct tree} : exc string :=
  match tree with
  | VList l => each (dispatch indent) l
  | VNode cls fields =>
      if String.eqb cls "Module" then
        with_attr "body" (fun body => as_list body (each (dispatch indent))) fields
      else if String.eqb cls "Expr" then
        with_attr "value" (fun v =>
          s <- dispatch indent v ;; Return (fill indent "" ++ s)) fields
      else if String.eqb cls "Import" then
        with_attr "names" (fun names => as_list names (fun l =>
          s <- interleave (dispatch indent) l ;;
          Return (fill indent "import " ++ s))) fields
      else if String.eqb cls "ImportFrom" then
        with_attr "level" (fun level =>
          match level with
          | VInt z =>
              with_attr "module" (fun module =>
                match module with
                | VStr m =>
                    with_attr "names" (fun names => as_list names (fun l =>
                      s <- interleave (dispatch indent) l ;;
                      Return (fill indent "from " ++ repeat_str "." (Z.to_nat z)
                                ++ m ++ " import " ++ s))) fields
                | VNone =>
                    with_attr "names" (fun names => as_list names (fun l =>
                      s <- interleave (dispatch indent) l ;;
                      Return (fill indent "from " ++ repeat_str "." (Z.to_nat z)
                                ++ " import " ++ s))) fields
                | _ => unparse_other indent tree
                end) fields
          | _ => unparse_other indent tree
          end) fields
      else if String.eqb cls "Assign" then
        with_attr "targets" (fun targets => as_list targets (fun ts =>
          s1 <- (fix go (l : list value) : exc string :=
                   match l with
                   | [] => Return ""
                   | t :: rest =>
                       a <- dispatch indent t ;; b <- go rest ;;
                       Return (a ++ " = " ++ b)
                   end) ts ;;
          with_attr "value" (fun v =>
            s2 <- dispatch indent v ;;
            Return (fill indent "" ++ s1 ++ s2)) fields)) fields
      else if String.eqb cls "alias" then
        with_attr "name" (fun name => as_str name (fun n =>
          with_attr "asname" (fun asname =>
            match asname with
            | VNone => Return n
            | VStr "" => Return n
            | VStr a => Return (n ++ " as " ++ a)
            | _ => unparse_other indent tree
            end) fields)) fields
      else if String.eqb cls "Name" then
        with_attr "id" (fun id => as_str id (fun s => Return s)) fields
      else if String.eqb cls "Attribute" then
        with_attr "value" (fun v =>
          with_attr "attr" (fun attr => as_str attr (fun a =>
            s <- dispatch indent v ;;
            match v with
            | VNode "Constant" cfs =>
                match getattr cfs "value" with
                | Some (VInt _) => Return (s ++ " ." ++ a)
                | Some (VStr _) | Some VNone => Return (s ++ "." ++ a)
                | _ => unparse_other indent tree
                end
            | _ => Return (s ++ "." ++ a)
            end)) fields) fields
      else if String.eqb cls "Call" then
        with_attr "func" (fun func =>
          with_attr "args" (fun args => as_list args (fun la =>
            with_attr "keywords" (fun keywords => as_list keywords (fun lk =>
              f <- dispatch indent func ;;
              a <- comma_each (dispatch indent) la false ;;
              k <- comma_each (dispatch indent) lk (snd a) ;;
              Return (f ++ "(" ++ fst a ++ fst k ++ ")"))) fields)) fields) fields
      else if String.eqb cls "keyword" then
        with_attr "value" (fun v =>
          with_attr "arg" (fun arg =>
            s <- dispatch indent v ;;
            match arg with
            | VNone => Return ("**" ++ s)
            | VStr a => Return (a ++ "=" ++ s)
            | _ => unparse_other indent tree
            end) fields) fields
      else if String.eqb cls "Constant" then
        match getattr fields "value", getattr fields "kind" with
        | Some (VStr s), (Some VNone | None) =>
            if plain s then Return ("'" ++ s ++ "'") else unparse_other indent tree
        | Some (VInt z), (Some VNone | None) => Return (PyStr.str_of_Z z)
        | _, _ => unparse_other indent tree
        end
      else unparse_other indent tree
  | _ => unparse_other indent tree
  end.

(** [astunparse.unparse]: [Unparser.__init__] dispatches on the tree and
    ends the output with a newline. *)
Definition unparse (tree : value) : exc string :=
  s <- dispatch 0 tree ;; Return (s ++ nl).

End Unparser.

End Astunparse.

(* ================================================================== *)
(** ** refactor.py: the engine *)

Section Engine.

(** [ast.parse], as the body of the [Module] it returns or the exception
    it raises, and the unparser's methods for the remaining classes. *)
Variable parse_body : string -> exc (list value).
Variable unparse_other : nat -> value -> exc string.

Definition ast_parse (code : string) : exc value :=
  body <- parse_body code ;; Return (Module body).

Definition error_marker (e code : string) : string :=
  "# [Error]: AST transformation failed due to " ++ e ++ nl ++ code.

Definition refactor_code_ast (code : string) : string :=
  match (tree <- ast_parse code ;;
         Astunparse.unparse unparse_other (transform tree)) with
  | Return s => s
  | Raise e => error_marker e code
  end.

End Engine.

(* ================================================================== *)
(** ** A reader for a fragment of Python

    [ast.parse] restricted to files made of one-line [import],
    [from ... import], single-target assignment and expression statements
    over names, plain string and decimal integer literals, attribute
    access and calls.  Text outside the fragment is refused, and the text
    of the exception is not CPython's wording.  It is used to run the
    engine on concrete files. *)

Module PyParse.

Inductive token : Type :=
| TName (s : string)
| TKw (s : string)
| TStr (s : string)
| TNum (z : Z)
| TOp (c : ascii)
| TNewline.

Definition is_alpha (c : ascii) : bool :=
  let n := nat_of_ascii c in
  orb (orb (andb (65 <=? n)%nat (n <=? 90)%nat) (andb (97 <=? n)%nat (n <=? 122)%nat))
      (n =? 95)%nat.

Definition is_digit (c : ascii) : bool :=
  let n := nat_of_ascii c in andb (48 <=? n)%nat (n <=? 57)%nat.

Definition is_alnum (c : ascii) : bool := orb (is_alpha c) (is_digit c).

Fixpoint span (p : ascii -> bool) (s : string) : string * string :=
  match s with
  | EmptyString => ("", "")
  | String c r =>
      if p c then let '(a, b) := span p r in (String c a, b)
      else ("", s)
  end.

Definition keywords : list string :=
  [ "False"; "None"; "True"; "and"; "assert"; "async"; "await"; "break";
    "class"; "continue"; "def"; "del"; "elif"; "else"; "except"; "finally";
    "for"; "global"; "if"; "in"; "is"; "lambda"; "nonlocal"; "not"; "or";
    "pass"; "raise"; "return"; "try"; "while"; "with"; "yield" ].

Definition mem (s : string) (l : list string) : bool :=
  existsb (String.eqb s) l.

Fixpoint Z_of_digits (s : string) (acc : Z) : Z :=
  match s with
  | EmptyString => acc
  | String c r => Z_of_digits r (10 * acc + Z.of_nat (nat_of_ascii c - 48))%Z
  end.

Definition syntax_error : string := "invalid syntax".

(** [bol]: at the beginning of a logical line; [depth]: open parentheses. *)
Fixpoint lex (fuel : nat) (s : string) (depth : nat) (bol : bool) : exc (list token) :=
  match fuel with
  | O => Raise syntax_error
  | S f =>
      match s with
      | EmptyString => Return []
      | String c r =>
          let n := nat_of_ascii c in
          if (n =? 10)%nat then
            match depth with
            | O => ts <- lex f r depth true ;; Return (TNewline :: ts)
            | S _ => lex f r depth false
            end
          else if (n =? 32)%nat then
            if bol then Raise "unexpected indent" else lex f r depth false
          else if is_alpha c then
            let '(w, r') := span is_alnum s in
            if mem w keywords then Raise syntax_error
            else
              ts <- lex f r' depth false ;;
              Return ((if mem w ["import"; "from"; "as"] then TKw w else TName w) :: ts)
          else if is_digit c then
            let '(w, r') := span is_digit s in
            match r' with
            | String c' _ =>
                if orb (is_alpha c') (nat_of_ascii c' =? 46)%nat then Raise syntax_error
                else if andb (nat_of_ascii c =? 48)%nat (negb (String.eqb w "0"))
                then Raise syntax_error
                else ts <- lex f r' depth false ;; Return (TNum (Z_of_digits w 0) :: ts)
            | EmptyString =>
                if andb (nat_of_ascii c =? 48)%nat (negb (String.eqb w "0"))
                then Raise syntax_error
                else Return [TNum (Z_of_digits w 0)]
            end
          else if (n =? 39)%nat then
            let '(w, r') := span (fun x => andb (Astunparse.plain_char x)
                                                (negb (nat_of_ascii x =? 34)%nat)) r in
            match r' with
            | String q r'' =>
                if (nat_of_ascii q =? 39)%nat then
                  match r'' with
                  | String q2 _ =>
                      if orb (nat_of_ascii q2 =? 39)%nat (nat_of_ascii q2 =? 34)%nat
                      then Raise syntax_error
                      else ts <- lex f r'' depth false ;; Return (TStr w :: ts)
                  | EmptyString => Return [TStr w]
                  end
                else Raise syntax_error
            | EmptyString => Raise syntax_error
            end
          else if (n =? 40)%nat then
            ts <- lex f r (S depth) false ;; Return (TOp c :: ts)
          else if (n =? 41)%nat then
            ts <- lex f r (Nat.pred depth) false ;; Return (TOp c :: ts)
          else if orb (orb (n =? 46)%nat (n =? 44)%nat) (n =? 61)%nat then
            match r with
            | String c' _ =>
                if andb (n =? 61)%nat (nat_of_ascii c' =? 61)%nat then Raise syntax_error
                else ts <- lex f r depth false ;; Return (TOp c :: ts)
            | EmptyString => Return [TOp c]
            end
          else Raise syntax_error
      end
  end.

Definition NameCtx (id ctx : string) : value :=
  VNode "Name" [("id", VStr id); ("ctx", VNode ctx [])].
Definition AttributeLoad (v : value) (attr : string) : value :=
  VNode "Attribute" [("value", v); ("attr", VStr attr); ("ctx", VNode "Load" [])].
Definition keyword (arg : string) (v : value) : value :=
  VNode "keyword" [("arg", VStr arg); ("value", v)].
Definition Assign (target v : value) : value :=
  VNode "Assign" [("targets", VList [target]); ("value", v); ("type_comment", VNone)].
Definition Import (names : list value) : value :=
  VNode "Import" [("names", VList names)].
Definition alias_as (name : string) (asname : value) : value :=
  VNode "alias" [("name", VStr name); ("asname", asname)].

Definition op (c : string) (t : token) : bool :=
  match t, c with
  | TOp a, String b EmptyString => Ascii.eqb a b
  | _, _ => false
  end.

Fixpoint parse_expr (fuel : nat) (ts : list token) : exc (value * list token) :=
  match fuel with
  | O => Raise syntax_error
  | S f =>
      match ts with
      | TName n :: r => parse_trailers f (NameCtx n "Load") r
      | TStr s :: r => parse_trailers f (Constant (VStr s)) r
      | TNum z :: r => parse_trailers f (Constant (VInt z)) r
      | _ => Raise syntax_error
      end
  end
with parse_trailers (fuel : nat) (e : value) (ts : list token) : exc (value * list token) :=
  match fuel with
  | O => Raise syntax_error
  | S f =>
      match ts with
      | t :: r =>
          if op "." t then
            match r with
            | TName a :: r' => parse_trailers f (AttributeLoad e a) r'
            | _ => Raise syntax_error
            end
          else if op "(" t then
            a <- parse_args f r [] [] ;;
            let '(la, lk, r') := a in
            parse_trailers f (Call e (VList la) (VList lk)) r'
          else Return (e, ts)
      | [] => Return (e, ts)
      end
  end
with parse_args (fuel : nat) (ts : list token) (pos kws : list value)
  : exc (list value * list value * list token) :=
  match fuel with
  | O => Raise syntax_error
  | S f =>
      match ts with
      | [] => Raise syntax_error
      | t :: r =>
          if op ")" t then Return (rev pos, rev kws, r)
          else
            let after (pos' kws' : list value) (rest : list token) :=
              match rest with
              | t' :: r' =>
                  if op "," t' then parse_args f r' pos' kws'
                  else if op ")" t' then Return (rev pos', rev kws', r')
                  else Raise syntax_error
              | [] => Raise syntax_error
              end in
            match t, r with
            | TName k, t2 :: r2 =>
                if op "=" t2 then
                  if existsb (fun kw => attr_eq kw "arg" k) kws
                  then Raise ("keyword argument repeated: " ++ k)
                  else
                    v <- parse_expr f r2 ;;
                    after pos (keyword k (fst v) :: kws) (snd v)
                else
                  match kws with
                  | [] => v <- parse_expr f ts ;; after (fst v :: pos) kws (snd v)
                  | _ :: _ => Raise "positional argument follows keyword argument"
                  end
            | _, _ =>
                match kws with
                | [] => v <- parse_expr f ts ;; after (fst v :: pos) kws (snd v)
                | _ :: _ => Raise "positional argument follows keyword argument"
                end
            end
      end
  end.

(** [a.b.c] *)
Fixpoint parse_dotted (fuel : nat) (ts : list token) : exc (string * list token) :=
  match fuel with
  | O => Raise syntax_error
  | S f =>
      match ts with
      | TName n :: t :: r =>
          if op "." t then
            d <- parse_dotted f r ;; Return (n ++ "." ++ fst d, snd d)
          else Return (n, t :: r)
      | TName n :: [] => Return (n, [])
      | _ => Raise syntax_error
      end
  end.

(** [name [as asname] (, name [as asname])*]; [dotted] allows dotted names. *)
Fixpoint parse_aliases (fuel : nat) (dotted : bool) (ts : list token)
  : exc (list value * list token) :=
  match fuel with
  | O => Raise syntax_error
  | S f =>
      d <- (if dotted then parse_dotted f ts
            else match ts with
                 | TName n :: r => Return (n, r)
                 | _ => Raise syntax_error
                 end) ;;
      let '(n, r) := d in
      let more (a : value) (rest : list token) :=
        match rest with
        | t :: r' =>
            if op "," t then
              m <- parse_aliases f dotted r' ;; Return (a :: fst m, snd m)
            else Return ([a], rest)
        | [] => Return ([a], rest)
        end in
      match r with
      | TKw "as" :: TName a :: r' => more (alias_as n (VStr a)) r'
      | TKw "as" :: _ => Raise syntax_error
      | _ => more (alias_as n VNone) r
      end
  end.

Definition end_of_line (ts : list token) : exc (list token) :=
  match ts with
  | [] => Return []
  | TNewline :: r => Return r
  | _ => Raise syntax_error
  end.

Definition parse_stmt (fuel : nat) (ts : list token) : exc (value * list token) :=
  match ts with
  | TKw "import" :: r =>
      a <- parse_aliases fuel true r ;;
      r' <- end_of_line (snd a) ;;
      Return (Import (fst a), r')
  | TKw "from" :: r =>
      d <- parse_dotted fuel r ;;
      match snd d with
      | TKw "import" :: r1 =>
          a <- parse_aliases fuel false r1 ;;
          r' <- end_of_line (snd a) ;;
          Return (ImportFrom (fst d) (fst a) 0, r')
      | _ => Raise syntax_error
      end
  | TName x :: t :: r =>
      if op "=" t then
        v <- parse_expr fuel r ;;
        r' <- end_of_line (snd v) ;;
        Return (Assign (NameCtx x "Store") (fst v), r')
      else
        v <- parse_expr fuel ts ;;
        r' <- end_of_line (snd v) ;;
        Return (Expr (fst v), r')
  | _ =>
      v <- parse_expr fuel ts ;;
      r' <- end_of_line (snd v) ;;
      Return (Expr (fst v), r')
  end.

Fixpoint parse_file (fuel : nat) (ts : list token) : exc (list value) :=
  match fuel with
  | O => Raise syntax_error
  | S f =>
      match ts with
      | [] => Return []
      | TNewline :: r => parse_file f r
      | _ =>
          s <- parse_stmt fuel ts ;;
          rest <- parse_file f (snd s) ;;
          Return (fst s :: rest)
      end
  end.

Definition parse_body (code : string) : exc (list value) :=
  ts <- lex (S (String.length code)) code 0 true ;;
  parse_file (S (2 * List.length ts)) ts.

(** Outside the fragment the printer has nothing to print. *)
Definition no_other (indent : nat) (tree : value) : exc string :=
  Raise "'Unparser' object has no attribute".

End PyParse.

(** The engine on the fragment. *)
Definition run_engine : string -> string :=
  refactor_code_ast PyParse.parse_body PyParse.no_other.

(* ================================================================== *)
(** ** The disk and the console *)

(** What the run can observe of the disk: reading a file as UTF-8 text
    gives its text or raises; opening it for writing may raise. *)
Record FileSystem : Type := {
  read : string -> exc string;
  write_error : string -> option string
}.

Inductive Risk : Type := High | Medium | Low | Unknown | Review.

(** A finding of the scan (a [dict] with these six keys). *)
Record Finding : Type := {
  file : string;
  real_path : string;
  line : string;
  message : string;
  risk : Risk;
  code : string
}.

(** What [generate_final_report] hands to its template. *)
Record FinalReport : Type := {
  total_files_scanned : Z;
  total_vulnerable_files : Z;
  report_findings : list Finding;
  recommendations : list string;
  key_reissuance_done : bool;
  next_step_2 : string
}.

Inductive event : Type :=
| Echo (text : string)
| Print (text : string)
| DisplayReport (findings : list Finding)
| Written (path text : string)
| ReissueKeys
| RunTests (root : string)
| EchoReport (report : FinalReport)
| Uncaught (text : string).

Record World : Type := {
  disk : FileSystem;
  trace : list event
}.

Definition emit (e : event) (w : World) : World :=
  {| disk := disk w; trace := trace w ++ [e] |}.

(** [with open(path, "r", encoding="utf-8") as f: f.read()] *)
Definition read_file (path : string) (w : World) : exc string :=
  read (disk w) path.

(** [with open(path, "w", encoding="utf-8") as f: f.write(text)]; the file
    just written reads back as [text]. *)
Definition write_file (path text : string) (w : World) : World * exc unit :=
  match write_error (disk w) path with
  | Some e => (w, Raise e)
  | None =>
      ({| disk := {| read := fun p => if String.eqb p path then Return text
                                      else read (disk w) p;
                     write_error := write_error (disk w) |};
          trace := trace w ++ [Written path text] |},
       Return tt)
  end.

(* ================================================================== *)
(** ** scanner.py *)

(** One entry of the analyzer's ["results"] array; every key may be
    absent. *)
Record SemgrepResult : Type := {
  res_path : option string;
  res_message : option string;
  res_line : option Z
}.

Definition get_default {A : Type} (o : option A) (d : A) : A :=
  match o with
  | Some a => a
  | None => d
  end.

Definition assess_risk (result : SemgrepResult) : Risk :=
  let msg := PyStr.strip (PyStr.lower (get_default (res_message result) "")) in
  if PyStr.startswith msg "insecure rsa key usage detected" then
    if orb (PyStr.contains ">=3072" msg) (PyStr.contains "kyber" msg) then Low
    else High
  else if PyStr.startswith msg "insecure use of md5 detected" then High
  else if PyStr.startswith msg "insecure use of sha-1 detected" then High
  else if PyStr.startswith msg "insecure use of ecdsa detected" then High
  else if orb (PyStr.startswith msg "insecure use of triple des detected")
              (andb (PyStr.contains "3des" msg) (PyStr.contains "insecure" msg)) then Medium
  else if orb (PyStr.startswith msg "insecure use of diffie")
              (andb (PyStr.contains "diffie" msg) (PyStr.contains "insecure" msg)) then Low
  else if PyStr.startswith msg "insecure hmac with md5 detected" then High
  else Low.

(** [f.readlines()]: the lines of a text, each with its line end. *)
Fixpoint readlines_from (s : string) (cur : string) : list string :=
  match s with
  | EmptyString =>
      match cur with
      | EmptyString => []
      | _ => [cur]
      end
  | String c r =>
      if (nat_of_ascii c =? 10)%nat
      then (cur ++ String c EmptyString) :: readlines_from r ""
      else readlines_from r (cur ++ String c EmptyString)
  end.

Definition readlines (text : string) : list string := readlines_from text "".

(** [lines[i]] with Python's indexing: negative indices count from the
    end, an index out of range raises. *)
Definition py_index (lines : list string) (i : Z) : exc string :=
  let n := Z.of_nat (List.length lines) in
  let j := (if i <? 0 then i + n else i)%Z in
  if orb (j <? 0)%Z (n <=? j)%Z then Raise "list index out of range"
  else match nth_error lines (Z.to_nat j) with
       | Some l => Return l
       | None => Raise "list index out of range"
       end.

Definition is_newline (c : ascii) : bool := (nat_of_ascii c =? 10)%nat.

Fixpoint split_on (sep : ascii) (s : string) (cur : string) : list string :=
  match s with
  | EmptyString => [cur]
  | String c r =>
      if Ascii.eqb c sep then cur :: split_on sep r ""
      else split_on sep r (cur ++ String c EmptyString)
  end.

Fixpoint join (sep : string) (l : list string) : string :=
  match l with
  | [] => ""
  | [x] => x
  | x :: r => x ++ sep ++ join sep r
  end.

Section Scanner.

(** [os.path.normpath] and the analyzer run of [run_semgrep] (the parsed
    JSON object's ["results"], [None] when the key is absent). *)
Variable normpath : string -> string.
Variable run_semgrep : list string -> string -> option (list SemgrepResult).

Definition anonymize_path (full_path : string) : string :=
  let levels := 2%nat in
  let parts := split_on "/"%char (normpath full_path) "" in
  if (levels <=? List.length parts)%nat
  then join "/" (skipn (List.length parts - levels) parts)
  else full_path.

Record ScanConfig : Type := {
  cfg_dry_run : bool;
  cfg_verbose : bool;
  cfg_anonymize : bool;
  cfg_rule_file : string
}.

Definition batch_size : nat := 100.

(** [for i in range(0, len(file_list), batch_size)]: the batches, with the
    results of those that carry a ["results"] key concatenated. *)
Fixpoint batches (fuel : nat) (files : list string) (rule_file : string)
  : list SemgrepResult :=
  match fuel with
  | O => []
  | S f =>
      match files with
      | [] => []
      | _ :: _ =>
          let batch := firstn batch_size files in
          (match run_semgrep batch rule_file with
           | Some rs => rs
           | None => []
           end ++ batches f (skipn batch_size files) rule_file)%list
      end
  end.

Definition semgrep_results (file_list : list string) (rule_file : string)
  : list SemgrepResult :=
  if (List.length file_list <=? batch_size)%nat
  then get_default (run_semgrep file_list rule_file) []
  else batches (List.length file_list) file_list rule_file.

Definition shown_path (anonymize : bool) (file_path : string) : string :=
  if anonymize then anonymize_path file_path else file_path.

(** The snippet of a structured finding. *)
Definition code_snippet (fs : FileSystem) (file_path : string) (line_num : Z) : string :=
  match read fs file_path with
  | Raise _ => ""
  | Return text =>
      let lines := readlines text in
      if (line_num <=? Z.of_nat (List.length lines))%Z then
        match py_index lines (line_num - 1) with
        | Return l => PyStr.rstrip_by is_newline l
        | Raise _ => ""
        end
      else ""
  end.

(** Body of the loop over the analyzer's results. *)
Definition structured_step (fs : FileSystem) (anonymize : bool)
  (findings : list Finding) (res : SemgrepResult) : list Finding :=
  let file_path := get_default (res_path res) "" in
  if negb (PyStr.contains "rsa" (PyStr.lower (get_default (res_message res) "")))
  then findings
  else
    let '(line_str, snippet) :=
      match res_line res with
      | None => ("N/A", "")
      | Some line_num => (PyStr.str_of_Z line_num, code_snippet fs file_path line_num)
      end in
    (findings ++ [ {| file := shown_path anonymize file_path;
                      real_path := file_path;
                      line := line_str;
                      message := "RSA detected";
                      risk := assess_risk res;
                      code := snippet |} ])%list.

Definition already_reported (findings : list Finding) (file_path line_str : string) : bool :=
  existsb (fun f => andb (String.eqb (real_path f) file_path)
                         (String.eqb (line f) line_str)) findings.

(** Body of the loop over the enumerated lines of one file. *)
Definition fallback_line (anonymize : bool) (file_path : string)
  (findings : list Finding) (idx : Z) (text : string) : list Finding :=
  if PyStr.contains "rsa" (PyStr.lower text) then
    if already_reported findings file_path (PyStr.str_of_Z idx) then findings
    else
      (findings ++ [ {| file := shown_path anonymize file_path;
                        real_path := file_path;
                        line := PyStr.str_of_Z idx;
                        message := "Unmatched RSA reference";
                        risk := Review;
                        code := PyStr.strip text |} ])%list
  else findings.

(** [for idx, line in enumerate(lines, start=idx)] *)
Fixpoint fallback_lines (anonymize : bool) (file_path : string)
  (lines : list string) (idx : Z) (findings : list Finding) : list Finding :=
  match lines with
  | [] => findings
  | l :: rest =>
      fallback_lines anonymize file_path rest (idx + 1)
        (fallback_line anonymize file_path findings idx l)
  end.

(** Body of the loop over the candidate files. *)
Definition fallback_file (fs : FileSystem) (anonymize : bool)
  (findings : list Finding) (file_path : string) : list Finding :=
  match read fs file_path with
  | Raise _ => findings
  | Return text => fallback_lines anonymize file_path (readlines text) 1 findings
  end.

(** [scan_codebase] from the enumerated candidates on: [root_exists] is
    [os.path.exists(root_path)] and [file_list] the result of the walk. *)
Definition scan_codebase (fs : FileSystem) (root_path : string) (root_exists : bool)
  (file_list : list string) (config : ScanConfig) : list Finding * list event :=
  if negb root_exists then
    ([], [Print ("Error: The specified root path '" ++ root_path ++ "' does not exist.")])
  else
    match file_list with
    | [] => ([], [])
    | _ :: _ =>
        if cfg_dry_run config then
          ([], map (fun p => Print ("[DRY RUN] Would scan: " ++ p)) file_list)
        else
          let results := semgrep_results file_list (cfg_rule_file config) in
          let findings :=
            fold_left (structured_step fs (cfg_anonymize config)) results [] in
          let findings :=
            fold_left (fallback_file fs (cfg_anonymize config)) file_list findings in
          (findings, if cfg_verbose config then [Print "Scan complete."] else [])
    end.

End Scanner.

(* ================================================================== *)
(** ** report.py *)

Definition get_recommendation (finding : Finding) : string :=
  let msg := PyStr.lower (message finding) in
  if PyStr.contains "rsa" msg
  then "Replace RSA usage with PQC key generation (e.g., Kyber) and reissue keys."
  else "Review the finding.".

(** The values [generate_final_report] renders, with the sentence its
    template chooses for step 2 of the next steps. *)
Definition generate_final_report (total_scanned total_vulnerable : Z)
  (findings : list Finding) (reissuance_done : bool) : FinalReport :=
  {| total_files_scanned := total_scanned;
     total_vulnerable_files := total_vulnerable;
     report_findings := findings;
     recommendations := map get_recommendation findings;
     key_reissuance_done := reissuance_done;
     next_step_2 :=
       if reissuance_done then "PQC keys have been automatically reissued."
       else "Please trigger key reissuance manually." |}.

(* ================================================================== *)
(** ** test_runner.py *)

Definition run_tests (root_path : string) (w : World) : World * bool :=
  (emit (Print "Running tests on the updated codebase...") (emit (RunTests root_path) w),
   true).

(* ================================================================== *)
(** ** key_manager.py, refactor.py (files) and cli.py *)

Section Cli.

Variable parse_body : string -> exc (list value).
Variable unparse_other : nat -> value -> exc string.
Variable normpath : string -> string.
Variable run_semgrep : list string -> string -> option (list SemgrepResult).
(** [json.dumps(findings, indent=2)] *)
Variable json_dumps : list Finding -> string.
(** The key pair of the [oqs] provider, as the name of the key file and
    the JSON text stored in it, or the exception raised on the way. *)
Variable keygen : exc (string * string).

(** [keys_dir] is what creating the keys directory raises when it does
    not exist and cannot be made: [os.makedirs] runs before the [try], so
    that exception leaves [reissue_keys]; every later failure is caught and
    printed. *)
Definition reissue_keys (keys_dir : option string) (w : World) : World * exc unit :=
  let w := emit ReissueKeys w in
  match keys_dir with
  | Some e => (w, Raise e)
  | None =>
      (match keygen with
       | Raise e => emit (Print ("Error generating PQC keys: " ++ e)) w
       | Return (key_file, key_data) =>
           match write_file key_file key_data w with
           | (w', Raise e) => emit (Print ("Error generating PQC keys: " ++ e)) w'
           | (w', Return _) =>
               emit (Print ("New PQC keys generated and stored in " ++ key_file)) w'
           end
       end, Return tt)
  end.

Definition refactor_file (file_path : string) (vulnerabilities : list Finding)
  (dry_run : bool) (w : World) : World * exc string :=
  match read_file file_path w with
  | Raise e => (w, Raise e)
  | Return original_code =>
      let refactored_code := refactor_code_ast parse_body unparse_other original_code in
      if dry_run then
        let w := emit (Print (nl ++ "--- [Dry Run] Refactored code for "
                                ++ file_path ++ " ---" ++ nl)) w in
        let w := emit (Print refactored_code) w in
        (w, Return original_code)
      else
        match write_file file_path refactored_code w with
        | (w', Raise e) => (w', Raise e)
        | (w', Return _) => (w', Return refactored_code)
        end
  end.

Definition py_bool (b : bool) : string := if b then "True" else "False".

Definition save_json (findings : list Finding) (json_path : string) (w : World) : World :=
  match write_file json_path (json_dumps findings) w with
  | (w', Raise e) => emit (Echo ("Error saving JSON output: " ++ e)) w'
  | (w', Return _) => emit (Echo ("JSON findings saved to " ++ json_path)) w'
  end.

(** [files_to_refactor.setdefault(fpath, []).append(finding)] on a dict
    kept in insertion order. *)
Fixpoint setdefault_append (d : list (string * list Finding)) (fpath : string)
  (finding : Finding) : list (string * list Finding) :=
  match d with
  | [] => [(fpath, [finding])]
  | (k, l) :: rest =>
      if String.eqb k fpath then (k, (l ++ [finding])%list) :: rest
      else (k, l) :: setdefault_append rest fpath finding
  end.

Definition group_by_file (findings : list Finding) : list (string * list Finding) :=
  fold_left (fun d finding => setdefault_append d (real_path finding) finding)
            findings [].

(** Body of the refactor loop of [migrate]. *)
Definition refactor_step (dry_run : bool) (w : World)
  (entry : string * list Finding) : World :=
  let '(file_path, vulns) := entry in
  let w := emit (Echo ("Refactoring " ++ file_path ++ " (dry-run="
                         ++ py_bool dry_run ++ ") ...")) w in
  match refactor_file file_path vulns dry_run w with
  | (w1, Raise e) => emit (Echo ("Error refactoring " ++ file_path ++ ": " ++ e)) w1
  | (w1, Return new_content) =>
      if dry_run then w1
      else
        match write_file file_path new_content w1 with
        | (w2, Raise e) =>
            emit (Echo ("Error refactoring " ++ file_path ++ ": " ++ e)) w2
        | (w2, Return _) => emit (Echo ("Updated " ++ file_path)) w2
        end
  end.

Definition refactor_loop (dry_run : bool) (files_to_refactor : list (string * list Finding))
  (w : World) : World :=
  fold_left (refactor_step dry_run) files_to_refactor w.

(** What one invocation of [migrate] is given: its options, the loaded
    scan configuration, what the walks of the root find, the answers to
    the two confirmation prompts, and what creating the keys directory
    raises, if anything. *)
Record Invocation : Type := {
  path : string;
  dry_run : bool;
  json_output : option string;
  config : ScanConfig;
  root_exists : bool;
  file_list : list string;
  walk_count : Z;
  confirm_refactor : bool;
  confirm_reissue : bool;
  keys_dir : option string
}.

Definition emit_all (es : list event) (w : World) : World :=
  {| disk := disk w; trace := trace w ++ es |}.

Definition migrate (i : Invocation) (w : World) : World :=
  let w := emit (Echo "Starting RSA vulnerability scan...") w in
  let '(findings, prints) :=
    scan_codebase normpath run_semgrep (disk w) (path i) (root_exists i)
                  (file_list i) (config i) in
  let w := emit_all prints w in
  let total_scanned := walk_count i in
  match findings with
  | [] => emit (Echo "No RSA vulnerabilities found. Exiting.") w
  | _ :: _ =>
      let w := emit (DisplayReport findings) w in
      let w :=
        match json_output i with
        | Some p => if String.eqb p "" then w else save_json findings p w
        | None => w
        end in
      if confirm_refactor i then
        let files_to_refactor := group_by_file findings in
        let w := refactor_loop (dry_run i) files_to_refactor w in
        let '(w, reissued) :=
          if andb (negb (dry_run i)) (confirm_reissue i)
          then reissue_keys (keys_dir i) w
          else (w, Return tt) in
        match reissued with
        | Raise e => emit (Uncaught e) w
        | Return _ =>
            let w := emit (Echo "Running automated tests...") w in
            let '(w, success) := run_tests (path i) w in
            if negb success then
              emit (Echo "Tests failed. Please review changes manually.") w
            else
              let w := emit (Echo "All tests passed.") w in
              let final_report :=
                generate_final_report total_scanned
                  (Z.of_nat (List.length files_to_refactor)) findings
                  (negb (dry_run i)) in
              let w := emit (Echo (nl ++ "Final Migration Report:" ++ nl)) w in
              emit (EchoReport final_report) w
        end
      else
        emit (Echo "Auto-refactoring aborted. You may upload the JSON output to our platform for assisted migration.") w
  end.

End Cli.

(* ================================================================== *)
(** ** Occurrences in a tree *)

(** The nodes a transformer's traversal reaches in a field value: the
    node itself, or the nodes among the items of a list. *)
Definition all_items (q : value -> bool) (items : list value) : bool :=
  forallb (fun y => match y with VNode _ _ => q y | _ => true end) items.

Definition all_value (q : value -> bool) (v : value) : bool :=
  match v with
  | VNode _ _ => q v
  | VList items => all_items q items
  | _ => true
  end.

Definition all_fields (q : value -> bool) (fields : list (string * value)) : bool :=
  forallb (fun kv => all_value q (snd kv)) fields.

(** Every node reached from [v] satisfies [p]. *)
Fixpoint all_nodes (p : string -> list (string * value) -> bool) (v : value) : bool :=
  match v with
  | VNode cls fields => andb (p cls fields) (all_fields (all_nodes p) fields)
  | _ => true
  end.

(** Pass 1 deletes the node: an [import] binding nothing but [rsa], or a
    [from rsa import ...]. *)
Definition removable (cls : string) (fields : list (string * value)) : bool :=
  orb (andb (String.eqb cls "Import")
            (match RemoveRSAImportTransformer.new_names fields with
             | [] => true
             | _ :: _ => false
             end))
      (andb (String.eqb cls "ImportFrom") (attr_eq (VNode cls fields) "module" "rsa")).

(** Pass 2 rewrites the node: a call of a mapped attribute of [rsa]. *)
Definition rewritable (cls : string) (fields : list (string * value)) : bool :=
  andb (String.eqb cls "Call")
       (match RSA2PQCTransformer.rsa_callee fields with
        | Some _ => true
        | None => false
        end).

(** Pass 3 counts the node as the import of the replacement module. *)
Definition pqc_import (cls : string) (fields : list (string * value)) : bool :=
  andb (String.eqb cls "ImportFrom") (attr_eq (VNode cls fields) "module" "pqc_helpers").



Definition is_module (cls : string) (fields : list (string * value)) : bool :=
  String.eqb cls "Module".

Definition none_of (ps : list (string -> list (string * value) -> bool))
  (cls : string) (fields : list (string * value)) : bool :=
  forallb (fun p => negb (p cls fields)) ps.

(** Statements in which no pass finds anything to do: nothing to delete,
    nothing to rewrite, and no nested [Module]. *)
Definition settled (items : list value) : bool :=
  all_items (all_nodes (none_of [removable; rewritable; is_module])) items.

(** What pass 3 looks for: an [ImportFrom] of [pqc_helpers] among the
    nodes it visits (it does not look inside an [ImportFrom]). *)
Definition any_items (q : value -> bool) (items : list value) : bool :=
  existsb (fun y => match y with VNode _ _ => q y | _ => false end) items.

Definition any_value (q : value -> bool) (v : value) : bool :=
  match v with
  | VNode _ _ => q v
  | VList items => any_items q items
  | _ => false
  end.

Definition any_fields (q : value -> bool) (fields : list (string * value)) : bool :=
  existsb (fun kv => any_value q (snd kv)) fields.

Fixpoint has_pqc_import (v : value) : bool :=
  match v with
  | VNode cls fields =>
      if String.eqb cls "ImportFrom" then attr_eq v "module" "pqc_helpers"
      else any_fields has_pqc_import fields
  | _ => false
  end.


(** No import of the replacement module anywhere. *)
Definition no_pqc_import : value -> bool :=
  all_nodes (fun c f => negb (pqc_import c f)).

(** The first line the printer gives a module that starts with the
    inserted import. *)
Definition import_line : string :=
  nl ++ "from pqc_helpers import oqs_generate_keypair, oqs_encrypt, oqs_decrypt, oqs_sign, oqs_verify".

(** The call [rsa.<attr>(args, keywords)] as the parser builds it. *)
Definition rsa_call (attr : string) (args keywords : list value) : value :=
  Call (PyParse.AttributeLoad (Name "rsa") attr) (VList args) (VList keywords).

(* ================================================================== *)
(** ** Reading a run *)

Section Outcomes.

Variable parse_body : string -> exc (list value).
Variable unparse_other : nat -> value -> exc string.

(** [refactor_file] (outside dry-run) raises on [file_path]: the file
    cannot be read, or cannot be opened for writing. *)
Definition fails (fs : FileSystem) (file_path : string) : bool :=
  match read fs file_path with
  | Raise _ => true
  | Return _ =>
      match write_error fs file_path with
      | Some _ => true
      | None => false
      end
  end.

(** What one turn of the refactor loop (outside dry-run) puts on the
    console and on the disk for [file_path]. *)
Definition step_events (fs : FileSystem) (file_path : string) : list event :=
  Echo ("Refactoring " ++ file_path ++ " (dry-run=False) ...")
  :: match read fs file_path with
     | Raise e => [Echo ("Error refactoring " ++ file_path ++ ": " ++ e)]
     | Return original =>
         match write_error fs file_path with
         | Some e => [Echo ("Error refactoring " ++ file_path ++ ": " ++ e)]
         | None =>
             let text := refactor_code_ast parse_body unparse_other original in
             [Written file_path text; Written file_path text;
              Echo ("Updated " ++ file_path)]
         end
     end.

(** The disk the loop (outside dry-run) leaves at [q], for the paths
    [keys] it goes through: a file it could read and write holds the
    engine's output, every other path is as before. *)
Definition rewritten (fs : FileSystem) (keys : list string) (q : string) : exc string :=
  if existsb (String.eqb q) keys then
    match read fs q with
    | Raise e => Raise e
    | Return original =>
        match write_error fs q with
        | Some _ => Return original
        | None => Return (refactor_code_ast parse_body unparse_other original)
        end
    end
  else read fs q.

End Outcomes.

Definition is_error_echo (ev : event) : bool :=
  match ev with
  | Echo s => String.prefix "Error refactoring " s
  | _ => false
  end.

(** An event a dry run may produce: anything but a key reissuance, and no
    write other than the export of the findings to [json]. *)
Definition dry_event (json : option string) (ev : event) : bool :=
  match ev with
  | ReissueKeys => false
  | Written p _ =>
      match json with
      | Some q => String.eqb p q
      | None => false
      end
  | _ => true
  end.

(** [evolves allowed keep w w']: from [w] to [w'] the trace grows by
    events that are all [allowed], and the files [keep] selects read as
    before. *)
Definition evolves (allowed : event -> bool) (keep : string -> bool) (w w' : World) : Prop :=
  write_error (disk w') = write_error (disk w)
  /\ (forall p, keep p = true -> read (disk w') p = read (disk w) p)
  /\ exists es, trace w' = (trace w ++ es)%list /\ forallb allowed es = true.

(** Every path but the one the findings are exported to. *)
Definition not_export (json : option string) (p : string) : bool :=
  match json with
  | Some q => negb (String.eqb p q)
  | None => true
  end.

Definition not_reissue (ev : event) : bool :=
  match ev with
  | ReissueKeys => false
  | _ => true
  end.

(** Console output only; console output and writes. *)
Definition console (ev : event) : bool :=
  match ev with
  | Echo _ | Print _ => true
  | _ => false
  end.

Definition console_or_write (ev : event) : bool :=
  match ev with
  | Echo _ | Print _ | Written _ _ => true
  | _ => false
  end.

(* ================================================================== *)
(** ** Reading the findings *)

Definition structured_message : string := "RSA detected".
Definition fallback_message : string := "Unmatched RSA reference".

(** The finding sits at the key ([p], [l]). *)
Definition at_key (p l : string) (f : Finding) : bool :=
  andb (String.eqb (real_path f) p) (String.eqb (line f) l).

(** How many findings with message [msg] sit at the key ([p], [l]). *)
Definition count_at (msg p l : string) (findings : list Finding) : nat :=
  List.length (filter (fun f => andb (String.eqb (message f) msg) (at_key p l f)) findings).

(** The fallback findings [tail] were each added at a key not reported by
    any finding before it, [seen] being the findings before the first. *)
Fixpoint fresh (seen tail : list Finding) : Prop :=
  match tail with
  | [] => True
  | g :: rest =>
      message g = fallback_message
      /\ already_reported seen (real_path g) (line g) = false
      /\ fresh (seen ++ [g]) rest
  end.

(** The risk classifier as the spec words it: a table of rules tried in
    order, the first that matches decides, [Low] when none does. *)
Definition spec_risk_table : list ((string -> bool) * Risk) :=
  [ (fun m => andb (PyStr.startswith m "insecure rsa key usage detected")
                   (orb (PyStr.contains ">=3072" m) (PyStr.contains "kyber" m)), Low);
    (fun m => PyStr.startswith m "insecure rsa key usage detected", High);
    (fun m => PyStr.startswith m "insecure use of md5 detected", High);
    (fun m => PyStr.startswith m "insecure use of sha-1 detected", High);
    (fun m => PyStr.startswith m "insecure use of ecdsa detected", High);
    (fun m => orb (PyStr.startswith m "insecure use of triple des detected")
                  (andb (PyStr.contains "3des" m) (PyStr.contains "insecure" m)), Medium);
    (fun m => orb (PyStr.startswith m "insecure use of diffie")
                  (andb (PyStr.contains "diffie" m) (PyStr.contains "insecure" m)), Low);
    (fun m => PyStr.startswith m "insecure hmac with md5 detected", High) ].

Fixpoint first_match (rules : list ((string -> bool) * Risk)) (default : Risk)
  (msg : string) : Risk :=
  match rules with
  | [] => default
  | (applies, r) :: rest => if applies msg then r else first_match rest default msg
  end.

(** The message as the classifier reads it. *)
Definition normalized (result : SemgrepResult) : string :=
  PyStr.strip (PyStr.lower (get_default (res_message result) "")).

(** An analyzer result that carries the message [m]. *)
Definition with_message (m : string) : SemgrepResult :=
  {| res_path := None; res_message := Some m; res_line := None |}.

(** The white-space characters, each by its bytes, and the texts made of
    them. *)
Definition whitespace : list string :=
  map PyStr.bytes
    [ [9]; [10]; [11]; [12]; [13]; [28]; [29]; [30]; [31]; [32];
      [194; 133]; [194; 160];
      [225; 154; 128];
      [226; 128; 128]; [226; 128; 129]; [226; 128; 130]; [226; 128; 131];
      [226; 128; 132]; [226; 128; 133]; [226; 128; 134]; [226; 128; 135];
      [226; 128; 136]; [226; 128; 137]; [226; 128; 138];
      [226; 128; 168]; [226; 128; 169]; [226; 128; 175];
      [226; 129; 159];
      [227; 128; 128] ].

Inductive blank : string -> Prop :=
| blank_nil : blank ""
| blank_cons (w r : string) : In w whitespace -> blank r -> blank (w ++ r).

(** The text with its ASCII letters in capitals. *)
Definition capital (c : ascii) : ascii :=
  let n := nat_of_ascii c in
  if andb (97 <=? n)%nat (n <=? 122)%nat then ascii_of_nat (n - 32) else c.

Fixpoint capitals (s : string) : string :=
  match s with
  | EmptyString => EmptyString
  | String c r => String (capital c) (capitals r)
  end.

(** A text of ASCII characters without capitals, and one with no ASCII
    white space at its ends. *)
Definition plain_byte (c : ascii) : bool :=
  let n := nat_of_ascii c in
  andb (n <? 128)%nat (negb (andb (65 <=? n)%nat (n <=? 90)%nat)).

Fixpoint all_bytes (p : ascii -> bool) (s : string) : bool :=
  match s with
  | EmptyString => true
  | String c r => andb (p c) (all_bytes p r)
  end.

Definition no_space_first (s : string) : bool :=
  match s with
  | EmptyString => true
  | String c _ => negb (PyStr.is_space c)
  end.

Definition trimmed (s : string) : bool :=
  andb (no_space_first s) (no_space_first (PyStr.reverse s)).

(** The first byte of a white-space character. *)
Definition space_lead (c : ascii) : bool :=
  orb (PyStr.is_space c)
      (orb (PyStr.byte c 194)
           (orb (PyStr.byte c 225) (orb (PyStr.byte c 226) (PyStr.byte c 227)))).

(* ================================================================== *)
(** ** Induction on trees *)

Section ValueInduction.

Variable P : value -> Prop.
Hypothesis HNone : P VNone.
Hypothesis HStr : forall s, P (VStr s).
Hypothesis HInt : forall z, P (VInt z).
Hypothesis HObj : forall r, P (VObj r).
Hypothesis HList : forall items, Forall P items -> P (VList items).
Hypothesis HNode : forall cls fields,
  Forall (fun kv => P (snd kv)) fields -> P (VNode cls fields).

Fixpoint value_induction (v : value) : P v :=
  match v with
  | VNone => HNone
  | VStr s => HStr s
  | VInt z => HInt z
  | VObj r => HObj r
  | VList items =>
      HList items
        ((fix go (l : list value) : Forall P l :=
            match l with
            | [] => Forall_nil P
            | x :: r => Forall_cons x (value_induction x) (go r)
            end) items)
  | VNode cls fields =>
      HNode cls fields
        ((fix go (l : list (string * value)) : Forall (fun kv => P (snd kv)) l :=
            match l with
            | [] => Forall_nil _
            | kv :: r => Forall_cons kv (value_induction (snd kv)) (go r)
            end) fields)
  end.

End ValueInduction.

(** [child fields x]: [x] is a node held by a field, directly or as an
    item of a list. *)
Inductive child (fields : list (string * value)) (x : value) : Prop :=
| child_field (k cls : string) (fs : list (string * value)) :
    In (k, x) fields -> x = VNode cls fs -> child fields x
| child_item (k : string) (items : list value) (cls : string) (fs : list (string * value)) :
    In (k, VList items) fields -> In x items -> x = VNode cls fs -> child fields x.

(* ================================================================== *)
(** ** Scenario 1 *)
















(** ** Sample files *)

Definition plain_file : string :=
  "import os" ++ nl ++ "x = os.getcwd()" ++ nl.







Definition mixed_import_file : string :=
  "import rsa, os" ++ nl.

(** A disk holding the given files, all writable. *)
Fixpoint lookup (files : list (string * string)) (p : string) : option string :=
  match files with
  | [] => None
  | (k, v) :: rest => if String.eqb k p then Some v else lookup rest p
  end.

Definition disk_of (files : list (string * string)) : FileSystem :=
  {| read := fun p =>
       match lookup files p with
       | Some text => Return text
       | None => Raise ("[Errno 2] No such file or directory: '" ++ p ++ "'")
       end;
     write_error := fun _ => None |}.

(** The spec's three files: [b.py] does not parse. *)
Definition a_py : string := "import rsa" ++ nl ++ "rsa.encrypt(m, k)" ++ nl.
Definition b_py : string := "import rsa" ++ nl ++ "x = (" ++ nl.
Definition c_py : string := "import rsa" ++ nl ++ "rsa.decrypt(c, k)" ++ nl.

Definition three_files : World :=
  {| disk := disk_of [("a.py", a_py); ("b.py", b_py); ("c.py", c_py)];
     trace := [] |}.

(** A run with the analyzer unavailable and the key provider at hand. *)
Definition sample_migrate : Invocation -> World -> World :=
  migrate PyParse.parse_body PyParse.no_other (fun p => p) (fun _ _ => None)
          (fun _ => "[]") (Return ("keys/pqc_keys.json", "{}")).

Definition sample_config : ScanConfig :=
  {| cfg_dry_run := false; cfg_verbose := true; cfg_anonymize := false;
     cfg_rule_file := "rsa_rules.yml" |}.

(** [migrate --path .], refactoring confirmed, key reissuance declined. *)
Definition run_declining_reissue : Invocation :=
  {| path := "."; dry_run := false; json_output := None; config := sample_config;
     root_exists := true; file_list := ["a.py"; "b.py"; "c.py"]; walk_count := 3;
     confirm_refactor := true; confirm_reissue := false; keys_dir := None |}.

(** [migrate --path . --dry-run], both prompts answered yes. *)
Definition run_dry : Invocation :=
  {| path := "."; dry_run := true; json_output := Some "findings.json";
     config := sample_config;
     root_exists := true; file_list := ["a.py"; "b.py"; "c.py"]; walk_count := 3;
     confirm_refactor := true; confirm_reissue := true; keys_dir := None |}.

Definition finding_at (p : string) : Finding :=
  {| file := p; real_path := p; line := "1"; message := "Unmatched RSA reference";
     risk := Review; code := "import rsa" |}.

(** A disk with one file that does not parse, and the run over it. *)
Definition one_broken_file : World :=
  {| disk := disk_of [("broken.py", b_py)]; trace := [] |}.

Definition run_on_broken_file : Invocation :=
  {| path := "."; dry_run := false; json_output := None; config := sample_config;
     root_exists := true; file_list := ["broken.py"]; walk_count := 1;
     confirm_refactor := true; confirm_reissue := true; keys_dir := None |}.

Definition is_updated_echo (p : string) (ev : event) : bool :=
  match ev with
  | Echo s => String.eqb s ("Updated " ++ p)
  | _ => false
  end.

Definition is_reissue (ev : event) : bool :=
  match ev with
  | ReissueKeys => true
  | _ => false
  end.

Definition is_final_report (ev : event) : bool :=
  match ev with
  | EchoReport _ => true
  | _ => false
  end.

(** Two rules of the analyzer matching the same line. *)
Definition key_usage_result : SemgrepResult :=
  {| res_path := Some "a.py";
     res_message := Some "Insecure RSA key usage detected";
     res_line := Some 2%Z |}.

Definition key_size_result : SemgrepResult :=
  {| res_path := Some "a.py";
     res_message := Some "RSA key size below 2048 bits";
     res_line := Some 2%Z |}.

Definition two_rules_one_line (files : list string) (rule_file : string)
  : option (list SemgrepResult) :=
  Some [key_usage_result; key_size_result].

Definition mitigated_result : SemgrepResult :=
  {| res_path := Some "a.py";
     res_message := Some "  Insecure RSA key usage detected: use >=3072 bits or Kyber ";
     res_line := Some 2%Z |}.

Definition unrelated_result : SemgrepResult :=
  {| res_path := Some "a.py";
     res_message := Some "Weak random number generator";
     res_line := None |}.

(** A file the printer cannot print: [astunparse] has no method for the
    [match] statement.  [match_body] is the tree [ast.parse] builds for it;
    [parse_also] is the sample parser extended by one more file, given with
    its tree, and [missing_method] the printer's failure on a class it has
    no method for. *)
Definition match_file : string :=
  "match x:" ++ nl ++ "    case 1:" ++ nl ++ "        pass" ++ nl.

Definition match_statement (subject : string) : value :=
  VNode "Match"
    [ ("subject", PyParse.NameCtx subject "Load");
      ("cases",
       VList [ VNode "match_case"
                 [ ("pattern", VNode "MatchValue" [("value", Constant (VInt 1))]);
                   ("guard", VNone);
                   ("body", VList [VNode "Pass" []]) ] ]) ].

Definition match_body : list value := [match_statement "x"].

Definition parse_also (text : string) (tree : list value) (code : string)
  : exc (list value) :=
  if String.eqb code text then Return tree else PyParse.parse_body code.

Definition missing_method (indent : nat) (tree : value) : exc string :=
  match tree with
  | VNode cls _ => Raise ("'Unparser' object has no attribute '_" ++ cls ++ "'")
  | _ => Raise "'Unparser' object has no attribute"
  end.

(** Messages that differ from the rule's wording by letter case, by
    surrounding white space (a space, a no-break space, a line end), and
    by the Kelvin sign in place of the letter K. *)
Definition padded_result : SemgrepResult :=
  with_message (PyStr.bytes [32; 194; 160] ++ "INSECURE RSA Key Usage Detected" ++ nl).

Definition kelvin_result : SemgrepResult :=
  with_message ("Insecure RSA key usage detected; hybrid with "
                ++ PyStr.bytes [226; 132; 170] ++ "yber").


Definition arg (name : string) : value :=
  VNode "arg" [("arg", VStr name); ("annotation", VNone); ("type_comment", VNone)].











(* ================================================================== *)
(** ** scanner.py: the enumeration of the candidate files *)

(** A directory as [os.walk] sees it: its sub-directories and its files,
    in the order the system lists them. *)
Inductive dir : Type :=
| Dir (subdirs : list (string * dir)) (files : list string).

Fixpoint ends_with_slash (s : string) : bool :=
  match s with
  | EmptyString => false
  | String c EmptyString => Ascii.eqb c "/"%char
  | String _ r => ends_with_slash r
  end.

(** [os.path.join(a, b)] on a POSIX system. *)
Definition path_join (a b : string) : string :=
  if String.prefix "/" b then b
  else if orb (String.eqb a "") (ends_with_slash a) then a ++ b
  else a ++ "/" ++ b.

Definition default_excludes : list string :=
  [".git"; "node_modules"; "venv"; "__pycache__"].


Section Walk.

(** [fnmatch.fnmatch(name, pattern)] *)
Variable fnmatch : string -> string -> bool.

Definition should_include (file_name : string) (patterns : list string) : bool :=
  existsb (fun pattern => fnmatch file_name pattern) patterns.

Definition should_exclude (dir_path : string) (patterns : list string) : bool :=
  existsb (fun pattern => orb (PyStr.contains pattern dir_path)
                              (fnmatch dir_path pattern)) patterns.

(** The descent of [os.walk] into the sub-directories left in
    [dirnames]: those that match an exclude pattern are dropped before the
    walk descends. *)
Definition walk_below (walk : string -> dir -> list string) (exclude : list string)
  (dirpath : string) : list (string * dir) -> list string :=
  fix below (l : list (string * dir)) : list string :=
    match l with
    | [] => []
    | (name, sub) :: rest =>
        if should_exclude (path_join dirpath name) exclude
        then below rest
        else (walk (path_join dirpath name) sub ++ below rest)%list
    end.

(** The loop over [os.walk(root_path)]: the files of the directory that
    match an include pattern are appended, then the walk goes down. *)
Fixpoint walk_files (include exclude : list string) (dirpath : string) (d : dir)
  : list string :=
  match d with
  | Dir subdirs files =>
      (map (path_join dirpath) (filter (fun f => should_include f include) files)
       ++ walk_below (walk_files include exclude) exclude dirpath subdirs)%list
  end.




End Walk.



Section DirInduction.

Variable P : dir -> Prop.
Hypothesis HDir : forall subdirs files,
  Forall (fun entry => P (snd entry)) subdirs -> P (Dir subdirs files).


End DirInduction.

(* ================================================================== *)
(** ** Sample inputs for the walk *)

(** The [*] and [?] wildcards of [fnmatch], for patterns without
    character classes on a system whose [normcase] changes nothing. *)
Fixpoint glob (pattern : string) : string -> bool :=
  match pattern with
  | EmptyString => fun name => String.eqb name ""
  | String c rest =>
      if Ascii.eqb c "*"%char then
        fix star (name : string) : bool :=
          orb (glob rest name)
              (match name with
               | EmptyString => false
               | String _ name' => star name'
               end)
      else fun name =>
        match name with
        | EmptyString => false
        | String d name' =>
            andb (orb (Ascii.eqb c "?"%char) (Ascii.eqb c d)) (glob rest name')
        end
  end.

Definition fnmatch_wildcards (name pattern : string) : bool := glob pattern name.



(* ================================================================== *)
(** ** Reading the scan *)

(** The analyzer is not at hand: [run_semgrep] returns [{}]. *)
Definition no_analyzer (files : list string) (rule_file : string)
  : option (list SemgrepResult) := None.

(** An analyzer that reports one result per file it is given. *)
Definition result_for (p : string) : SemgrepResult :=
  {| res_path := Some p;
     res_message := Some "Insecure RSA key usage detected";
     res_line := Some 1%Z |}.

Definition one_result_per_file (files : list string) (rule_file : string)
  : option (list SemgrepResult) := Some (map result_for files).

Definition many_files : list string :=
  map (fun n => "f" ++ PyStr.str_of_nat n ++ ".py") (seq 0 250).

(** A raw-text finding on one of the candidates. *)
Definition fallback_of (files : list string) (f : Finding) : Prop :=
  message f = fallback_message /\ risk f = Review /\ In (real_path f) files.

Definition rsa_recommendation : string :=
  "Replace RSA usage with PQC key generation (e.g., Kyber) and reissue keys.".

(** The path holds a separator. *)
Fixpoint has_sep (s : string) : bool :=
  match s with
  | EmptyString => false
  | String c r => orb (Ascii.eqb c "/"%char) (has_sep r)
  end.

Definition four_lines : FileSystem :=
  disk_of [("k.py", "import os" ++ nl ++ "import rsa" ++ nl ++ "k = 1" ++ nl ++ "rsa.newkeys(512)")].

(* ================================================================== *)
(** ** Sample files for the engine *)

(** The rsa functions reached through a from-import, and through an
    alias of the module. *)
Definition from_import_file : string :=
  "from rsa import encrypt" ++ nl ++ "c = encrypt(m, k)" ++ nl.

Definition aliased_import_file : string :=
  "import rsa as r" ++ nl ++ "c = r.encrypt(m, k)" ++ nl.

(** The body held by a [Module] node. *)
Definition module_body (tree : value) : list value :=
  match tree with
  | VNode _ fields =>
      match getattr fields "body" with
      | Some (VList body) => body
      | _ => []
      end
  | _ => []
  end.

(* ================================================================== *)
(** ** cli.py: the [scan_code] command; report.py: [display_report] *)


Section ScanCode.

Variable normpath : string -> string.
Variable run_semgrep : list string -> string -> option (list SemgrepResult).
Variable json_dumps : list Finding -> string.


End ScanCode.

(** An event of a run that scans and reports only: console output, the
    table of findings, and the export of the findings to [json]. *)
Definition scan_event (json : option string) (ev : event) : bool :=
  match ev with
  | Echo _ | Print _ | DisplayReport _ => true
  | Written p _ =>
      match json with
      | Some q => String.eqb p q
      | None => false
      end
  | _ => false
  end.

Definition no_findings (findings : list Finding) : bool :=
  match findings with
  | [] => true
  | _ :: _ => false
  end.

(** [migrate --path . --json-output findings.json] with [dry_run: true]
    in the configuration file, and with the refactoring declined. *)
Definition dry_config : ScanConfig :=
  {| cfg_dry_run := true; cfg_verbose := true; cfg_anonymize := false;
     cfg_rule_file := "rsa_rules.yml" |}.

Definition run_with_dry_config : Invocation :=
  {| path := "."; dry_run := false; json_output := Some "findings.json";
     config := dry_config;
     root_exists := true; file_list := ["a.py"; "b.py"; "c.py"]; walk_count := 3;
     confirm_refactor := true; confirm_reissue := true; keys_dir := None |}.

Definition run_declining_refactor : Invocation :=
  {| path := "."; dry_run := false; json_output := Some "findings.json";
     config := sample_config;
     root_exists := true; file_list := ["a.py"; "b.py"; "c.py"]; walk_count := 3;
     confirm_refactor := false; confirm_reissue := true; keys_dir := None |}.

Definition run_confirming_all : Invocation :=
  {| path := "."; dry_run := false; json_output := None; config := sample_config;
     root_exists := true; file_list := ["a.py"; "b.py"; "c.py"]; walk_count := 3;
     confirm_refactor := true; confirm_reissue := true; keys_dir := None |}.

(** A run whose key provider fails. *)
Definition migrate_without_provider : Invocation -> World -> World :=
  migrate PyParse.parse_body PyParse.no_other (fun p => p) (fun _ _ => None)
          (fun _ => "[]") (Raise "KEM mechanism is not supported").

(** [d.get(k)] on a dict kept as a list of its items. *)
Fixpoint assoc {A : Type} (d : list (string * A)) (k : string) : option A :=
  match d with
  | [] => None
  | (k', v) :: rest => if String.eqb k' k then Some v else assoc rest k
  end.

(** The findings of one file, in the order of the scan. *)
Definition findings_of (p : string) (findings : list Finding) : list Finding :=
  filter (fun f => String.eqb (real_path f) p) findings.

Definition finding_on (p l : string) : Finding :=
  {| file := p; real_path := p; line := l; message := "Unmatched RSA reference";
     risk := Review; code := "import rsa" |}.

(** How often the events invoke [reissue_keys]; [extends n w w']: from
    [w] to [w'] the trace grows by events that invoke it [n] times. *)
Definition reissues (es : list event) : nat := List.length (filter is_reissue es).

Definition extends (n : nat) (w w' : World) : Prop :=
  exists es, trace w' = (trace w ++ es)%list /\ reissues es = n.

Definition would_scan (p : string) : event := Print ("[DRY RUN] Would scan: " ++ p).

(** An event that comes before the test step: anything but the test run
    and the final report. *)
Definition before_tests (ev : event) : bool :=
  match ev with
  | RunTests _ | EchoReport _ => false
  | _ => true
  end.

(** A run in which the keys directory cannot be made. *)
Definition run_without_keys_dir : Invocation :=
  {| path := "."; dry_run := false; json_output := None; config := sample_config;
     root_exists := true; file_list := ["a.py"; "b.py"; "c.py"]; walk_count := 3;
     confirm_refactor := true; confirm_reissue := true;
     keys_dir := Some "[Errno 13] Permission denied: 'keys'" |}.

(* ================================================================== *)
(** * Properties *)

(** ** Reasoning on trees *)

Lemma child_cons (kv : string * value) (fields : list (string * value)) (x : value) :
  child fields x -> child (kv :: fields) x.
Proof.
  intros [k cls fs Hin Hx | k items cls fs Hin Hi Hx].
  - eapply child_field; [right; exact Hin | exact Hx].
  - eapply child_item; [right; exact Hin | exact Hi | exact Hx].
Qed.

(** Induction on nodes along [child]. *)
Lemma node_induction (P : value -> Prop) :
  (forall cls fields, (forall x, child fields x -> P x) -> P (VNode cls fields)) ->
  forall cls fields, P (VNode cls fields).
Proof.
  intros Hstep.
  assert (H : forall v,
             match v with
             | VNode _ _ => P v
             | VList items => forall x cls fs, In x items -> x = VNode cls fs -> P x
             | _ => True
             end).
  { induction v using value_induction; auto.
    - intros x cls fs Hin Hx. rewrite Forall_forall in H.
      specialize (H x Hin). subst x. exact H.
    - apply Hstep. intros x [k c fs Hin Hx | k items c fs Hin Hi Hx].
      + rewrite Forall_forall in H. specialize (H _ Hin). simpl in H.
        subst x. exact H.
      + rewrite Forall_forall in H. specialize (H _ Hin). simpl in H.
        eapply H; eauto. }
  intros cls fields. exact (H (VNode cls fields)).
Qed.

Lemma all_items_child (q : value -> bool) (items : list value) (x : value)
  (cls : string) (fs : list (string * value)) :
  all_items q items = true -> In x items -> x = VNode cls fs -> q x = true.
Proof.
  unfold all_items. rewrite forallb_forall. intros H Hin Hx.
  specialize (H x Hin). subst x. exact H.
Qed.

Lemma all_fields_child (q : value -> bool) (fields : list (string * value)) (x : value) :
  all_fields q fields = true -> child fields x -> q x = true.
Proof.
  unfold all_fields. rewrite forallb_forall.
  intros H [k cls fs Hin Hx | k items cls fs Hin Hi Hx].
  - specialize (H _ Hin). simpl in H. subst x. exact H.
  - specialize (H _ Hin). simpl in H. eapply all_items_child; eauto.
Qed.

(** A traversal whose visits give every node back leaves the fields as
    they are. *)
Lemma visit_items_id (visit : value -> visited) (items : list value) :
  (forall x cls fs, In x items -> x = VNode cls fs -> visit x = Replaced x) ->
  visit_items visit items = items.
Proof.
  induction items as [| v rest IH]; intros H; simpl; [reflexivity |].
  rewrite IH by (intros; eapply H; [right |]; eauto).
  destruct v; try reflexivity.
  erewrite H; [reflexivity | left; reflexivity | reflexivity].
Qed.

Lemma generic_visit_id (visit : value -> visited) (fields : list (string * value)) :
  (forall x, child fields x -> visit x = Replaced x) ->
  generic_visit visit fields = fields.
Proof.
  induction fields as [| [k v] rest IH]; intros H; simpl; [reflexivity |].
  rewrite IH by (intros x Hx; apply H; apply child_cons; exact Hx).
  destruct v; try reflexivity.
  - rewrite visit_items_id; [reflexivity |].
    intros x cls fs Hin Hx. apply H.
    eapply child_item; [left; reflexivity | exact Hin | exact Hx].
  - rewrite H; [reflexivity |].
    eapply child_field; [left; reflexivity | reflexivity].
Qed.

Lemma none_of_cons p ps cls fields :
  none_of (p :: ps) cls fields = andb (negb (p cls fields)) (none_of ps cls fields).
Proof. reflexivity. Qed.

Lemma all_nodes_weaken (p q : string -> list (string * value) -> bool) :
  (forall cls fields, p cls fields = true -> q cls fields = true) ->
  forall cls fields,
    all_nodes p (VNode cls fields) = true -> all_nodes q (VNode cls fields) = true.
Proof.
  intros Hpq. apply (node_induction
    (fun v => all_nodes p v = true -> all_nodes q v = true)).
  intros cls fields IH H. simpl in *.
  apply andb_true_iff in H. destruct H as [Hp Hf].
  apply andb_true_iff. split; [apply Hpq; exact Hp |].
  unfold all_fields in *. rewrite forallb_forall in *.
  intros [k v] Hin. specialize (Hf _ Hin). cbn [snd] in *.
  destruct v; cbn [all_value] in *; auto.
  - unfold all_items in *. rewrite forallb_forall in *.
    intros y Hy. specialize (Hf y Hy). destruct y; auto.
    apply IH; [| exact Hf].
    eapply child_item; [exact Hin | exact Hy | reflexivity].
  - apply IH; [| exact Hf].
    eapply child_field; [exact Hin | reflexivity].
Qed.

Lemma all_items_weaken (p q : string -> list (string * value) -> bool) (items : list value) :
  (forall cls fields, p cls fields = true -> q cls fields = true) ->
  all_items (all_nodes p) items = true -> all_items (all_nodes q) items = true.
Proof.
  intros Hpq. unfold all_items. rewrite !forallb_forall.
  intros H y Hy. specialize (H y Hy). destruct y; auto.
  eapply all_nodes_weaken; eauto.
Qed.

(** The dispatch of each transformer on a node. *)
Lemma remove_visit_node (cls : string) (fields : list (string * value)) :
  RemoveRSAImportTransformer.visit (VNode cls fields) =
  if String.eqb cls "Import"
  then RemoveRSAImportTransformer.visit_Import (VNode cls fields) fields
  else if String.eqb cls "ImportFrom"
  then RemoveRSAImportTransformer.visit_ImportFrom (VNode cls fields)
  else Replaced (VNode cls (generic_visit RemoveRSAImportTransformer.visit fields)).
Proof. reflexivity. Qed.

Lemma rsa2pqc_visit_node (cls : string) (fields : list (string * value)) :
  RSA2PQCTransformer.visit (VNode cls fields) =
  if String.eqb cls "Call" then
    match RSA2PQCTransformer.rsa_callee fields with
    | Some (func_name, new_func_name) =>
        Spliced [Call (Name new_func_name)
                      (RSA2PQCTransformer.field_or_none fields "args")
                      (RSA2PQCTransformer.field_or_none fields "keywords");
                 RSA2PQCTransformer.migration_comment func_name new_func_name]
    | None => Replaced (VNode cls (generic_visit RSA2PQCTransformer.visit fields))
    end
  else Replaced (VNode cls (generic_visit RSA2PQCTransformer.visit fields)).
Proof. reflexivity. Qed.

Lemma add_visit_node (cls : string) (fields : list (string * value)) (found : bool) :
  AddPQCImportTransformer.visit (VNode cls fields) found =
  if String.eqb cls "ImportFrom" then
    (Replaced (VNode cls fields),
     if attr_eq (VNode cls fields) "module" "pqc_helpers" then true else found)
  else if String.eqb cls "Module" then
    let '(fields', found') :=
      generic_visit_st AddPQCImportTransformer.visit fields found in
    if found' then (Replaced (VNode cls fields'), found')
    else (Replaced (VNode cls (AddPQCImportTransformer.body_insert0
                                 fields' AddPQCImportTransformer.import_node)), found')
  else
    let '(fields', found') :=
      generic_visit_st AddPQCImportTransformer.visit fields found in
    (Replaced (VNode cls fields'), found').
Proof. reflexivity. Qed.

(** Pass 1 gives back a node in which it has nothing to delete. *)
Lemma remove_visit_settled (cls : string) (fields : list (string * value)) :
  all_nodes (fun c f => negb (removable c f)) (VNode cls fields) = true ->
  RemoveRSAImportTransformer.visit (VNode cls fields) = Replaced (VNode cls fields).
Proof.
  revert cls fields.
  apply (node_induction (fun v =>
    all_nodes (fun c f => negb (removable c f)) v = true ->
    RemoveRSAImportTransformer.visit v = Replaced v)).
  intros cls fields IH H. simpl in H.
  apply andb_true_iff in H. destruct H as [Hp Hf].
  unfold removable in Hp. apply negb_true_iff in Hp.
  apply orb_false_iff in Hp. destruct Hp as [H1 H2].
  rewrite remove_visit_node. destruct (String.eqb cls "Import") eqn:Ei.
  - cbn [andb] in H1. unfold RemoveRSAImportTransformer.visit_Import.
    destruct (RemoveRSAImportTransformer.new_names fields); [discriminate | reflexivity].
  - destruct (String.eqb cls "ImportFrom") eqn:Ef.
    + cbn [andb] in H2. unfold RemoveRSAImportTransformer.visit_ImportFrom.
      rewrite H2. reflexivity.
    + rewrite generic_visit_id; [reflexivity |].
      intros x Hx. apply IH; [exact Hx |].
      eapply all_fields_child; eauto.
Qed.

(** Pass 2 gives back a node in which it has nothing to rewrite. *)
Lemma rsa2pqc_visit_settled (cls : string) (fields : list (string * value)) :
  all_nodes (fun c f => negb (rewritable c f)) (VNode cls fields) = true ->
  RSA2PQCTransformer.visit (VNode cls fields) = Replaced (VNode cls fields).
Proof.
  revert cls fields.
  apply (node_induction (fun v =>
    all_nodes (fun c f => negb (rewritable c f)) v = true ->
    RSA2PQCTransformer.visit v = Replaced v)).
  intros cls fields IH H. simpl in H.
  apply andb_true_iff in H. destruct H as [Hp Hf].
  unfold rewritable in Hp. apply negb_true_iff in Hp.
  assert (Hg : generic_visit RSA2PQCTransformer.visit fields = fields).
  { apply generic_visit_id. intros x Hx. apply IH; [exact Hx |].
    eapply all_fields_child; eauto. }
  rewrite rsa2pqc_visit_node. destruct (String.eqb cls "Call") eqn:Ec.
  - cbn [andb] in Hp. destruct (RSA2PQCTransformer.rsa_callee fields) as [[a b] |];
      [discriminate |]. rewrite Hg. reflexivity.
  - rewrite Hg. reflexivity.
Qed.

(** The stateful traversal, when every visit gives the node back and adds
    [h] of the node to the flag. *)
Lemma visit_items_st_id (visit : value -> bool -> visited * bool)
  (h : value -> bool) (items : list value) :
  (forall x cls fs st, In x items -> x = VNode cls fs ->
     visit x st = (Replaced x, orb st (h x))) ->
  forall st, visit_items_st visit items st = (items, orb st (any_items h items)).
Proof.
  induction items as [| v rest IH]; intros H st; simpl.
  - rewrite orb_false_r. reflexivity.
  - destruct v;
      try (rewrite IH by (intros; eapply H; [right |]; eauto); reflexivity).
    erewrite H; [| left; reflexivity | reflexivity].
    rewrite IH by (intros; eapply H; [right |]; eauto).
    rewrite orb_assoc. reflexivity.
Qed.

Lemma generic_visit_st_id (visit : value -> bool -> visited * bool)
  (h : value -> bool) (fields : list (string * value)) :
  (forall x st, child fields x -> visit x st = (Replaced x, orb st (h x))) ->
  forall st, generic_visit_st visit fields st = (fields, orb st (any_fields h fields)).
Proof.
  induction fields as [| [k v] rest IH]; intros H st; simpl.
  - rewrite orb_false_r. reflexivity.
  - assert (Hrest : forall x st', child rest x -> visit x st' = (Replaced x, orb st' (h x)))
      by (intros x st' Hx; apply H; apply child_cons; exact Hx).
    destruct v; try (rewrite (IH Hrest); reflexivity).
    + rewrite (visit_items_st_id visit h).
      * rewrite (IH Hrest). rewrite orb_assoc. reflexivity.
      * intros x cls fs st' Hin Hx. apply H.
        eapply child_item; [left; reflexivity | exact Hin | exact Hx].
    + rewrite H by (eapply child_field; [left; reflexivity | reflexivity]).
      rewrite (IH Hrest). rewrite orb_assoc. reflexivity.
Qed.

(** Pass 3 below the root: it gives the node back and raises the flag on
    an import of the replacement module. *)
Lemma add_visit_no_module (cls : string) (fields : list (string * value)) :
  all_nodes (fun c f => negb (is_module c f)) (VNode cls fields) = true ->
  forall found,
    AddPQCImportTransformer.visit (VNode cls fields) found =
    (Replaced (VNode cls fields), orb found (has_pqc_import (VNode cls fields))).
Proof.
  revert cls fields.
  apply (node_induction (fun v =>
    all_nodes (fun c f => negb (is_module c f)) v = true ->
    forall found, AddPQCImportTransformer.visit v found =
                  (Replaced v, orb found (has_pqc_import v)))).
  intros cls fields IH H found. simpl in H.
  apply andb_true_iff in H. destruct H as [Hp Hf].
  unfold is_module in Hp. apply negb_true_iff in Hp.
  rewrite add_visit_node. cbn [has_pqc_import].
  destruct (String.eqb cls "ImportFrom") eqn:Ef.
  - destruct (attr_eq (VNode cls fields) "module" "pqc_helpers");
      [rewrite orb_true_r | rewrite orb_false_r]; reflexivity.
  - rewrite Hp.
    rewrite (generic_visit_st_id AddPQCImportTransformer.visit has_pqc_import);
      [reflexivity |].
    intros x st Hx. apply IH; [exact Hx |].
    eapply all_fields_child; eauto.
Qed.

(** Without an import of the replacement module the flag stays down. *)
Lemma visit_items_st_false (visit : value -> bool -> visited * bool) (items : list value) :
  (forall x cls fs, In x items -> x = VNode cls fs ->
     exists x', visit x false = (Replaced x', false)) ->
  exists items', visit_items_st visit items false = (items', false).
Proof.
  induction items as [| v rest IH]; intros H; simpl.
  - eexists; reflexivity.
  - destruct IH as [rest' Hr]; [intros; eapply H; [right |]; eauto |].
    destruct v; try (rewrite Hr; eexists; reflexivity).
    destruct (H (VNode cls fields) cls fields) as [x' Hx];
      [left; reflexivity | reflexivity |].
    rewrite Hx, Hr. eexists; reflexivity.
Qed.

Lemma generic_visit_st_false (visit : value -> bool -> visited * bool)
  (fields : list (string * value)) :
  (forall x, child fields x -> exists x', visit x false = (Replaced x', false)) ->
  exists fields', generic_visit_st visit fields false = (fields', false).
Proof.
  induction fields as [| [k v] rest IH]; intros H; simpl.
  - eexists; reflexivity.
  - destruct IH as [rest' Hr];
      [intros x Hx; apply H; apply child_cons; exact Hx |].
    destruct v; try (rewrite Hr; eexists; reflexivity).
    + destruct (visit_items_st_false visit items) as [items' Hi].
      * intros x cls fs Hin Hx. apply H.
        eapply child_item; [left; reflexivity | exact Hin | exact Hx].
      * rewrite Hi, Hr. eexists; reflexivity.
    + destruct (H (VNode cls fields)) as [x' Hx];
        [eapply child_field; [left; reflexivity | reflexivity] |].
      rewrite Hx, Hr. eexists; reflexivity.
Qed.

Lemma add_visit_no_pqc (cls : string) (fields : list (string * value)) :
  no_pqc_import (VNode cls fields) = true ->
  exists v', AddPQCImportTransformer.visit (VNode cls fields) false = (Replaced v', false).
Proof.
  revert cls fields.
  apply (node_induction (fun v =>
    no_pqc_import v = true ->
    exists v', AddPQCImportTransformer.visit v false = (Replaced v', false))).
  intros cls fields IH H. unfold no_pqc_import in H. simpl in H.
  apply andb_true_iff in H. destruct H as [Hp Hf].
  unfold pqc_import in Hp. apply negb_true_iff in Hp.
  rewrite add_visit_node.
  destruct (String.eqb cls "ImportFrom") eqn:Ef.
  - cbn [andb] in Hp. rewrite Hp. eexists; reflexivity.
  - destruct (generic_visit_st_false AddPQCImportTransformer.visit fields) as [fs' Hg].
    + intros x Hx. apply IH; [exact Hx |].
      eapply all_fields_child; eauto.
    + rewrite Hg. destruct (String.eqb cls "Module"); eexists; reflexivity.
Qed.

(** What a traversal preserves on every node it preserves on the fields. *)
Lemma all_items_app (q : value -> bool) (l r : list value) :
  all_items q (l ++ r) = andb (all_items q l) (all_items q r).
Proof. unfold all_items. apply forallb_app. Qed.

Lemma visit_items_all (q : value -> bool) (visit : value -> visited) (items : list value) :
  (forall x cls fs, In x items -> x = VNode cls fs -> q x = true ->
     all_value q (as_value (visit x)) = true) ->
  all_items q items = true -> all_items q (visit_items visit items) = true.
Proof.
  induction items as [| v rest IH]; intros H Hq; simpl; [reflexivity |].
  simpl in Hq. apply andb_true_iff in Hq. destruct Hq as [Hv Hr].
  assert (IH' : all_items q (visit_items visit rest) = true)
    by (apply IH; [intros; eapply H; [right; eassumption | eassumption | assumption]
                  | exact Hr]).
  destruct v; try (simpl; exact IH').
  specialize (H (VNode cls fields) cls fields (or_introl eq_refl) eq_refl Hv).
  destruct (visit (VNode cls fields)) as [| n | l]; simpl in H.
  - exact IH'.
  - change (all_items q (n :: visit_items visit rest))
      with (andb (match n with VNode _ _ => q n | _ => true end)
                 (all_items q (visit_items visit rest))).
    rewrite IH', andb_true_r. destruct n; auto.
  - rewrite all_items_app, H, IH'. reflexivity.
Qed.

Lemma generic_visit_all (q : value -> bool) (visit : value -> visited)
  (fields : list (string * value)) :
  (forall x, child fields x -> q x = true -> all_value q (as_value (visit x)) = true) ->
  all_fields q fields = true -> all_fields q (generic_visit visit fields) = true.
Proof.
  induction fields as [| [k v] rest IH]; intros H Hq; simpl; [reflexivity |].
  simpl in Hq. apply andb_true_iff in Hq. destruct Hq as [Hv Hr].
  assert (IH' : all_fields q (generic_visit visit rest) = true)
    by (apply IH; [intros x Hx; apply H; apply child_cons; exact Hx | exact Hr]).
  destruct v; try (simpl; rewrite IH'; reflexivity).
  - simpl. rewrite IH', andb_true_r. apply visit_items_all; [| exact Hv].
    intros x cls fs Hin Hx. apply H.
    eapply child_item; [left; reflexivity | exact Hin | exact Hx].
  - assert (Hc : child ((k, VNode cls fields) :: rest) (VNode cls fields))
      by (eapply child_field; [left; reflexivity | reflexivity]).
    specialize (H _ Hc Hv).
    destruct (visit (VNode cls fields)) as [| n | l]; simpl in H |- *.
    + exact IH'.
    + rewrite IH', andb_true_r. exact H.
    + rewrite IH', andb_true_r. exact H.
Qed.

Lemma all_fields_getattr (q : value -> bool) (fields : list (string * value))
  (name : string) (v : value) :
  all_fields q fields = true -> getattr fields name = Some v -> all_value q v = true.
Proof.
  induction fields as [| [k x] rest IH]; simpl; [discriminate |].
  intros H Hg. apply andb_true_iff in H. destruct H as [Hx Hr].
  destruct (String.eqb k name).
  - inversion Hg; subst. exact Hx.
  - apply IH; assumption.
Qed.

(** Passes 1 and 2 bring in no import of the replacement module. *)
Lemma remove_visit_no_pqc (cls : string) (fields : list (string * value)) :
  no_pqc_import (VNode cls fields) = true ->
  all_value no_pqc_import
    (as_value (RemoveRSAImportTransformer.visit (VNode cls fields))) = true.
Proof.
  revert cls fields.
  apply (node_induction (fun v =>
    no_pqc_import v = true ->
    all_value no_pqc_import (as_value (RemoveRSAImportTransformer.visit v)) = true)).
  intros cls fields IH H. rewrite remove_visit_node.
  destruct (String.eqb cls "Import") eqn:Ei.
  - unfold RemoveRSAImportTransformer.visit_Import.
    destruct (RemoveRSAImportTransformer.new_names fields); [reflexivity | exact H].
  - destruct (String.eqb cls "ImportFrom") eqn:Ef.
    + unfold RemoveRSAImportTransformer.visit_ImportFrom.
      destruct (attr_eq (VNode cls fields) "module" "rsa"); [reflexivity | exact H].
    + unfold no_pqc_import in *. simpl in H |- *.
      apply andb_true_iff in H. destruct H as [_ Hf].
      unfold pqc_import. rewrite Ef. cbn [andb negb].
      apply generic_visit_all; [| exact Hf].
      intros x Hx Hq. destruct Hx as [k c fs Hin Hx | k items c fs Hin Hi Hx];
        subst x; apply IH; try exact Hq.
      * eapply child_field; [exact Hin | reflexivity].
      * eapply child_item; [exact Hin | exact Hi | reflexivity].
Qed.

Lemma rsa2pqc_generic_attr_eq (cls : string) (fields : list (string * value))
  (name s : string) :
  attr_eq (VNode cls (generic_visit RSA2PQCTransformer.visit fields)) name s =
  attr_eq (VNode cls fields) name s.
Proof.
  unfold attr_eq.
  induction fields as [| [k v] rest IH]; [reflexivity |].
  destruct v as [| x | z | r | items | c fs];
    try (simpl; destruct (String.eqb k name); [reflexivity | exact IH]).
  cbn [generic_visit]. rewrite rsa2pqc_visit_node.
  destruct (String.eqb c "Call");
    [destruct (RSA2PQCTransformer.rsa_callee fs) as [[a b] |] |];
    simpl; (destruct (String.eqb k name); [reflexivity | exact IH]).
Qed.

Lemma rsa2pqc_visit_no_pqc (cls : string) (fields : list (string * value)) :
  no_pqc_import (VNode cls fields) = true ->
  all_value no_pqc_import
    (as_value (RSA2PQCTransformer.visit (VNode cls fields))) = true.
Proof.
  revert cls fields.
  apply (node_induction (fun v =>
    no_pqc_import v = true ->
    all_value no_pqc_import (as_value (RSA2PQCTransformer.visit v)) = true)).
  intros cls fields IH H. rewrite rsa2pqc_visit_node.
  assert (Hgen : all_value no_pqc_import
            (VNode cls (generic_visit RSA2PQCTransformer.visit fields)) = true).
  { unfold no_pqc_import in *. simpl in H |- *.
    apply andb_true_iff in H. destruct H as [Hp Hf].
    apply andb_true_iff. split.
    - unfold pqc_import in *. destruct (String.eqb cls "ImportFrom") eqn:Ef;
        [| reflexivity].
      cbn [andb] in *. rewrite rsa2pqc_generic_attr_eq. exact Hp.
    - apply generic_visit_all; [| exact Hf].
      intros x Hx Hq. destruct Hx as [k c fs Hin Hx | k items c fs Hin Hi Hx];
        subst x; apply IH; try exact Hq.
      + eapply child_field; [exact Hin | reflexivity].
      + eapply child_item; [exact Hin | exact Hi | reflexivity]. }
  destruct (String.eqb cls "Call") eqn:Ec; [| exact Hgen].
  destruct (RSA2PQCTransformer.rsa_callee fields) as [[fn nfn] |]; [| exact Hgen].
  unfold no_pqc_import in H. simpl in H.
  apply andb_true_iff in H. destruct H as [_ Hf].
  assert (Hfield : forall name,
            all_value no_pqc_import (RSA2PQCTransformer.field_or_none fields name) = true).
  { intros name. unfold RSA2PQCTransformer.field_or_none.
    destruct (getattr fields name) eqn:Hg; [| reflexivity].
    eapply all_fields_getattr; eauto. }
  cbn [as_value all_value all_items forallb].
  unfold no_pqc_import at 1 2. cbn.
  fold no_pqc_import.
  rewrite (Hfield "args"), (Hfield "keywords"). reflexivity.
Qed.

(** ** The engine on a module *)

Lemma transform_Module (body : list value) :
  transform (Module body) =
  let body2 := visit_items RSA2PQCTransformer.visit
                 (visit_items RemoveRSAImportTransformer.visit body) in
  let '(body3, found) := visit_items_st AddPQCImportTransformer.visit body2 false in
  if found then Module body3
  else Module (AddPQCImportTransformer.import_node :: body3).
Proof.
  unfold transform, Module, AddPQCImportTransformer.run.
  rewrite remove_visit_node.
  cbn [String.eqb Ascii.eqb Bool.eqb as_value generic_visit visit_items].
  rewrite rsa2pqc_visit_node.
  cbn [String.eqb Ascii.eqb Bool.eqb as_value generic_visit visit_items].
  rewrite add_visit_node.
  cbn [String.eqb Ascii.eqb Bool.eqb generic_visit_st visit_items_st].
  destruct (visit_items_st AddPQCImportTransformer.visit
              (visit_items RSA2PQCTransformer.visit
                 (visit_items RemoveRSAImportTransformer.visit body)) false)
    as [body3 found].
  destruct found; reflexivity.
Qed.

Lemma prefix_app (a b : string) : String.prefix a (a ++ b) = true.
Proof.
  induction a as [| c a IH]; simpl.
  - destruct b; reflexivity.
  - rewrite IH. destruct (ascii_dec c c); [reflexivity | contradiction].
Qed.

Lemma append_assoc (a b c : string) : ((a ++ b) ++ c = a ++ (b ++ c))%string.
Proof. induction a; simpl; congruence. Qed.

Lemma append_nil_r (s : string) : s ++ "" = s.
Proof. induction s as [| c r IH]; cbn [append]; [reflexivity | rewrite IH; reflexivity]. Qed.

(** The printer puts the inserted import first. *)
Lemma unparse_import_first (other : nat -> value -> exc string)
  (body : list value) (s : string) :
  Astunparse.unparse other (Module (AddPQCImportTransformer.import_node :: body)) = Return s ->
  String.prefix import_line s = true.
Proof.
  unfold Astunparse.unparse, Module.
  cbn [Astunparse.dispatch String.eqb Ascii.eqb Bool.eqb Astunparse.with_attr
       Astunparse.as_list Astunparse.each bind].
  replace (Astunparse.dispatch other 0 AddPQCImportTransformer.import_node)
    with (@Return string import_line) by reflexivity.
  cbn [bind].
  destruct (Astunparse.each (Astunparse.dispatch other 0) body) as [s2 | e];
    cbn [bind]; [| discriminate].
  intros H.
  assert (Hs : s = ((import_line ++ s2) ++ nl)%string) by congruence.
  rewrite Hs, append_assoc. apply prefix_app.
Qed.

Lemma none_of_in (p : string -> list (string * value) -> bool)
  (ps : list (string -> list (string * value) -> bool))
  (cls : string) (fields : list (string * value)) :
  In p ps -> none_of ps cls fields = true -> negb (p cls fields) = true.
Proof.
  unfold none_of. rewrite forallb_forall. intros Hin H. exact (H p Hin).
Qed.

Lemma all_items_none_of (p : string -> list (string * value) -> bool)
  (ps : list (string -> list (string * value) -> bool)) (items : list value) :
  In p ps ->
  all_items (all_nodes (none_of ps)) items = true ->
  all_items (all_nodes (fun c f => negb (p c f))) items = true.
Proof.
  intros Hin. apply all_items_weaken. intros cls fields. apply none_of_in. exact Hin.
Qed.

(** The three passes on statements in which they find nothing to do. *)
Lemma remove_items_settled (items : list value) :
  all_items (all_nodes (fun c f => negb (removable c f))) items = true ->
  visit_items RemoveRSAImportTransformer.visit items = items.
Proof.
  intros H. apply visit_items_id. intros x cls fs Hin Hx. subst x.
  apply remove_visit_settled. eapply all_items_child; eauto.
Qed.

Lemma rsa2pqc_items_settled (items : list value) :
  all_items (all_nodes (fun c f => negb (rewritable c f))) items = true ->
  visit_items RSA2PQCTransformer.visit items = items.
Proof.
  intros H. apply visit_items_id. intros x cls fs Hin Hx. subst x.
  apply rsa2pqc_visit_settled. eapply all_items_child; eauto.
Qed.

Lemma add_items_no_module (items : list value) (found : bool) :
  all_items (all_nodes (fun c f => negb (is_module c f))) items = true ->
  visit_items_st AddPQCImportTransformer.visit items found =
  (items, orb found (any_items has_pqc_import items)).
Proof.
  intros H. apply visit_items_st_id. intros x cls fs st Hin Hx. subst x.
  apply add_visit_no_module. eapply all_items_child; eauto.
Qed.

Lemma settled_passes (body : list value) :
  settled body = true ->
  visit_items RemoveRSAImportTransformer.visit body = body /\
  visit_items RSA2PQCTransformer.visit body = body /\
  forall found,
    visit_items_st AddPQCImportTransformer.visit body found =
    (body, orb found (any_items has_pqc_import body)).
Proof.
  unfold settled. intros H. repeat split.
  - apply remove_items_settled.
    eapply all_items_none_of; [| exact H]. simpl; auto.
  - apply rsa2pqc_items_settled.
    eapply all_items_none_of; [| exact H]. simpl; auto.
  - intros found. apply add_items_no_module.
    eapply all_items_none_of; [| exact H]. simpl; auto.
Qed.

Lemma no_pqc_has_pqc (cls : string) (fields : list (string * value)) :
  no_pqc_import (VNode cls fields) = true -> has_pqc_import (VNode cls fields) = false.
Proof.
  revert cls fields.
  apply (node_induction (fun v => no_pqc_import v = true -> has_pqc_import v = false)).
  intros cls fields IH H. unfold no_pqc_import in H. simpl in H.
  apply andb_true_iff in H. destruct H as [Hp Hf].
  unfold pqc_import in Hp. apply negb_true_iff in Hp.
  cbn [has_pqc_import]. destruct (String.eqb cls "ImportFrom") eqn:Ef.
  - exact Hp.
  - unfold any_fields. apply not_true_is_false. intros Hex.
    apply existsb_exists in Hex. destruct Hex as [[k v] [Hin Hv]].
    cbn [snd] in Hv. destruct v; cbn [any_value] in Hv; try discriminate.
    + unfold any_items in Hv. apply existsb_exists in Hv.
      destruct Hv as [y [Hy Hq]]. destruct y; try discriminate.
      assert (Hc : child fields (VNode cls0 fields0))
        by (eapply child_item; [exact Hin | exact Hy | reflexivity]).
      rewrite IH in Hq; [discriminate | exact Hc |].
      eapply all_fields_child; eauto.
    + assert (Hc : child fields (VNode cls0 fields0))
        by (eapply child_field; [exact Hin | reflexivity]).
      rewrite IH in Hv; [discriminate | exact Hc |].
      eapply all_fields_child; eauto.
Qed.

Lemma no_pqc_items_passes (body : list value) :
  all_items no_pqc_import body = true ->
  exists body3,
    visit_items_st AddPQCImportTransformer.visit
      (visit_items RSA2PQCTransformer.visit
         (visit_items RemoveRSAImportTransformer.visit body)) false = (body3, false).
Proof.
  intros H.
  assert (H1 : all_items no_pqc_import
                 (visit_items RemoveRSAImportTransformer.visit body) = true).
  { apply visit_items_all; [| exact H].
    intros x cls fs _ Hx Hq. subst x. apply remove_visit_no_pqc. exact Hq. }
  assert (H2 : all_items no_pqc_import
                 (visit_items RSA2PQCTransformer.visit
                    (visit_items RemoveRSAImportTransformer.visit body)) = true).
  { apply visit_items_all; [| exact H1].
    intros x cls fs _ Hx Hq. subst x. apply rsa2pqc_visit_no_pqc. exact Hq. }
  apply visit_items_st_false. intros x cls fs Hin Hx. subst x.
  apply add_visit_no_pqc. eapply all_items_child; eauto.
Qed.

Lemma no_pqc_any_items (items : list value) :
  all_items no_pqc_import items = true -> any_items has_pqc_import items = false.
Proof.
  intros H. unfold any_items. apply not_true_is_false. intros Hex.
  apply existsb_exists in Hex. destruct Hex as [y [Hy Hq]].
  destruct y; try discriminate.
  rewrite no_pqc_has_pqc in Hq; [discriminate |].
  eapply all_items_child; eauto.
Qed.

Lemma refactor_code_ast_parsed (parse_body : string -> exc (list value))
  (other : nat -> value -> exc string) (code : string) (body : list value) :
  parse_body code = Return body ->
  refactor_code_ast parse_body other code =
  match Astunparse.unparse other (transform (Module body)) with
  | Return s => s
  | Raise e => error_marker e code
  end.
Proof.
  intros H. unfold refactor_code_ast, ast_parse. rewrite H. reflexivity.
Qed.

(** C10 (amended): the import-insertion pass fires on every parsable
    source that has no [from pqc_helpers import ...]: whatever else the
    file holds, the tree handed to the printer starts with the import of
    the five replacement names, and on a file with nothing to migrate the
    rest of the tree is the input, so the passes are not a no-op on
    RSA-free files.  The text [refactor_code_ast] returns starts with that
    import line when the printer prints the tree; when the printer raises
    on it, the text is the error marker followed by the source as it was,
    without the import. *)
Theorem import_inserted_on_every_parsable_input
  (parse_body : string -> exc (list value)) (other : nat -> value -> exc string)
  (code : string) (body : list value) :
  parse_body code = Return body ->
  all_items no_pqc_import body = true ->
  (exists body',
      transform (Module body) = Module (AddPQCImportTransformer.import_node :: body')
      /\ (settled body = true -> body' = body))
  /\ transform (Module body) <> Module body
  /\ (forall s,
        Astunparse.unparse other (transform (Module body)) = Return s ->
        refactor_code_ast parse_body other code = s
        /\ String.prefix import_line s = true)
  /\ (forall e,
        Astunparse.unparse other (transform (Module body)) = Raise e ->
        refactor_code_ast parse_body other code = error_marker e code).
Proof.
  intros Hparse Hno.
  destruct (no_pqc_items_passes body Hno) as [body3 H3].
  assert (Ht : transform (Module body)
               = Module (AddPQCImportTransformer.import_node :: body3)).
  { rewrite transform_Module. cbv zeta. rewrite H3. reflexivity. }
  split; [| split; [| split]].
  - exists body3. split; [exact Ht |].
    intros Hs. destruct (settled_passes body Hs) as [E1 [E2 E3]].
    rewrite E1, E2, E3 in H3. inversion H3. reflexivity.
  - rewrite Ht. intros Heq. unfold Module in Heq.
    assert (Hb : body = AddPQCImportTransformer.import_node :: body3) by congruence.
    rewrite Hb in Hno. discriminate Hno.
  - intros s Hs. split.
    + rewrite (refactor_code_ast_parsed _ _ _ _ Hparse), Hs. reflexivity.
    + rewrite Ht in Hs. eapply unparse_import_first; eauto.
  - intros e He.
    rewrite (refactor_code_ast_parsed _ _ _ _ Hparse), He. reflexivity.
Qed.

Lemma import_inserted_on_every_parsable_input_witness :
  exists body,
    PyParse.parse_body plain_file = Return body
    /\ all_items no_pqc_import body = true
    /\ transform (Module body) <> Module body
    /\ String.prefix import_line (run_engine plain_file) = true.
Proof.
  eexists. split; [vm_compute; reflexivity |]. split; [vm_compute; reflexivity |].
  split.
  - eapply (import_inserted_on_every_parsable_input PyParse.parse_body PyParse.no_other
              plain_file); vm_compute; reflexivity.
  - eapply (import_inserted_on_every_parsable_input PyParse.parse_body PyParse.no_other
              plain_file); vm_compute; reflexivity.
Defined.

(** The claim as first stated, on a file that parses and has no import
    from [pqc_helpers]: the printer has no method for the [match]
    statement, so the text returned is the marked source, in which no
    import was inserted. *)
Lemma import_insertion_counterexample :
  parse_also match_file match_body match_file = Return match_body
  /\ all_items no_pqc_import match_body = true
  /\ refactor_code_ast (parse_also match_file match_body) missing_method match_file
     = error_marker "'Unparser' object has no attribute '_Match'" match_file
  /\ String.prefix import_line
       (refactor_code_ast (parse_also match_file match_body) missing_method match_file)
     = false
  /\ PyStr.contains "pqc_helpers"
       (refactor_code_ast (parse_also match_file match_body) missing_method match_file)
     = false.
Proof. repeat split; vm_compute; reflexivity. Qed.




(** ** Scenario 1

    Traversals, piece by piece. *)

Lemma visit_items_app (visit : value -> visited) (l r : list value) :
  visit_items visit (l ++ r) = (visit_items visit l ++ visit_items visit r)%list.
Proof.
  induction l as [| v l IH]; [reflexivity |].
  cbn [visit_items app]. fold (visit_items visit). rewrite IH.
  destruct v; try reflexivity.
  destruct (visit (VNode cls fields)); try reflexivity.
  rewrite app_assoc. reflexivity.
Qed.

Lemma generic_visit_app (visit : value -> visited) (l r : list (string * value)) :
  generic_visit visit (l ++ r) = (generic_visit visit l ++ generic_visit visit r)%list.
Proof.
  induction l as [| [k v] l IH]; [reflexivity |].
  cbn [generic_visit app]. fold (generic_visit visit). rewrite IH.
  destruct v; try reflexivity.
  destruct (visit (VNode cls fields)); reflexivity.
Qed.

Lemma all_fields_app (q : value -> bool) (l r : list (string * value)) :
  all_fields q (l ++ r) = andb (all_fields q l) (all_fields q r).
Proof. unfold all_fields. apply forallb_app. Qed.



















(** ** Occurrences *)









(** ** The passes on a file of scenario 1 *)




















Lemma forallb_impl_bool {A : Type} (p q : A -> bool) (l : list A) :
  (forall x, p x = true -> q x = true) -> forallb p l = true -> forallb q l = true.
Proof.
  intros H. rewrite !forallb_forall. intros Hp x Hin. apply H, Hp, Hin.
Qed.

Lemma filter_nonempty {A : Type} (p : A -> bool) (l : list A) :
  existsb p l = true -> filter p l <> [].
Proof.
  induction l as [| x l IH]; cbn [existsb filter]; [discriminate |].
  destruct (p x); [discriminate | exact IH].
Qed.

Lemma filter_none {A : Type} (p : A -> bool) (l : list A) :
  forallb (fun x => negb (p x)) l = true -> filter p l = [].
Proof.
  induction l as [| x l IH]; cbn [forallb filter]; [reflexivity |].
  destruct (p x); [discriminate | exact IH].
Qed.

(** C3 (the code where it departs from the claim): an [import] statement
    that binds [rsa] together with any other name is given back as it is,
    the [rsa] binding included (the engine prints [import rsa, os] for
    [import rsa, os]); an [import] whose every binding is [rsa] and every
    [from rsa import ...] are deleted. *)
Theorem mixed_import_keeps_rsa_binding :
  (forall names,
      existsb (fun n => negb (attr_eq n "name" "rsa")) names = true ->
      RemoveRSAImportTransformer.visit (PyParse.Import names)
      = Replaced (PyParse.Import names))
  /\ run_engine mixed_import_file = import_line ++ nl ++ "import rsa, os" ++ nl
  /\ (forall names,
        forallb (fun n => attr_eq n "name" "rsa") names = true ->
        RemoveRSAImportTransformer.visit (PyParse.Import names) = Removed)
  /\ (forall names level,
        RemoveRSAImportTransformer.visit (ImportFrom "rsa" names level) = Removed).
Proof.
  split; [| split; [| split]].
  - intros names H. unfold PyParse.Import. rewrite remove_visit_node.
    cbn [String.eqb Ascii.eqb Bool.eqb].
    unfold RemoveRSAImportTransformer.visit_Import, RemoveRSAImportTransformer.new_names.
    cbn [getattr String.eqb Ascii.eqb Bool.eqb].
    pose proof (filter_nonempty _ names H) as Hne.
    destruct (filter (fun n => negb (attr_eq n "name" "rsa")) names);
      [contradiction | reflexivity].
  - reflexivity.
  - intros names H. unfold PyParse.Import. rewrite remove_visit_node.
    cbn [String.eqb Ascii.eqb Bool.eqb].
    unfold RemoveRSAImportTransformer.visit_Import, RemoveRSAImportTransformer.new_names.
    cbn [getattr String.eqb Ascii.eqb Bool.eqb].
    rewrite filter_none; [reflexivity |].
    eapply forallb_impl_bool; [| exact H].
    intros x Hx. rewrite Hx. reflexivity.
  - reflexivity.
Qed.

Lemma mixed_import_keeps_rsa_binding_witness :
  RemoveRSAImportTransformer.visit (PyParse.Import [alias "rsa"; alias "os"])
  = Replaced (PyParse.Import [alias "rsa"; alias "os"])
  /\ RemoveRSAImportTransformer.visit (PyParse.Import [alias "rsa"]) = Removed.
Proof.
  split.
  - apply (proj1 mixed_import_keeps_rsa_binding). reflexivity.
  - apply (proj1 (proj2 (proj2 mixed_import_keeps_rsa_binding))). reflexivity.
Defined.

(** ** The refactor loop *)

Section LoopFacts.

Variable parse_body : string -> exc (list value).
Variable unparse_other : nat -> value -> exc string.

(** One turn of the loop outside dry-run: its events, and the disk after
    it. *)
Lemma refactor_step_spec (w : World) (p : string) (vs : list Finding) :
  trace (refactor_step parse_body unparse_other false w (p, vs))
  = (trace w ++ step_events parse_body unparse_other (disk w) p)%list
  /\ write_error (disk (refactor_step parse_body unparse_other false w (p, vs)))
     = write_error (disk w)
  /\ (forall q, q <> p ->
        read (disk (refactor_step parse_body unparse_other false w (p, vs))) q
        = read (disk w) q)
  /\ read (disk (refactor_step parse_body unparse_other false w (p, vs))) p
     = match read (disk w) p with
       | Raise e => Raise e
       | Return original =>
           match write_error (disk w) p with
           | Some _ => Return original
           | None => Return (refactor_code_ast parse_body unparse_other original)
           end
       end.
Proof.
  unfold refactor_step, refactor_file, step_events,
    read_file, write_file, emit.
  cbn [disk trace py_bool].
  destruct (read (disk w) p) as [original | e] eqn:Er; cbn [disk trace].
  - destruct (write_error (disk w) p) as [e |] eqn:Ew; cbn [disk trace].
    + rewrite Er. rewrite <- app_assoc. repeat split; auto.
    + cbn [write_error read]. rewrite Ew. cbn [disk trace write_error read].
      repeat split.
      * rewrite <- !app_assoc. reflexivity.
      * intros q Hq. apply String.eqb_neq in Hq. rewrite Hq. reflexivity.
      * rewrite String.eqb_refl. reflexivity.
  - rewrite Er. rewrite <- app_assoc. repeat split; auto.
Qed.

Lemma step_events_ext (fs fs' : FileSystem) (p : string) :
  read fs p = read fs' p -> write_error fs p = write_error fs' p ->
  step_events parse_body unparse_other fs p
  = step_events parse_body unparse_other fs' p.
Proof.
  intros Hr Hw. unfold step_events. rewrite Hr, Hw. reflexivity.
Qed.

Lemma refactor_loop_cons (dry : bool) (entry : string * list Finding)
  (rest : list (string * list Finding)) (w : World) :
  refactor_loop parse_body unparse_other dry (entry :: rest) w
  = refactor_loop parse_body unparse_other dry rest
      (refactor_step parse_body unparse_other dry w entry).
Proof. reflexivity. Qed.

Lemma refactor_loop_spec (files : list (string * list Finding)) :
  NoDup (map fst files) ->
  forall w,
    let w' := refactor_loop parse_body unparse_other false files w in
    trace w'
    = (trace w ++ flat_map (step_events parse_body unparse_other (disk w))
                           (map fst files))%list
    /\ write_error (disk w') = write_error (disk w)
    /\ (forall q,
          read (disk w') q
          = rewritten parse_body unparse_other (disk w) (map fst files) q).
Proof.
  induction files as [| [p vs] rest IH]; intros Hnd w.
  - cbn. rewrite app_nil_r. auto.
  - cbn [map fst] in Hnd. inversion Hnd as [| x l Hnotin Hnd' ]; subst.
    rewrite refactor_loop_cons. cbn [map fst flat_map].
    destruct (refactor_step_spec w p vs) as (Ht & Hw & Hother & Hself).
    specialize (IH Hnd' (refactor_step parse_body unparse_other false w (p, vs))).
    cbv zeta in IH |- *.
    destruct IH as (IHt & IHw & IHr).
    assert (Hsame : forall q, In q (map fst rest) ->
              step_events parse_body unparse_other
                (disk (refactor_step parse_body unparse_other false w (p, vs))) q
              = step_events parse_body unparse_other (disk w) q).
    { intros q Hq. apply step_events_ext.
      - apply Hother. intros ->. contradiction.
      - rewrite Hw. reflexivity. }
    split; [| split].
    + rewrite IHt, Ht. rewrite <- app_assoc. f_equal. f_equal.
      clear -Hsame. induction (map fst rest) as [| q l IHl]; [reflexivity |].
      cbn [flat_map]. rewrite Hsame by (left; reflexivity).
      rewrite IHl by (intros; apply Hsame; right; assumption). reflexivity.
    + rewrite IHw, Hw. reflexivity.
    + intros q. rewrite IHr. unfold rewritten. cbn [existsb].
      destruct (String.eqb q p) eqn:Eq.
      * apply String.eqb_eq in Eq. subst q. cbn [orb].
        assert (Hex : existsb (String.eqb p) (map fst rest) = false).
        { apply not_true_is_false. intros Hex. apply existsb_exists in Hex.
          destruct Hex as [x [Hx Hpx]]. apply String.eqb_eq in Hpx. subst x.
          contradiction. }
        rewrite Hex. exact Hself.
      * cbn [orb]. apply String.eqb_neq in Eq.
        rewrite (Hother q Eq), Hw. reflexivity.
Qed.

End LoopFacts.

(** The grouping of the findings by file has each path once. *)
Lemma setdefault_append_keys (d : list (string * list Finding)) (k : string) (f : Finding) :
  forall x, In x (map fst (setdefault_append d k f)) <-> In x (map fst d) \/ x = k.
Proof.
  induction d as [| [k' l] rest IH]; intros x; cbn [setdefault_append].
  - cbn. intuition.
  - destruct (String.eqb k' k) eqn:E.
    + apply String.eqb_eq in E. subst k'. cbn. intuition.
    + cbn [map fst In]. rewrite IH. intuition.
Qed.

Lemma setdefault_append_NoDup (d : list (string * list Finding)) (k : string) (f : Finding) :
  NoDup (map fst d) -> NoDup (map fst (setdefault_append d k f)).
Proof.
  induction d as [| [k' l] rest IH]; intros Hnd; cbn [setdefault_append].
  - cbn. constructor; [intros [] | constructor].
  - cbn [map fst] in Hnd. inversion Hnd as [| x l' Hnotin Hnd']; subst.
    destruct (String.eqb k' k) eqn:E.
    + cbn [map fst]. constructor; assumption.
    + cbn [map fst]. constructor.
      * rewrite setdefault_append_keys. intros [Hin | Heq]; [contradiction |].
        subst k'. rewrite String.eqb_refl in E. discriminate.
      * apply IH. exact Hnd'.
Qed.

Lemma group_by_file_NoDup (findings : list Finding) :
  NoDup (map fst (group_by_file findings)).
Proof.
  unfold group_by_file.
  assert (H : forall d, NoDup (map fst d) ->
            NoDup (map fst (fold_left
              (fun d finding => setdefault_append d (real_path finding) finding)
              findings d))).
  { induction findings as [| f rest IH]; intros d Hd; cbn [fold_left]; [exact Hd |].
    apply IH. apply setdefault_append_NoDup. exact Hd. }
  apply H. constructor.
Qed.

Lemma step_events_errors (parse_body : string -> exc (list value))
  (other : nat -> value -> exc string) (fs : FileSystem) (p : string) :
  List.length (filter is_error_echo (step_events parse_body other fs p))
  = if fails fs p then 1%nat else 0%nat.
Proof.
  unfold step_events, fails.
  destruct (read fs p) as [original | e].
  - destruct (write_error fs p) as [e |].
    + cbn [filter is_error_echo]. rewrite prefix_app. reflexivity.
    + reflexivity.
  - cbn [filter is_error_echo]. rewrite prefix_app. reflexivity.
Qed.

Lemma In_existsb_eqb (q : string) (keys : list string) :
  In q keys -> existsb (String.eqb q) keys = true.
Proof.
  intros H. apply existsb_exists. exists q. split; [exact H | apply String.eqb_refl].
Qed.

(** C2 (amended): the refactor loop of [migrate] goes through every file
    of the grouping, in order, whatever happens to the others; a file on
    which [refactor_file] raises (it cannot be read, or cannot be opened
    for writing) keeps its content and gets exactly one "Error
    refactoring" line; a file that can be read and written ends holding
    the engine's output and gets no error line.  (Source that does not
    parse does not raise: the engine's output for it is the error-marked
    text.) *)
Theorem refactor_loop_isolates_raising_files
  (parse_body : string -> exc (list value)) (other : nat -> value -> exc string)
  (findings : list Finding) (w : World) :
  trace (refactor_loop parse_body other false (group_by_file findings) w)
  = (trace w ++ flat_map (step_events parse_body other (disk w))
                         (map fst (group_by_file findings)))%list
  /\ (forall p,
        In p (map fst (group_by_file findings)) -> fails (disk w) p = true ->
        read (disk (refactor_loop parse_body other false (group_by_file findings) w)) p
        = read (disk w) p
        /\ List.length (filter is_error_echo
                          (step_events parse_body other (disk w) p)) = 1%nat)
  /\ (forall q original,
        In q (map fst (group_by_file findings)) ->
        read (disk w) q = Return original -> write_error (disk w) q = None ->
        read (disk (refactor_loop parse_body other false (group_by_file findings) w)) q
        = Return (refactor_code_ast parse_body other original)
        /\ filter is_error_echo (step_events parse_body other (disk w) q) = []).
Proof.
  set (keys := map fst (group_by_file findings)).
  set (w' := refactor_loop parse_body other false (group_by_file findings) w).
  destruct (refactor_loop_spec parse_body other (group_by_file findings)
              (group_by_file_NoDup findings) w) as (Ht & Hw & Hr).
  fold w' in Ht, Hw, Hr. fold keys in Ht, Hr.
  split; [exact Ht |]. split.
  - intros p Hin Hf. split.
    + rewrite Hr. unfold rewritten. rewrite (In_existsb_eqb p keys Hin).
      unfold fails in Hf. destruct (read (disk w) p); [| reflexivity].
      destruct (write_error (disk w) p); [reflexivity | discriminate].
    + rewrite step_events_errors, Hf. reflexivity.
  - intros q original Hin Hread Hwr. split.
    + rewrite Hr. unfold rewritten. rewrite (In_existsb_eqb q keys Hin), Hread, Hwr.
      reflexivity.
    + unfold step_events. rewrite Hread, Hwr. reflexivity.
Qed.

Lemma refactor_loop_isolates_raising_files_witness :
  let findings := [finding_at "a.py"; finding_at "gone.py"; finding_at "c.py"] in
  let w' := refactor_loop PyParse.parse_body PyParse.no_other false
              (group_by_file findings) three_files in
  In "gone.py" (map fst (group_by_file findings))
  /\ fails (disk three_files) "gone.py" = true
  /\ read (disk w') "gone.py" = read (disk three_files) "gone.py"
  /\ read (disk w') "c.py" = Return (run_engine c_py).
Proof.
  intros findings w'.
  destruct (refactor_loop_isolates_raising_files PyParse.parse_body PyParse.no_other
              findings three_files) as (_ & Hfail & Hok).
  assert (Hgone : In "gone.py" (map fst (group_by_file findings)))
    by (vm_compute; auto).
  assert (Hc : In "c.py" (map fst (group_by_file findings)))
    by (vm_compute; auto).
  split; [exact Hgone |]. split; [reflexivity |]. split.
  - apply (Hfail "gone.py" Hgone). reflexivity.
  - apply (Hok "c.py" c_py Hc); reflexivity.
Defined.

(** The spec's three files, [b.py] failing to parse: after the run [b.py]
    no longer holds its original content, it is reported as updated, and
    no error is reported at all. *)
Lemma partial_failure_counterexample :
  let w' := sample_migrate run_declining_reissue three_files in
  PyParse.parse_body b_py = Raise PyParse.syntax_error
  /\ read (disk three_files) "b.py" = Return b_py
  /\ read (disk w') "b.py" = Return (error_marker PyParse.syntax_error b_py)
  /\ read (disk w') "b.py" <> read (disk three_files) "b.py"
  /\ existsb (is_updated_echo "b.py") (trace w') = true
  /\ filter is_error_echo (trace w') = [].
Proof.
  cbv zeta. split; [vm_compute; reflexivity |]. split; [reflexivity |].
  split; [vm_compute; reflexivity |]. split.
  - intros H. vm_compute in H. discriminate H.
  - split; vm_compute; reflexivity.
Qed.

(** C8 (amended): when the parse or the printing of the transformed tree
    raises [e], [refactor_code_ast] raises nothing and returns the original
    text behind the marker line; its callers do not look for the marker:
    outside dry-run the marked text is written to the file and the file is
    reported as updated. *)
Theorem failed_transformation_is_marked_and_written
  (parse_body : string -> exc (list value)) (other : nat -> value -> exc string)
  (code e : string) :
  (tree <- ast_parse parse_body code ;; Astunparse.unparse other (transform tree)) = Raise e ->
  refactor_code_ast parse_body other code
  = "# [Error]: AST transformation failed due to " ++ e ++ nl ++ code
  /\ (forall p vs w,
        read (disk w) p = Return code -> write_error (disk w) p = None ->
        read (disk (refactor_step parse_body other false w (p, vs))) p
        = Return (error_marker e code)
        /\ trace (refactor_step parse_body other false w (p, vs))
           = (trace w ++ [ Echo ("Refactoring " ++ p ++ " (dry-run=False) ...");
                           Written p (error_marker e code);
                           Written p (error_marker e code);
                           Echo ("Updated " ++ p) ])%list).
Proof.
  intros Hraise.
  assert (Heng : refactor_code_ast parse_body other code = error_marker e code).
  { unfold refactor_code_ast. rewrite Hraise. reflexivity. }
  split; [exact Heng |].
  intros p vs w Hread Hwr.
  destruct (refactor_step_spec parse_body other w p vs) as (Ht & _ & _ & Hself).
  split.
  - rewrite Hself, Hread, Hwr, Heng. reflexivity.
  - rewrite Ht. unfold step_events. rewrite Hread, Hwr, Heng. reflexivity.
Qed.

Lemma failed_transformation_is_marked_and_written_witness :
  run_engine b_py = "# [Error]: AST transformation failed due to "
                      ++ PyParse.syntax_error ++ nl ++ b_py
  /\ read (disk (refactor_step PyParse.parse_body PyParse.no_other false
                   one_broken_file ("broken.py", [])))
          "broken.py"
     = Return (error_marker PyParse.syntax_error b_py).
Proof.
  split.
  - apply (failed_transformation_is_marked_and_written PyParse.parse_body
             PyParse.no_other b_py PyParse.syntax_error).
    vm_compute. reflexivity.
  - apply (failed_transformation_is_marked_and_written PyParse.parse_body
             PyParse.no_other b_py PyParse.syntax_error);
      vm_compute; reflexivity.
Defined.

(** A file that does not parse, run through [migrate]: the marked text
    replaces the file, the file is reported as updated, no error is
    reported and the final report is produced. *)
Lemma marked_result_counterexample :
  let w' := sample_migrate run_on_broken_file one_broken_file in
  PyParse.parse_body b_py = Raise PyParse.syntax_error
  /\ read (disk w') "broken.py" = Return (error_marker PyParse.syntax_error b_py)
  /\ existsb (is_updated_echo "broken.py") (trace w') = true
  /\ filter is_error_echo (trace w') = []
  /\ existsb is_final_report (trace w') = true.
Proof.
  cbv zeta. repeat split; vm_compute; reflexivity.
Qed.

(** ** Runs of [migrate] *)

Section Evolution.

Variable allowed : event -> bool.
Variable keep : string -> bool.

Lemma evolves_refl (w : World) : evolves allowed keep w w.
Proof.
  repeat split; auto. exists []. rewrite app_nil_r. auto.
Qed.

Lemma evolves_trans (w1 w2 w3 : World) :
  evolves allowed keep w1 w2 -> evolves allowed keep w2 w3 -> evolves allowed keep w1 w3.
Proof.
  intros (Hw1 & Hr1 & es1 & Ht1 & Ha1) (Hw2 & Hr2 & es2 & Ht2 & Ha2).
  split; [congruence |]. split.
  - intros p Hp. rewrite Hr2, Hr1; auto.
  - exists (es1 ++ es2)%list. split.
    + rewrite Ht2, Ht1, app_assoc. reflexivity.
    + rewrite forallb_app, Ha1, Ha2. reflexivity.
Qed.

Lemma evolves_emit (w w0 : World) (e : event) :
  evolves allowed keep w w0 -> allowed e = true -> evolves allowed keep w (emit e w0).
Proof.
  intros H He. eapply evolves_trans; [exact H |].
  repeat split; auto. exists [e]. cbn. rewrite He. auto.
Qed.

Lemma evolves_emit_all (w w0 : World) (es : list event) :
  evolves allowed keep w w0 -> forallb allowed es = true ->
  evolves allowed keep w (emit_all es w0).
Proof.
  intros H He. eapply evolves_trans; [exact H |].
  repeat split; auto. exists es. auto.
Qed.

(** A write, when the event is allowed and the path is not one to keep. *)
Lemma evolves_write (w w0 : World) (p text : string) :
  evolves allowed keep w w0 ->
  allowed (Written p text) = true -> keep p = false ->
  evolves allowed keep w (fst (write_file p text w0)).
Proof.
  intros H Ha Hk. eapply evolves_trans; [exact H |].
  unfold write_file. destruct (write_error (disk w0) p); [apply evolves_refl |].
  cbn [fst]. repeat split; cbn [disk trace read write_error]; auto.
  - intros q Hq. destruct (String.eqb q p) eqn:E; [| reflexivity].
    apply String.eqb_eq in E. subst q. congruence.
  - exists [Written p text]. cbn. rewrite Ha. auto.
Qed.

End Evolution.

Lemma evolves_weaken (allowed allowed' : event -> bool) (keep keep' : string -> bool)
  (w w' : World) :
  (forall e, allowed e = true -> allowed' e = true) ->
  (forall p, keep' p = true -> keep p = true) ->
  evolves allowed keep w w' -> evolves allowed' keep' w w'.
Proof.
  intros Ha Hk (Hw & Hr & es & Ht & He).
  split; [exact Hw |]. split; [intros p Hp; apply Hr, Hk, Hp |].
  exists es. split; [exact Ht |].
  rewrite forallb_forall in *. intros e Hin. apply Ha, He, Hin.
Qed.

Section MigrateFacts.

Variable parse_body : string -> exc (list value).
Variable unparse_other : nat -> value -> exc string.
Variable normpath : string -> string.
Variable run_semgrep : list string -> string -> option (list SemgrepResult).
Variable json_dumps : list Finding -> string.
Variable keygen : exc (string * string).

(** In dry-run a turn of the loop talks to the console and leaves the
    disk alone. *)
Lemma refactor_step_dry (w : World) (entry : string * list Finding) :
  evolves console (fun _ => true) w (refactor_step parse_body unparse_other true w entry)
  /\ disk (refactor_step parse_body unparse_other true w entry) = disk w.
Proof.
  destruct entry as [p vs].
  unfold refactor_step, refactor_file, read_file. cbn [disk emit].
  destruct (read (disk w) p) as [original | e]; split; try reflexivity.
  - do 3 (apply evolves_emit; [| reflexivity]). apply evolves_refl.
  - do 2 (apply evolves_emit; [| reflexivity]). apply evolves_refl.
Qed.

Lemma refactor_loop_dry (files : list (string * list Finding)) (w : World) :
  evolves console (fun _ => true) w (refactor_loop parse_body unparse_other true files w)
  /\ disk (refactor_loop parse_body unparse_other true files w) = disk w.
Proof.
  revert w. induction files as [| entry rest IH]; intros w.
  - split; [apply evolves_refl | reflexivity].
  - rewrite refactor_loop_cons.
    destruct (refactor_step_dry w entry) as [H1 D1].
    destruct (IH (refactor_step parse_body unparse_other true w entry)) as [H2 D2].
    split; [eapply evolves_trans; eauto | congruence].
Qed.

(** Whatever the mode, a turn of the loop only talks to the console and
    writes files. *)
Lemma refactor_step_any (dry : bool) (w : World) (entry : string * list Finding) :
  evolves console_or_write (fun _ => false) w
    (refactor_step parse_body unparse_other dry w entry).
Proof.
  destruct dry.
  - eapply evolves_weaken; [| | apply (proj1 (refactor_step_dry w entry))].
    + intros [] H; try discriminate; reflexivity.
    + discriminate.
  - destruct entry as [p vs].
    destruct (refactor_step_spec parse_body unparse_other w p vs) as (Ht & Hw & _ & _).
    split; [exact Hw |]. split; [discriminate |].
    eexists. split; [exact Ht |].
    unfold step_events. destruct (read (disk w) p); [| reflexivity].
    destruct (write_error (disk w) p); reflexivity.
Qed.

Lemma refactor_loop_any (dry : bool) (files : list (string * list Finding)) (w : World) :
  evolves console_or_write (fun _ => false) w
    (refactor_loop parse_body unparse_other dry files w).
Proof.
  revert w. induction files as [| entry rest IH]; intros w.
  - apply evolves_refl.
  - rewrite refactor_loop_cons.
    eapply evolves_trans; [apply refactor_step_any | apply IH].
Qed.

(** The scan only prints. *)
Lemma scan_codebase_prints (fs : FileSystem) (root : string) (root_ok : bool)
  (files : list string) (cfg : ScanConfig) :
  forallb console (snd (scan_codebase normpath run_semgrep fs root root_ok files cfg)) = true.
Proof.
  unfold scan_codebase. destruct root_ok; [| reflexivity].
  destruct files as [| f rest]; [reflexivity |].
  destruct (cfg_dry_run cfg).
  - cbn [snd negb]. rewrite forallb_forall. intros e Hin.
    apply in_map_iff in Hin. destruct Hin as [p [<- _]]. reflexivity.
  - cbn [snd negb]. destruct (cfg_verbose cfg); reflexivity.
Qed.

Lemma console_dry_event (json : option string) (e : event) :
  console e = true -> dry_event json e = true.
Proof. destruct e; try discriminate; reflexivity. Qed.

Lemma save_json_dry (p : string) (findings : list Finding) (w w0 : World) :
  evolves (dry_event (Some p)) (not_export (Some p)) w w0 ->
  evolves (dry_event (Some p)) (not_export (Some p)) w
          (save_json json_dumps findings p w0).
Proof.
  intros H. unfold save_json.
  pose proof (evolves_write (dry_event (Some p)) (not_export (Some p)) w w0 p
                (json_dumps findings) H) as Hw.
  destruct (write_file p (json_dumps findings) w0) as [w1 [u | e]] eqn:E;
    cbn [fst] in Hw;
    (apply evolves_emit; [| reflexivity]);
    apply Hw; cbn; rewrite String.eqb_refl; reflexivity.
Qed.

Lemma scan_codebase_dry_config (fs : FileSystem) (root : string) (root_ok : bool)
  (files : list string) (cfg : ScanConfig) :
  cfg_dry_run cfg = true ->
  fst (scan_codebase normpath run_semgrep fs root root_ok files cfg) = [].
Proof.
  intros H. unfold scan_codebase. rewrite H.
  destruct root_ok; [| reflexivity]. destruct files; reflexivity.
Qed.

(** C6: in a run started in dry-run mode (the [--dry-run] flag, or
    [dry_run] in the scan configuration) no source file is written and
    [reissue_keys] is never invoked: the only write of the whole run is the
    export of the findings to the path given with [--json-output], every
    other path reads as before, and the refactor loop in dry-run only
    talks to the console and leaves the disk as it found it (the scan
    reads and prints). *)
Theorem dry_run_writes_no_source_and_never_reissues (i : Invocation) (w : World) :
  dry_run i = true \/ cfg_dry_run (config i) = true ->
  (forall p, json_output i <> Some p ->
     read (disk (migrate parse_body unparse_other normpath run_semgrep
                         json_dumps keygen i w)) p
     = read (disk w) p)
  /\ (exists es,
        trace (migrate parse_body unparse_other normpath run_semgrep
                       json_dumps keygen i w)
        = (trace w ++ es)%list
        /\ forallb (dry_event (json_output i)) es = true)
  /\ (forall files w0,
        disk (refactor_loop parse_body unparse_other true files w0) = disk w0
        /\ exists es,
             trace (refactor_loop parse_body unparse_other true files w0)
             = (trace w0 ++ es)%list
             /\ forallb console es = true).
Proof.
  intros Hmode.
  assert (H : evolves (dry_event (json_output i)) (not_export (json_output i)) w
                (migrate parse_body unparse_other normpath run_semgrep
                         json_dumps keygen i w)).
  { unfold migrate.
    pose proof (scan_codebase_prints (disk (emit (Echo "Starting RSA vulnerability scan...") w))
                  (path i) (root_exists i) (file_list i) (config i)) as Hprints.
    pose proof (scan_codebase_dry_config
                  (disk (emit (Echo "Starting RSA vulnerability scan...") w))
                  (path i) (root_exists i) (file_list i) (config i)) as Hcfg.
    destruct (scan_codebase normpath run_semgrep
                (disk (emit (Echo "Starting RSA vulnerability scan...") w))
                (path i) (root_exists i) (file_list i) (config i))
      as [findings prints].
    cbn [fst snd] in Hprints, Hcfg.
    assert (H0 : evolves (dry_event (json_output i)) (not_export (json_output i)) w
                   (emit_all prints (emit (Echo "Starting RSA vulnerability scan...") w))).
    { apply evolves_emit_all.
      - apply evolves_emit; [apply evolves_refl | reflexivity].
      - eapply forallb_impl_bool; [apply console_dry_event | exact Hprints]. }
    destruct findings as [| f rest].
    - apply evolves_emit; [exact H0 | reflexivity].
    - assert (Hdry : dry_run i = true).
      { destruct Hmode as [Hflag | Hc]; [exact Hflag |].
        specialize (Hcfg Hc). discriminate Hcfg. }
      rewrite Hdry. cbn [negb andb].
      set (w1 := emit (DisplayReport (f :: rest)) _).
      assert (H1 : evolves (dry_event (json_output i)) (not_export (json_output i)) w w1)
        by (apply evolves_emit; [exact H0 | reflexivity]).
      set (w2 := match json_output i with
                 | Some p => if String.eqb p "" then w1
                             else save_json json_dumps (f :: rest) p w1
                 | None => w1
                 end).
      assert (H2 : evolves (dry_event (json_output i)) (not_export (json_output i)) w w2).
      { unfold w2. destruct (json_output i) as [p |]; [| exact H1].
        destruct (String.eqb p ""); [exact H1 |].
        apply save_json_dry. exact H1. }
      destruct (confirm_refactor i).
      + unfold run_tests. cbn [negb].
        do 6 (apply evolves_emit; [| reflexivity]).
        eapply evolves_trans; [exact H2 |].
        eapply evolves_weaken;
          [| | apply (proj1 (refactor_loop_dry (group_by_file (f :: rest)) w2))].
        * apply console_dry_event.
        * reflexivity.
      + apply evolves_emit; [exact H2 | reflexivity]. }
  destruct H as (_ & Hr & Ht).
  split; [| split].
  - intros p Hp. apply Hr. unfold not_export.
    destruct (json_output i) as [q |]; [| reflexivity].
    apply negb_true_iff. apply String.eqb_neq. congruence.
  - exact Ht.
  - intros files w0. destruct (refactor_loop_dry files w0) as [(_ & _ & He) Hd].
    split; [exact Hd | exact He].
Qed.

Lemma save_json_any (p : string) (findings : list Finding) (w w0 : World) :
  evolves not_reissue (fun _ => false) w w0 ->
  evolves not_reissue (fun _ => false) w (save_json json_dumps findings p w0).
Proof.
  intros H. unfold save_json.
  pose proof (evolves_write not_reissue (fun _ => false) w w0 p
                (json_dumps findings) H eq_refl eq_refl) as Hw.
  destruct (write_file p (json_dumps findings) w0) as [w1 [u | e]] eqn:E;
    cbn [fst] in Hw; (apply evolves_emit; [exact Hw | reflexivity]).
Qed.

(** C9 (the code where it departs from the claim): in a run outside
    dry-run in which the refactoring is confirmed and the key reissuance
    declined, the final report carries [key_reissuance_done = True] and
    says the keys have been reissued, while [reissue_keys] was never
    invoked. *)
Theorem reissuance_flag_ignores_the_answer (i : Invocation) (w : World) :
  dry_run i = false ->
  confirm_refactor i = true ->
  confirm_reissue i = false ->
  fst (scan_codebase normpath run_semgrep (disk w) (path i) (root_exists i)
                     (file_list i) (config i)) <> [] ->
  exists es r,
    trace (migrate parse_body unparse_other normpath run_semgrep json_dumps keygen i w)
    = (trace w ++ es ++ [EchoReport r])%list
    /\ forallb not_reissue es = true
    /\ key_reissuance_done r = true
    /\ next_step_2 r = "PQC keys have been automatically reissued.".
Proof.
  intros Hdry Hrefactor Hreissue Hfound.
  unfold migrate. rewrite Hdry, Hrefactor, Hreissue. cbn [negb andb disk emit].
  pose proof (scan_codebase_prints (disk w) (path i) (root_exists i) (file_list i)
                (config i)) as Hprints.
  destruct (scan_codebase normpath run_semgrep (disk w) (path i) (root_exists i)
              (file_list i) (config i)) as [findings prints].
  cbn [fst snd] in Hfound, Hprints.
  destruct findings as [| f rest]; [contradiction |].
  set (w0 := emit_all prints _).
  assert (H0 : evolves not_reissue (fun _ => false) w w0).
  { apply evolves_emit_all.
    - apply evolves_emit; [apply evolves_refl | reflexivity].
    - eapply forallb_impl_bool; [| exact Hprints].
      intros []; try discriminate; reflexivity. }
  set (w1 := emit (DisplayReport (f :: rest)) w0).
  assert (H1 : evolves not_reissue (fun _ => false) w w1)
    by (apply evolves_emit; [exact H0 | reflexivity]).
  set (w2 := match json_output i with
             | Some p => if String.eqb p "" then w1
                         else save_json json_dumps (f :: rest) p w1
             | None => w1
             end).
  assert (H2 : evolves not_reissue (fun _ => false) w w2).
  { unfold w2. destruct (json_output i) as [p |]; [| exact H1].
    destruct (String.eqb p ""); [exact H1 |].
    apply save_json_any. exact H1. }
  unfold run_tests. cbn [negb].
  match goal with
  | |- exists es r, trace (emit (EchoReport ?rep) ?w5) = _ /\ _ =>
      assert (H5 : evolves not_reissue (fun _ => false) w w5)
  end.
  { do 5 (apply evolves_emit; [| reflexivity]).
    eapply evolves_trans; [exact H2 |].
    eapply evolves_weaken; [| | apply refactor_loop_any].
    - intros []; try discriminate; reflexivity.
    - discriminate. }
  destruct H5 as (_ & _ & es & Ht & Hes).
  eexists es, _. split.
  - cbn [trace emit]. cbn [trace emit] in Ht. rewrite Ht, app_assoc. reflexivity.
  - split; [exact Hes | split; reflexivity].
Qed.

End MigrateFacts.

Lemma dry_run_writes_no_source_and_never_reissues_witness :
  read (disk (sample_migrate run_dry three_files)) "a.py" = Return a_py
  /\ existsb is_reissue (trace (sample_migrate run_dry three_files)) = false.
Proof.
  split.
  - apply (proj1 (dry_run_writes_no_source_and_never_reissues
                    PyParse.parse_body PyParse.no_other (fun p => p) (fun _ _ => None)
                    (fun _ => "[]") (Return ("keys/pqc_keys.json", "{}"))
                    run_dry three_files (or_introl eq_refl)) "a.py").
    discriminate.
  - vm_compute. reflexivity.
Defined.

Lemma reissuance_flag_ignores_the_answer_witness :
  exists es r,
    trace (sample_migrate run_declining_reissue three_files) = (es ++ [EchoReport r])%list
    /\ forallb not_reissue es = true
    /\ key_reissuance_done r = true
    /\ next_step_2 r = "PQC keys have been automatically reissued.".
Proof.
  apply (reissuance_flag_ignores_the_answer
           PyParse.parse_body PyParse.no_other (fun p => p) (fun _ _ => None)
           (fun _ => "[]") (Return ("keys/pqc_keys.json", "{}"))
           run_declining_reissue three_files eq_refl eq_refl eq_refl).
  vm_compute. discriminate.
Defined.

(** ** The risk classifier *)

Lemma first_match_none (rules : list ((string -> bool) * Risk)) (default : Risk)
  (msg : string) :
  forallb (fun rule => negb (fst rule msg)) rules = true ->
  first_match rules default msg = default.
Proof.
  induction rules as [| [applies r] rest IH]; [reflexivity |].
  cbn [forallb fst]. intros H. apply andb_true_iff in H.
  destruct H as [Hn Hrest]. apply negb_true_iff in Hn.
  cbn [first_match]. rewrite Hn. apply IH. exact Hrest.
Qed.

(** *** Letter case and surrounding white space *)

Lemma string_length_induction (P : string -> Prop) :
  (forall s, (forall t, (String.length t < String.length s)%nat -> P t) -> P s) ->
  forall s, P s.
Proof.
  intros H s.
  assert (Hn : forall n t, (String.length t < n)%nat -> P t).
  { induction n as [| n IH]; intros t Ht; [lia |].
    apply H. intros u Hu. apply IH. lia. }
  apply (Hn (S (String.length s))). lia.
Qed.

Lemma length_append (a b : string) :
  String.length (a ++ b) = (String.length a + String.length b)%nat.
Proof. induction a as [| c r IH]; cbn; [reflexivity | rewrite IH; reflexivity]. Qed.

Lemma space_lead_bytes (p : ascii) :
  space_lead p = true ->
  (nat_of_ascii p <= 32 \/ 194 <= nat_of_ascii p)%nat.
Proof.
  unfold space_lead, PyStr.is_space, PyStr.byte. cbv zeta. intros H.
  repeat (apply orb_true_iff in H; destruct H as [H | H]);
    repeat (apply andb_true_iff in H; destruct H as [? H]);
    repeat match goal with
           | H : (_ <=? _)%nat = true |- _ => apply Nat.leb_le in H
           | H : (_ =? _)%nat = true |- _ => apply Nat.eqb_eq in H
           end; lia.
Qed.

Lemma byte_not_lead (p : ascii) (k : nat) :
  space_lead p = true -> (33 <= k <= 193)%nat -> PyStr.byte p k = false.
Proof.
  intros H Hk. apply space_lead_bytes in H. unfold PyStr.byte.
  apply Nat.eqb_neq. lia.
Qed.

Lemma blank_lead (s : string) :
  blank s ->
  match s with
  | EmptyString => True
  | String p _ => space_lead p = true
  end.
Proof.
  intros H. induction H as [| w r Hin _ IH]; [exact I |].
  unfold whitespace in Hin. cbn [map PyStr.bytes] in Hin.
  repeat (destruct Hin as [<- | Hin]; [vm_compute; reflexivity |]).
  contradiction.
Qed.

(** A text that does not start with the second or third byte of U+0130
    or U+212A. *)
Lemma lower_one (c : ascii) : PyStr.lower (String c "") = String (PyStr.lower_ascii c) "".
Proof. reflexivity. Qed.

Lemma lower_app_lead (a : string) :
  forall p b,
    space_lead p = true ->
    PyStr.lower (a ++ String p b) = PyStr.lower a ++ PyStr.lower (String p b).
Proof.
  induction a as [a IH] using string_length_induction. intros p b Hp.
  pose proof (byte_not_lead p 176 Hp ltac:(lia)) as H176.
  pose proof (byte_not_lead p 132 Hp ltac:(lia)) as H132.
  pose proof (byte_not_lead p 170 Hp ltac:(lia)) as H170.
  destruct a as [| c [| c2 [| c3 r3]]].
  - reflexivity.
  - cbn [append]. cbn [PyStr.lower]. rewrite H176, H132, andb_false_r.
    cbn [andb]. rewrite andb_false_r.
    destruct b; reflexivity.
  - change ((String c (String c2 "")) ++ String p b) with (String c (String c2 (String p b))).
    cbn [PyStr.lower]. rewrite H170, !andb_false_r.
    destruct (andb (PyStr.byte c 196) (PyStr.byte c2 176)).
    + reflexivity.
    + rewrite H176, H132, !andb_false_r. cbn [andb].
      rewrite ?andb_false_r. destruct b; reflexivity.
  - change ((String c (String c2 (String c3 r3))) ++ String p b)
      with (String c (String c2 (String c3 (r3 ++ String p b)))).
    assert (I1 : PyStr.lower (String c2 (String c3 r3) ++ String p b)
                 = PyStr.lower (String c2 (String c3 r3)) ++ PyStr.lower (String p b)).
    { apply IH; [cbn; lia | exact Hp]. }
    assert (I2 : PyStr.lower (String c3 r3 ++ String p b)
                 = PyStr.lower (String c3 r3) ++ PyStr.lower (String p b)).
    { apply IH; [cbn; lia | exact Hp]. }
    assert (I3 : PyStr.lower (r3 ++ String p b)
                 = PyStr.lower r3 ++ PyStr.lower (String p b)).
    { apply IH; [cbn; lia | exact Hp]. }
    cbn [append] in I1, I2.
    change (PyStr.lower (String c (String c2 (String c3 (r3 ++ String p b)))))
      with (if andb (PyStr.byte c 196) (PyStr.byte c2 176)
            then String "i" (String (ascii_of_nat 204) (String (ascii_of_nat 135)
                   (PyStr.lower (String c3 (r3 ++ String p b)))))
            else if andb (PyStr.byte c 226) (andb (PyStr.byte c2 132) (PyStr.byte c3 170))
                 then String "k" (PyStr.lower (r3 ++ String p b))
                 else String (PyStr.lower_ascii c)
                        (PyStr.lower (String c2 (String c3 (r3 ++ String p b))))).
    change (PyStr.lower (String c (String c2 (String c3 r3))))
      with (if andb (PyStr.byte c 196) (PyStr.byte c2 176)
            then String "i" (String (ascii_of_nat 204) (String (ascii_of_nat 135)
                   (PyStr.lower (String c3 r3))))
            else if andb (PyStr.byte c 226) (andb (PyStr.byte c2 132) (PyStr.byte c3 170))
                 then String "k" (PyStr.lower r3)
                 else String (PyStr.lower_ascii c)
                        (PyStr.lower (String c2 (String c3 r3)))).
    rewrite I1, I2, I3.
    destruct (andb (PyStr.byte c 196) (PyStr.byte c2 176)); [reflexivity |].
    destruct (andb (PyStr.byte c 226) (andb (PyStr.byte c2 132) (PyStr.byte c3 170)));
      reflexivity.
Qed.

Lemma whitespace_lower (w : string) :
  In w whitespace -> forall y, PyStr.lower (w ++ y) = w ++ PyStr.lower y.
Proof.
  intros Hin y. unfold whitespace in Hin. cbn [map PyStr.bytes] in Hin.
  repeat (destruct Hin as [<- | Hin];
          [destruct y as [| c2 [| c3 r3]]; reflexivity |]).
  contradiction.
Qed.

Lemma blank_lower (pre : string) :
  blank pre -> forall x, PyStr.lower (pre ++ x) = pre ++ PyStr.lower x.
Proof.
  intros H. induction H as [| w r Hin _ IH]; intros x; [reflexivity |].
  rewrite append_assoc, (whitespace_lower w Hin), IH, append_assoc. reflexivity.
Qed.

Lemma lower_around (pre m post : string) :
  blank pre -> blank post ->
  PyStr.lower (pre ++ m ++ post) = pre ++ PyStr.lower m ++ post.
Proof.
  intros Hpre Hpost. rewrite (blank_lower pre Hpre). f_equal.
  pose proof (blank_lead post Hpost) as Hl.
  pose proof (blank_lower post Hpost "") as Hp. rewrite append_nil_r in Hp.
  cbn [PyStr.lower] in Hp. rewrite append_nil_r in Hp.
  destruct post as [| p b]; [rewrite !append_nil_r; reflexivity |].
  rewrite (lower_app_lead m p b Hl), Hp. reflexivity.
Qed.

Lemma reverse_onto_app (s : string) :
  forall acc, PyStr.reverse_onto s acc = PyStr.reverse s ++ acc.
Proof.
  unfold PyStr.reverse. induction s as [| c r IH]; intros acc; cbn [PyStr.reverse_onto].
  - reflexivity.
  - rewrite IH, (IH (String c "")), append_assoc. reflexivity.
Qed.

Lemma reverse_app (a b : string) :
  PyStr.reverse (a ++ b) = PyStr.reverse b ++ PyStr.reverse a.
Proof.
  induction a as [| c r IH].
  - cbn [append]. change (PyStr.reverse "") with "". rewrite append_nil_r. reflexivity.
  - cbn [append]. unfold PyStr.reverse at 1 3. cbn [PyStr.reverse_onto].
    rewrite !reverse_onto_app, IH, append_assoc. reflexivity.
Qed.

Lemma whitespace_lstrip (w : string) :
  In w whitespace -> forall y, PyStr.lstrip (w ++ y) = PyStr.lstrip y.
Proof.
  intros Hin y. unfold whitespace in Hin. cbn [map PyStr.bytes] in Hin.
  repeat (destruct Hin as [<- | Hin]; [reflexivity |]).
  contradiction.
Qed.

Lemma whitespace_lstrip_reversed (w : string) :
  In w whitespace ->
  forall y, PyStr.lstrip_reversed (PyStr.reverse w ++ y) = PyStr.lstrip_reversed y.
Proof.
  intros Hin y. unfold whitespace in Hin. cbn [map PyStr.bytes] in Hin.
  repeat (destruct Hin as [<- | Hin]; [reflexivity |]).
  contradiction.
Qed.

Lemma blank_lstrip (pre : string) :
  blank pre -> forall x, PyStr.lstrip (pre ++ x) = PyStr.lstrip x.
Proof.
  intros H. induction H as [| w r Hin _ IH]; intros x; [reflexivity |].
  rewrite append_assoc, (whitespace_lstrip w Hin). apply IH.
Qed.

Lemma blank_lstrip_reversed (post : string) :
  blank post ->
  forall y, PyStr.lstrip_reversed (PyStr.reverse post ++ y) = PyStr.lstrip_reversed y.
Proof.
  intros H. induction H as [| w r Hin _ IH]; intros y; [reflexivity |].
  rewrite reverse_app, append_assoc, IH. apply (whitespace_lstrip_reversed w Hin).
Qed.

Lemma blank_rstrip (post : string) :
  blank post -> forall x, PyStr.rstrip (x ++ post) = PyStr.rstrip x.
Proof.
  intros H x. unfold PyStr.rstrip.
  rewrite reverse_app, (blank_lstrip_reversed post H). reflexivity.
Qed.

Lemma space2_lead (a p : ascii) : space_lead p = true -> PyStr.space2 a p = false.
Proof.
  intros Hp. unfold PyStr.space2.
  rewrite (byte_not_lead p 133 Hp), (byte_not_lead p 160 Hp) by lia.
  apply andb_false_r.
Qed.

Lemma space3_lead_second (a p c : ascii) :
  space_lead p = true -> PyStr.space3 a p c = false.
Proof.
  intros Hp. unfold PyStr.space3. cbv zeta.
  rewrite (byte_not_lead p 154 Hp), (byte_not_lead p 128 Hp),
          (byte_not_lead p 129 Hp) by lia.
  cbn [andb orb]. rewrite !andb_false_r. reflexivity.
Qed.

Lemma space3_lead_third (a b p : ascii) :
  space_lead p = true -> PyStr.space3 a b p = false.
Proof.
  intros Hp. unfold PyStr.space3. cbv zeta.
  rewrite (byte_not_lead p 128 Hp), (byte_not_lead p 168 Hp),
          (byte_not_lead p 169 Hp), (byte_not_lead p 175 Hp),
          (byte_not_lead p 159 Hp) by lia.
  assert (Hr : andb (128 <=? nat_of_ascii p)%nat (nat_of_ascii p <=? 138)%nat = false).
  { apply space_lead_bytes in Hp. apply andb_false_iff.
    destruct Hp as [Hp | Hp]; [left; apply Nat.leb_gt | right; apply Nat.leb_gt]; lia. }
  rewrite Hr. cbn [andb orb]. rewrite !andb_false_r. reflexivity.
Qed.

(** White space after a text does not change what [lstrip] and then
    [rstrip] leave of it. *)
Lemma strip_before_blank (post : string) :
  blank post ->
  forall m, PyStr.rstrip (PyStr.lstrip (m ++ post)) = PyStr.rstrip (PyStr.lstrip m).
Proof.
  intros Hpost m. induction m as [m IH] using string_length_induction.
  pose proof (blank_lead post Hpost) as Hl.
  assert (Hnil : PyStr.lstrip post = "").
  { rewrite <- (append_nil_r post). apply (blank_lstrip post Hpost ""). }
  destruct m as [| a r].
  - cbn [append]. rewrite Hnil. reflexivity.
  - cbn [append]. cbn [PyStr.lstrip].
    destruct (PyStr.is_space a) eqn:Ea; [apply IH; cbn; lia |].
    destruct r as [| b r2].
    + cbn [append]. destruct post as [| p q]; [reflexivity |].
      rewrite (space2_lead a p Hl).
      assert (E : match q with
                  | String c r3 =>
                      if PyStr.space3 a p c then PyStr.lstrip r3
                      else String a (String p q)
                  | EmptyString => String a (String p q)
                  end = String a (String p q)).
      { destruct q as [| c r3]; [reflexivity |].
        rewrite (space3_lead_second a p c Hl). reflexivity. }
      rewrite E. apply (blank_rstrip (String p q) Hpost (String a "")).
    + cbn [append].
      destruct (PyStr.space2 a b) eqn:E2; [apply IH; cbn; lia |].
      destruct r2 as [| c r3].
      * cbn [append]. destruct post as [| p q]; [reflexivity |].
        rewrite (space3_lead_third a b p Hl).
        apply (blank_rstrip (String p q) Hpost (String a (String b ""))).
      * cbn [append].
        destruct (PyStr.space3 a b c) eqn:E3; [apply IH; cbn; lia |].
        apply (blank_rstrip post Hpost (String a (String b (String c r3)))).
Qed.

Lemma strip_around (pre m post : string) :
  blank pre -> blank post -> PyStr.strip (pre ++ m ++ post) = PyStr.strip m.
Proof.
  intros Hpre Hpost. unfold PyStr.strip.
  rewrite (blank_lstrip pre Hpre). apply strip_before_blank. exact Hpost.
Qed.

(** The normalized form of a message does not depend on the white space
    around it. *)
Lemma normalized_around (pre m post : string) :
  blank pre -> blank post ->
  normalized (with_message (pre ++ m ++ post)) = normalized (with_message m).
Proof.
  intros Hpre Hpost. unfold normalized, with_message. cbn [res_message get_default].
  rewrite (lower_around pre m post Hpre Hpost). apply strip_around; assumption.
Qed.

Lemma capital_cases (c : ascii) :
  capital c = c
  \/ ((97 <= nat_of_ascii c <= 122)%nat
      /\ nat_of_ascii (capital c) = (nat_of_ascii c - 32)%nat).
Proof.
  unfold capital. cbv zeta.
  destruct (andb (97 <=? nat_of_ascii c)%nat (nat_of_ascii c <=? 122)%nat) eqn:E;
    [| left; reflexivity].
  apply andb_true_iff in E. destruct E as [E1 E2].
  apply Nat.leb_le in E1. apply Nat.leb_le in E2.
  right. split; [lia |]. apply nat_ascii_embedding. lia.
Qed.

Lemma byte_capital (c : ascii) (k : nat) :
  (128 <= k)%nat -> PyStr.byte (capital c) k = PyStr.byte c k.
Proof.
  intros Hk. destruct (capital_cases c) as [-> | [Hc E]]; [reflexivity |].
  unfold PyStr.byte. rewrite E.
  transitivity false; [| symmetry]; apply Nat.eqb_neq; lia.
Qed.

Lemma lower_capital (c : ascii) : PyStr.lower_ascii (capital c) = PyStr.lower_ascii c.
Proof.
  destruct (capital_cases c) as [-> | [Hc E]]; [reflexivity |].
  unfold PyStr.lower_ascii. cbv zeta. rewrite E.
  replace (andb (65 <=? nat_of_ascii c - 32)%nat (nat_of_ascii c - 32 <=? 90)%nat)
    with true
    by (symmetry; apply andb_true_iff; split; apply Nat.leb_le; lia).
  replace (andb (65 <=? nat_of_ascii c)%nat (nat_of_ascii c <=? 90)%nat)
    with false
    by (symmetry; apply andb_false_iff; right; apply Nat.leb_gt; lia).
  replace (nat_of_ascii c - 32 + 32)%nat with (nat_of_ascii c) by lia.
  apply ascii_nat_embedding.
Qed.

(** Lower-casing undoes the capitals. *)
Lemma lower_capitals (m : string) : PyStr.lower (capitals m) = PyStr.lower m.
Proof.
  induction m as [m IH] using string_length_induction.
  destruct m as [| c [| c2 [| c3 r3]]].
  - reflexivity.
  - cbn [capitals PyStr.lower]. rewrite lower_capital. reflexivity.
  - assert (I1 : PyStr.lower (capitals (String c2 "")) = PyStr.lower (String c2 ""))
      by (apply IH; cbn; lia).
    cbn [capitals] in *. cbn [PyStr.lower] in *.
    rewrite !byte_capital, lower_capital by lia.
    destruct (andb (PyStr.byte c 196) (PyStr.byte c2 176)); [reflexivity |].
    rewrite I1. reflexivity.
  - assert (I1 : PyStr.lower (capitals (String c2 (String c3 r3)))
                 = PyStr.lower (String c2 (String c3 r3))) by (apply IH; cbn; lia).
    assert (I2 : PyStr.lower (capitals (String c3 r3)) = PyStr.lower (String c3 r3))
      by (apply IH; cbn; lia).
    assert (I3 : PyStr.lower (capitals r3) = PyStr.lower r3) by (apply IH; cbn; lia).
    cbn [capitals] in *.
    change (PyStr.lower (String (capital c) (String (capital c2)
              (String (capital c3) (capitals r3)))))
      with (if andb (PyStr.byte (capital c) 196) (PyStr.byte (capital c2) 176)
            then String "i" (String (ascii_of_nat 204) (String (ascii_of_nat 135)
                   (PyStr.lower (String (capital c3) (capitals r3)))))
            else if andb (PyStr.byte (capital c) 226)
                         (andb (PyStr.byte (capital c2) 132) (PyStr.byte (capital c3) 170))
                 then String "k" (PyStr.lower (capitals r3))
                 else String (PyStr.lower_ascii (capital c))
                        (PyStr.lower (String (capital c2)
                           (String (capital c3) (capitals r3))))).
    change (PyStr.lower (String c (String c2 (String c3 r3))))
      with (if andb (PyStr.byte c 196) (PyStr.byte c2 176)
            then String "i" (String (ascii_of_nat 204) (String (ascii_of_nat 135)
                   (PyStr.lower (String c3 r3))))
            else if andb (PyStr.byte c 226) (andb (PyStr.byte c2 132) (PyStr.byte c3 170))
                 then String "k" (PyStr.lower r3)
                 else String (PyStr.lower_ascii c)
                        (PyStr.lower (String c2 (String c3 r3)))).
    rewrite !byte_capital, lower_capital, I1, I2, I3 by lia. reflexivity.
Qed.

Lemma normalized_capitals (m : string) :
  normalized (with_message (capitals m)) = normalized (with_message m).
Proof.
  unfold normalized, with_message. cbn [res_message get_default].
  rewrite lower_capitals. reflexivity.
Qed.

Lemma plain_byte_spec (c : ascii) :
  plain_byte c = true ->
  (nat_of_ascii c < 128)%nat /\ PyStr.lower_ascii c = c.
Proof.
  unfold plain_byte, PyStr.lower_ascii. cbv zeta. intros H.
  apply andb_true_iff in H. destruct H as [H1 H2].
  apply Nat.ltb_lt in H1. apply negb_true_iff in H2. rewrite H2. split; [exact H1 | reflexivity].
Qed.

Lemma byte_ascii (c : ascii) (k : nat) :
  (nat_of_ascii c < 128)%nat -> (128 <= k)%nat -> PyStr.byte c k = false.
Proof. intros Hc Hk. unfold PyStr.byte. apply Nat.eqb_neq. lia. Qed.

Lemma lower_plain (m : string) : all_bytes plain_byte m = true -> PyStr.lower m = m.
Proof.
  induction m as [m IH] using string_length_induction.
  destruct m as [| c [| c2 [| c3 r3]]]; intros H.
  - reflexivity.
  - cbn [all_bytes] in H. apply andb_true_iff in H. destruct H as [Hc _].
    destruct (plain_byte_spec c Hc) as [_ E]. cbn [PyStr.lower]. rewrite E. reflexivity.
  - assert (I1 : PyStr.lower (String c2 "") = String c2 "").
    { apply IH; [cbn; lia |]. cbn [all_bytes] in *. apply andb_true_iff in H. tauto. }
    cbn [all_bytes] in H. apply andb_true_iff in H. destruct H as [Hc _].
    destruct (plain_byte_spec c Hc) as [Hlt E].
    cbn [PyStr.lower] in *. rewrite (byte_ascii c 196 Hlt) by lia. cbn [andb].
    rewrite E, I1. reflexivity.
  - assert (I1 : PyStr.lower (String c2 (String c3 r3)) = String c2 (String c3 r3)).
    { apply IH; [cbn; lia |]. cbn [all_bytes] in *. apply andb_true_iff in H. tauto. }
    cbn [all_bytes] in H. apply andb_true_iff in H. destruct H as [Hc _].
    destruct (plain_byte_spec c Hc) as [Hlt E].
    change (PyStr.lower (String c (String c2 (String c3 r3))))
      with (if andb (PyStr.byte c 196) (PyStr.byte c2 176)
            then String "i" (String (ascii_of_nat 204) (String (ascii_of_nat 135)
                   (PyStr.lower (String c3 r3))))
            else if andb (PyStr.byte c 226) (andb (PyStr.byte c2 132) (PyStr.byte c3 170))
                 then String "k" (PyStr.lower r3)
                 else String (PyStr.lower_ascii c)
                        (PyStr.lower (String c2 (String c3 r3)))).
    rewrite (byte_ascii c 196 Hlt), (byte_ascii c 226 Hlt) by lia. cbn [andb].
    rewrite E, I1. reflexivity.
Qed.

Lemma space2_ascii_first (a b : ascii) :
  (nat_of_ascii a < 128)%nat -> PyStr.space2 a b = false.
Proof. intros H. unfold PyStr.space2. rewrite (byte_ascii a 194 H) by lia. reflexivity. Qed.

Lemma space3_ascii_first (a b c : ascii) :
  (nat_of_ascii a < 128)%nat -> PyStr.space3 a b c = false.
Proof.
  intros H. unfold PyStr.space3. cbv zeta.
  rewrite (byte_ascii a 225 H), (byte_ascii a 226 H), (byte_ascii a 227 H) by lia.
  reflexivity.
Qed.

Lemma space2_ascii_last (a b : ascii) :
  (nat_of_ascii b < 128)%nat -> PyStr.space2 a b = false.
Proof.
  intros H. unfold PyStr.space2.
  rewrite (byte_ascii b 133 H), (byte_ascii b 160 H) by lia. apply andb_false_r.
Qed.

Lemma space3_ascii_last (a b c : ascii) :
  (nat_of_ascii c < 128)%nat -> PyStr.space3 a b c = false.
Proof.
  intros H. unfold PyStr.space3. cbv zeta.
  rewrite (byte_ascii c 128 H), (byte_ascii c 168 H), (byte_ascii c 169 H),
          (byte_ascii c 175 H), (byte_ascii c 159 H) by lia.
  replace (128 <=? nat_of_ascii c)%nat with false by (symmetry; apply Nat.leb_gt; lia).
  cbn [andb orb]. rewrite !andb_false_r. reflexivity.
Qed.

Lemma lstrip_plain (m : string) :
  all_bytes plain_byte m = true -> no_space_first m = true -> PyStr.lstrip m = m.
Proof.
  destruct m as [| a r]; [reflexivity |]. cbn [all_bytes no_space_first].
  intros H Hs. apply andb_true_iff in H. destruct H as [Ha _].
  destruct (plain_byte_spec a Ha) as [Hlt _]. apply negb_true_iff in Hs.
  cbn [PyStr.lstrip]. rewrite Hs.
  destruct r as [| b [| c r3]]; try reflexivity.
  - rewrite (space2_ascii_first a b Hlt). reflexivity.
  - rewrite (space2_ascii_first a b Hlt), (space3_ascii_first a b c Hlt). reflexivity.
Qed.

Lemma lstrip_reversed_plain (m : string) :
  all_bytes plain_byte m = true -> no_space_first m = true -> PyStr.lstrip_reversed m = m.
Proof.
  destruct m as [| c r]; [reflexivity |]. cbn [all_bytes no_space_first].
  intros H Hs. apply andb_true_iff in H. destruct H as [Hc _].
  destruct (plain_byte_spec c Hc) as [Hlt _]. apply negb_true_iff in Hs.
  cbn [PyStr.lstrip_reversed]. rewrite Hs.
  destruct r as [| b [| a r3]]; try reflexivity.
  - rewrite (space2_ascii_last b c Hlt). reflexivity.
  - rewrite (space2_ascii_last b c Hlt), (space3_ascii_last a b c Hlt). reflexivity.
Qed.

Lemma all_bytes_app (p : ascii -> bool) (a b : string) :
  all_bytes p (a ++ b) = andb (all_bytes p a) (all_bytes p b).
Proof.
  induction a as [| c r IH]; cbn [append all_bytes]; [reflexivity |].
  rewrite IH, andb_assoc. reflexivity.
Qed.

Lemma all_bytes_reverse (p : ascii -> bool) (s : string) :
  all_bytes p (PyStr.reverse s) = all_bytes p s.
Proof.
  induction s as [| c r IH]; [reflexivity |].
  change (String c r) with (String c "" ++ r) at 1.
  rewrite reverse_app, all_bytes_app, IH. cbn [all_bytes PyStr.reverse PyStr.reverse_onto].
  rewrite andb_true_r, andb_comm. reflexivity.
Qed.

Lemma reverse_reverse (s : string) : PyStr.reverse (PyStr.reverse s) = s.
Proof.
  induction s as [| c r IH]; [reflexivity |].
  change (String c r) with (String c "" ++ r) at 1.
  rewrite !reverse_app, IH. reflexivity.
Qed.

(** A message of ASCII characters without capitals and without white
    space at its ends is its own normal form. *)
Lemma normalized_plain (m : string) :
  all_bytes plain_byte m = true -> trimmed m = true ->
  normalized (with_message m) = m.
Proof.
  intros Hp Ht. unfold trimmed in Ht. apply andb_true_iff in Ht. destruct Ht as [H1 H2].
  unfold normalized, with_message. cbn [res_message get_default].
  rewrite (lower_plain m Hp). unfold PyStr.strip, PyStr.rstrip.
  rewrite (lstrip_plain m Hp H1).
  rewrite lstrip_reversed_plain; [apply reverse_reverse | | exact H2].
  rewrite all_bytes_reverse. exact Hp.
Qed.

(** C7: [assess_risk] depends on the result only through its normalized
    message, the message lower-cased and then stripped of surrounding
    white space, and is the spec's ordered table read first match first
    with default [Low]: a message starting with the RSA-key-usage prefix
    is [Low] when it contains [>=3072] or [kyber] and [High] otherwise,
    and a message no rule matches is [Low].  The normalized message is
    the same whatever white space surrounds the message, and whether its
    ASCII letters are capitals or not; a message of ASCII characters
    without capitals and without white space at its ends is its own
    normalized message. *)
Theorem assess_risk_follows_the_table (result : SemgrepResult) :
  assess_risk result = first_match spec_risk_table Low (normalized result)
  /\ (PyStr.startswith (normalized result) "insecure rsa key usage detected" = true ->
      assess_risk result
      = if orb (PyStr.contains ">=3072" (normalized result))
               (PyStr.contains "kyber" (normalized result))
        then Low else High)
  /\ (forallb (fun rule => negb (fst rule (normalized result))) spec_risk_table = true ->
      assess_risk result = Low)
  /\ (forall other, normalized other = normalized result ->
      assess_risk other = assess_risk result)
  /\ (forall pre m post,
        blank pre -> blank post ->
        res_message result = Some (pre ++ m ++ post) ->
        normalized result = normalized (with_message m))
  /\ (forall m,
        res_message result = Some (capitals m) ->
        normalized result = normalized (with_message m))
  /\ (forall m,
        res_message result = Some m ->
        all_bytes plain_byte m = true -> trimmed m = true ->
        normalized result = m).
Proof.
  assert (Htable : forall r,
            assess_risk r = first_match spec_risk_table Low (normalized r)).
  { intros r. unfold assess_risk, normalized, spec_risk_table, first_match.
    set (msg := PyStr.strip (PyStr.lower (get_default (res_message r) ""))).
    destruct (PyStr.startswith msg "insecure rsa key usage detected");
      [destruct (orb (PyStr.contains ">=3072" msg) (PyStr.contains "kyber" msg));
       reflexivity |].
    cbn [andb]. reflexivity. }
  split; [apply Htable |]. split; [| split; [| split; [| split; [| split]]]].
  - intros Hp. rewrite Htable. unfold spec_risk_table, first_match.
    rewrite Hp. cbn [andb].
    destruct (orb _ _); reflexivity.
  - intros Hnone. rewrite Htable. apply first_match_none. exact Hnone.
  - intros other Heq. rewrite !Htable, Heq. reflexivity.
  - intros pre m post Hpre Hpost Hm.
    rewrite <- (normalized_around pre m post Hpre Hpost).
    unfold normalized, with_message. cbn [res_message]. rewrite Hm. reflexivity.
  - intros m Hm. rewrite <- (normalized_capitals m).
    unfold normalized, with_message. cbn [res_message]. rewrite Hm. reflexivity.
  - intros m Hm Hp Ht.
    transitivity (normalized (with_message m)); [| apply normalized_plain; assumption].
    unfold normalized, with_message. cbn [res_message]. rewrite Hm. reflexivity.
Qed.

Lemma assess_risk_follows_the_table_witness :
  assess_risk padded_result = High
  /\ normalized padded_result = "insecure rsa key usage detected"
  /\ assess_risk kelvin_result = Low
  /\ assess_risk mitigated_result = Low
  /\ assess_risk key_usage_result = High
  /\ assess_risk unrelated_result = Low
  /\ normalized (with_message "insecure use of md5 detected")
     = "insecure use of md5 detected".
Proof.
  assert (Hn : normalized padded_result = "insecure rsa key usage detected").
  { rewrite (proj1 (proj2 (proj2 (proj2 (proj2
               (assess_risk_follows_the_table padded_result)))))
               (PyStr.bytes [32; 194; 160]) "INSECURE RSA Key Usage Detected" nl).
    - vm_compute. reflexivity.
    - change (blank (PyStr.bytes [32] ++ PyStr.bytes [194; 160] ++ "")).
      apply blank_cons; [repeat first [left; reflexivity | right] |].
      apply blank_cons; [repeat first [left; reflexivity | right] | apply blank_nil].
    - change (blank (PyStr.bytes [10] ++ "")).
      apply blank_cons; [repeat first [left; reflexivity | right] | apply blank_nil].
    - reflexivity. }
  split; [| split; [exact Hn | split; [| split; [| split; [| split]]]]].
  - rewrite (proj1 (proj2 (assess_risk_follows_the_table padded_result)));
      rewrite Hn; reflexivity.
  - rewrite (proj1 (proj2 (assess_risk_follows_the_table kelvin_result)));
      vm_compute; reflexivity.
  - rewrite (proj1 (proj2 (assess_risk_follows_the_table mitigated_result)));
      vm_compute; reflexivity.
  - rewrite (proj1 (proj2 (assess_risk_follows_the_table key_usage_result)));
      vm_compute; reflexivity.
  - apply (proj1 (proj2 (proj2 (assess_risk_follows_the_table unrelated_result)))).
    vm_compute. reflexivity.
  - apply (proj2 (proj2 (proj2 (proj2 (proj2 (proj2
             (assess_risk_follows_the_table
                (with_message "insecure use of md5 detected")))))))); reflexivity.
Defined.

(** ** The deduplicating merge *)

Lemma already_reported_app (a b : list Finding) (p l : string) :
  already_reported (a ++ b) p l = orb (already_reported a p l) (already_reported b p l).
Proof. unfold already_reported. apply existsb_app. Qed.

Lemma fresh_snoc (tail : list Finding) :
  forall seen g,
    fresh seen tail ->
    message g = fallback_message ->
    already_reported (seen ++ tail) (real_path g) (line g) = false ->
    fresh seen (tail ++ [g]).
Proof.
  induction tail as [| g0 rest IH]; intros seen g Hf Hm Hr.
  - rewrite app_nil_r in Hr. cbn. auto.
  - destruct Hf as (Hm0 & Hr0 & Hrest). cbn [app fresh].
    split; [exact Hm0 |]. split; [exact Hr0 |].
    apply IH; [exact Hrest | exact Hm |].
    rewrite <- app_assoc. exact Hr.
Qed.

Lemma fresh_messages (tail : list Finding) :
  forall seen, fresh seen tail -> Forall (fun g => message g = fallback_message) tail.
Proof.
  induction tail as [| g rest IH]; intros seen Hf; constructor.
  - apply Hf.
  - eapply IH. apply Hf.
Qed.

Lemma count_at_app (msg p l : string) (a b : list Finding) :
  count_at msg p l (a ++ b) = (count_at msg p l a + count_at msg p l b)%nat.
Proof. unfold count_at. rewrite filter_app, length_app. reflexivity. Qed.

Lemma count_at_other_message (msg msg' p l : string) (fs : list Finding) :
  String.eqb msg' msg = false ->
  Forall (fun f => message f = msg') fs -> count_at msg p l fs = 0%nat.
Proof.
  intros Hne H. unfold count_at. induction H as [| f rest Hf _ IH]; [reflexivity |].
  cbn [filter]. rewrite Hf, Hne. exact IH.
Qed.

Lemma count_at_reported (msg p l : string) (fs : list Finding) :
  (1 <= count_at msg p l fs)%nat -> already_reported fs p l = true.
Proof.
  unfold count_at, already_reported. induction fs as [| f rest IH]; cbn [filter existsb].
  - cbn. lia.
  - destruct (andb (String.eqb (message f) msg) (at_key p l f)) eqn:E.
    + apply andb_true_iff in E. destruct E as [_ E]. unfold at_key in E.
      rewrite E. reflexivity.
    + intros H. rewrite (IH H). apply orb_true_r.
Qed.

Lemma fresh_count (p l : string) (tail : list Finding) :
  forall seen,
    fresh seen tail ->
    (count_at fallback_message p l tail
     <= if already_reported seen p l then 0 else 1)%nat.
Proof.
  induction tail as [| g rest IH]; intros seen Hf.
  - cbn. destruct (already_reported seen p l); lia.
  - destruct Hf as (Hm & Hr & Hrest). specialize (IH _ Hrest).
    rewrite already_reported_app in IH.
    change (already_reported [g] p l) with (orb (at_key p l g) false) in IH.
    rewrite orb_false_r in IH.
    unfold count_at in *. cbn [filter]. rewrite Hm, String.eqb_refl. cbn [andb].
    destruct (at_key p l g) eqn:Ek.
    + unfold at_key in Ek. apply andb_true_iff in Ek. destruct Ek as [Ep El].
      apply String.eqb_eq in Ep, El. subst p l. rewrite Hr.
      rewrite orb_true_r in IH. cbn [List.length]. lia.
    + rewrite orb_false_r in IH. exact IH.
Qed.

Section MergeFacts.

Variable normpath : string -> string.
Variable fs : FileSystem.
Variable anonymize : bool.

Lemma structured_step_messages (findings : list Finding) (res : SemgrepResult) :
  Forall (fun f => message f = structured_message) findings ->
  Forall (fun f => message f = structured_message)
         (structured_step normpath fs anonymize findings res).
Proof.
  intros H. unfold structured_step.
  destruct (negb (PyStr.contains "rsa" (PyStr.lower (get_default (res_message res) ""))));
    [exact H |].
  destruct (res_line res); apply Forall_app; split; auto; constructor; auto.
Qed.

Lemma structured_loop_messages (results : list SemgrepResult) :
  forall findings,
    Forall (fun f => message f = structured_message) findings ->
    Forall (fun f => message f = structured_message)
           (fold_left (structured_step normpath fs anonymize) results findings).
Proof.
  induction results as [| r rest IH]; intros findings H; cbn [fold_left]; [exact H |].
  apply IH. apply structured_step_messages. exact H.
Qed.

(** The fallback pass keeps what it was given and adds fresh findings
    only. *)
Lemma fallback_line_fresh (seen tail : list Finding) (p : string) (idx : Z) (text : string) :
  fresh seen tail ->
  exists tail',
    fallback_line normpath anonymize p (seen ++ tail) idx text = (seen ++ tail')%list
    /\ fresh seen tail'.
Proof.
  intros Hf. unfold fallback_line.
  destruct (PyStr.contains "rsa" (PyStr.lower text)); [| exists tail; auto].
  destruct (already_reported (seen ++ tail) p (PyStr.str_of_Z idx)) eqn:E;
    [exists tail; auto |].
  eexists (tail ++ [_])%list. split; [rewrite app_assoc; reflexivity |].
  apply fresh_snoc; [exact Hf | reflexivity | exact E].
Qed.

Lemma fallback_lines_fresh (seen : list Finding) (p : string) (lines : list string) :
  forall idx tail,
    fresh seen tail ->
    exists tail',
      fallback_lines normpath anonymize p lines idx (seen ++ tail) = (seen ++ tail')%list
      /\ fresh seen tail'.
Proof.
  induction lines as [| l rest IH]; intros idx tail Hf; cbn [fallback_lines].
  - exists tail. auto.
  - destruct (fallback_line_fresh seen tail p idx l Hf) as [tail1 [E1 H1]].
    rewrite E1. apply IH. exact H1.
Qed.

Lemma fallback_loop_fresh (seen : list Finding) (files : list string) :
  forall tail,
    fresh seen tail ->
    exists tail',
      fold_left (fallback_file normpath fs anonymize) files (seen ++ tail)%list
      = (seen ++ tail')%list
      /\ fresh seen tail'.
Proof.
  induction files as [| p rest IH]; intros tail Hf; cbn [fold_left].
  - exists tail. auto.
  - unfold fallback_file at 2. destruct (read fs p) as [text | e].
    + destruct (fallback_lines_fresh seen p (readlines text) 1 tail Hf) as [tail1 [E1 H1]].
      rewrite E1. apply IH. exact H1.
    + apply IH. exact Hf.
Qed.

End MergeFacts.

Lemma scan_codebase_shape (normpath : string -> string)
  (run_semgrep : list string -> string -> option (list SemgrepResult))
  (fs : FileSystem) (root : string) (root_ok : bool) (files : list string)
  (cfg : ScanConfig) :
  exists structured tail,
    fst (scan_codebase normpath run_semgrep fs root root_ok files cfg)
    = (structured ++ tail)%list
    /\ Forall (fun f => message f = structured_message) structured
    /\ fresh structured tail.
Proof.
  unfold scan_codebase.
  destruct root_ok; [| exists [], []; cbn; auto].
  destruct files as [| f rest]; [exists [], []; cbn; auto |].
  destruct (cfg_dry_run cfg); [exists [], []; cbn; auto |].
  cbn [negb fst].
  set (structured := fold_left (structured_step normpath fs (cfg_anonymize cfg))
                       (semgrep_results run_semgrep (f :: rest) (cfg_rule_file cfg)) []).
  destruct (fallback_loop_fresh normpath fs (cfg_anonymize cfg) structured (f :: rest) [] I)
    as [tail [E H]].
  rewrite app_nil_r in E.
  exists structured, tail. split; [exact E |]. split; [| exact H].
  apply structured_loop_messages. constructor.
Qed.

(** C5 (amended): in the list [scan_codebase] returns, at most one
    raw-text fallback finding sits at any (real path, line) key, and none
    sits at a key where a structured finding sits: structured findings
    have priority.  (Structured findings themselves are appended one per
    retained analyzer result.) *)
Theorem fallback_findings_are_deduplicated (normpath : string -> string)
  (run_semgrep : list string -> string -> option (list SemgrepResult))
  (fs : FileSystem) (root : string) (root_ok : bool) (files : list string)
  (cfg : ScanConfig) (p l : string) :
  (count_at fallback_message p l
     (fst (scan_codebase normpath run_semgrep fs root root_ok files cfg)) <= 1)%nat
  /\ ((1 <= count_at structured_message p l
             (fst (scan_codebase normpath run_semgrep fs root root_ok files cfg)))%nat ->
      count_at fallback_message p l
        (fst (scan_codebase normpath run_semgrep fs root root_ok files cfg)) = 0%nat).
Proof.
  destruct (scan_codebase_shape normpath run_semgrep fs root root_ok files cfg)
    as (structured & tail & E & Hs & Hf).
  rewrite E. rewrite !count_at_app.
  rewrite (count_at_other_message fallback_message structured_message p l structured
             eq_refl Hs).
  rewrite (count_at_other_message structured_message fallback_message p l tail
             eq_refl (fresh_messages tail structured Hf)).
  pose proof (fresh_count p l tail structured Hf) as Hc.
  split.
  - destruct (already_reported structured p l); lia.
  - intros H1. rewrite Nat.add_0_r in H1.
    rewrite (count_at_reported _ _ _ _ H1) in Hc. lia.
Qed.

Lemma fallback_findings_are_deduplicated_witness :
  count_at fallback_message "a.py" "2"
    (fst (scan_codebase (fun p => p) two_rules_one_line (disk three_files) "." true
            ["a.py"] sample_config)) = 0%nat.
Proof.
  apply (fallback_findings_are_deduplicated (fun p => p) two_rules_one_line
           (disk three_files) "." true ["a.py"] sample_config "a.py" "2").
  vm_compute. lia.
Defined.

(** Two analyzer results on the same line of the same file: two
    structured findings sit at one key. *)
Lemma structured_findings_counterexample :
  count_at structured_message "a.py" "2"
    (fst (scan_codebase (fun p => p) two_rules_one_line (disk three_files) "." true
            ["a.py"] sample_config)) = 2%nat.
Proof. vm_compute. reflexivity. Qed.

(** ** The enumeration of the candidate files *)

Lemma prefix_app_l (p a b : string) :
  String.prefix p a = true -> String.prefix p (a ++ b) = true.
Proof.
  revert a. induction p as [| c p IH]; intros a H; [destruct (a ++ b); reflexivity |].
  destruct a as [| c' a]; [discriminate |].
  cbn [String.prefix append] in *. destruct (ascii_dec c c'); [| discriminate].
  apply IH. exact H.
Qed.

Lemma contains_prefix (p s : string) :
  String.prefix p s = true -> PyStr.contains p s = true.
Proof. intros H. destruct s; cbn [PyStr.contains]; rewrite H; reflexivity. Qed.

Lemma contains_app_l (p a b : string) :
  PyStr.contains p a = true -> PyStr.contains p (a ++ b) = true.
Proof.
  induction a as [| c a IH]; intros H.
  - cbn [PyStr.contains] in H. destruct (String.prefix p "") eqn:E; [| discriminate].
    apply contains_prefix. apply (prefix_app_l p "" b E).
  - cbn [PyStr.contains] in H.
    destruct (String.prefix p (String c a)) eqn:E.
    + apply contains_prefix. apply prefix_app_l. exact E.
    + cbn [append PyStr.contains]. rewrite (IH H).
      destruct (String.prefix p (String c (a ++ b))); reflexivity.
Qed.



Lemma path_join_contains_dir (p a b : string) :
  String.prefix "/" b = false ->
  PyStr.contains p a = true -> PyStr.contains p (path_join a b) = true.
Proof.
  intros Hb H. unfold path_join. rewrite Hb.
  destruct (orb (String.eqb a "") (ends_with_slash a)); apply contains_app_l; exact H.
Qed.

Section WalkFacts.

Variable fnmatch : string -> string -> bool.

Lemma walk_files_Dir (include exclude : list string) (dirpath : string)
  (subdirs : list (string * dir)) (files : list string) :
  walk_files fnmatch include exclude dirpath (Dir subdirs files)
  = (map (path_join dirpath) (filter (fun f => should_include fnmatch f include) files)
     ++ walk_below fnmatch (walk_files fnmatch include exclude) exclude dirpath subdirs)%list.
Proof. reflexivity. Qed.


Lemma should_exclude_substring (dir_path pattern : string) (patterns : list string) :
  In pattern patterns -> PyStr.contains pattern dir_path = true ->
  should_exclude fnmatch dir_path patterns = true.
Proof.
  intros Hin Hc. unfold should_exclude. apply existsb_exists.
  exists pattern. split; [exact Hin |]. rewrite Hc. reflexivity.
Qed.


(** X2: the exclude test is a substring test on the whole joined path, so
    when the root path itself contains an exclude pattern every
    sub-directory is pruned: the candidates are the matching files that
    sit directly in the root. *)
Theorem root_matching_an_exclude_prunes_every_subdirectory
  (include exclude : list string) (root_path pattern : string)
  (subdirs : list (string * dir)) (files : list string) :
  In pattern exclude ->
  PyStr.contains pattern root_path = true ->
  Forall (fun entry => String.prefix "/" (fst entry) = false) subdirs ->
  walk_files fnmatch include exclude root_path (Dir subdirs files)
  = map (path_join root_path) (filter (fun f => should_include fnmatch f include) files).
Proof.
  intros Hin Hc Hnames. rewrite walk_files_Dir.
  assert (Hb : walk_below fnmatch (walk_files fnmatch include exclude) exclude
                 root_path subdirs = []).
  { induction Hnames as [| [name sub] rest Hname _ IH]; [reflexivity |].
    cbn [walk_below]. cbn [fst] in Hname.
    rewrite (should_exclude_substring (path_join root_path name) pattern);
      [exact IH | exact Hin |].
    apply path_join_contains_dir; assumption. }
  rewrite Hb. apply app_nil_r.
Qed.




End WalkFacts.


Lemma root_matching_an_exclude_prunes_every_subdirectory_witness :
  walk_files fnmatch_wildcards ["*.py"] default_excludes "/home/dev/venv_tools"
    (Dir [("src", Dir [] ["app.py"])] ["setup.py"])
  = ["/home/dev/venv_tools/setup.py"].
Proof.
  rewrite (root_matching_an_exclude_prunes_every_subdirectory fnmatch_wildcards
             ["*.py"] default_excludes "/home/dev/venv_tools" "venv"
             [("src", Dir [] ["app.py"])] ["setup.py"]).
  - vm_compute. reflexivity.
  - simpl; auto.
  - vm_compute. reflexivity.
  - repeat constructor.
Defined.


(** ** The scan: coverage, degradation, batching, snippets *)

Section ScanFacts.

Variable normpath : string -> string.
Variable fs : FileSystem.
Variable anonymize : bool.

Lemma fallback_line_extends (findings : list Finding) (p : string) (idx : Z) (text : string) :
  exists tail,
    fallback_line normpath anonymize p findings idx text = (findings ++ tail)%list.
Proof.
  unfold fallback_line.
  destruct (PyStr.contains "rsa" (PyStr.lower text)); [| exists []; symmetry; apply app_nil_r].
  destruct (already_reported findings p (PyStr.str_of_Z idx));
    [exists []; symmetry; apply app_nil_r |].
  eexists. reflexivity.
Qed.

Lemma fallback_lines_extends (p : string) (lines : list string) :
  forall idx findings,
    exists tail,
      fallback_lines normpath anonymize p lines idx findings = (findings ++ tail)%list.
Proof.
  induction lines as [| l rest IH]; intros idx findings; cbn [fallback_lines].
  - exists []. symmetry. apply app_nil_r.
  - destruct (fallback_line_extends findings p idx l) as [t1 E1]. rewrite E1.
    destruct (IH (idx + 1)%Z (findings ++ t1)%list) as [t2 E2]. rewrite E2.
    exists (t1 ++ t2)%list. symmetry. apply app_assoc.
Qed.

Lemma fallback_file_extends (findings : list Finding) (p : string) :
  exists tail, fallback_file normpath fs anonymize findings p = (findings ++ tail)%list.
Proof.
  unfold fallback_file. destruct (read fs p) as [text | e].
  - apply fallback_lines_extends.
  - exists []. symmetry. apply app_nil_r.
Qed.

Lemma fallback_loop_extends (files : list string) :
  forall findings,
    exists tail,
      fold_left (fallback_file normpath fs anonymize) files findings = (findings ++ tail)%list.
Proof.
  induction files as [| p rest IH]; intros findings; cbn [fold_left].
  - exists []. symmetry. apply app_nil_r.
  - destruct (fallback_file_extends findings p) as [t1 E1]. rewrite E1.
    destruct (IH (findings ++ t1)%list) as [t2 E2]. rewrite E2.
    exists (t1 ++ t2)%list. symmetry. apply app_assoc.
Qed.

Lemma reported_extends (findings tail : list Finding) (p l : string) :
  already_reported findings p l = true -> already_reported (findings ++ tail) p l = true.
Proof. intros H. rewrite already_reported_app, H. reflexivity. Qed.

(** After the turn of a line that mentions rsa, its key is reported. *)
Lemma fallback_line_reports (findings : list Finding) (p : string) (idx : Z) (text : string) :
  PyStr.contains "rsa" (PyStr.lower text) = true ->
  already_reported (fallback_line normpath anonymize p findings idx text)
                   p (PyStr.str_of_Z idx) = true.
Proof.
  intros H. unfold fallback_line. rewrite H.
  destruct (already_reported findings p (PyStr.str_of_Z idx)) eqn:E; [exact E |].
  rewrite already_reported_app. apply orb_true_iff. right.
  unfold already_reported. cbn [existsb real_path line].
  rewrite !String.eqb_refl. reflexivity.
Qed.

Lemma fallback_lines_reports (p : string) (lines : list string) :
  forall idx findings n l,
    nth_error lines n = Some l ->
    PyStr.contains "rsa" (PyStr.lower l) = true ->
    already_reported (fallback_lines normpath anonymize p lines idx findings)
                     p (PyStr.str_of_Z (idx + Z.of_nat n)) = true.
Proof.
  induction lines as [| l0 rest IH]; intros idx findings n l Hn Hl.
  - destruct n; discriminate.
  - cbn [fallback_lines]. destruct n as [| n].
    + cbn in Hn. injection Hn as ->. rewrite Z.add_0_r.
      destruct (fallback_lines_extends p rest (idx + 1)%Z
                  (fallback_line normpath anonymize p findings idx l)) as [t E].
      rewrite E. apply reported_extends. apply fallback_line_reports. exact Hl.
    + cbn in Hn.
      replace (idx + Z.of_nat (S n))%Z with ((idx + 1) + Z.of_nat n)%Z by lia.
      eapply IH; eassumption.
Qed.

Lemma fallback_loop_reports (files : list string) :
  forall findings p text n l,
    In p files ->
    read fs p = Return text ->
    nth_error (readlines text) n = Some l ->
    PyStr.contains "rsa" (PyStr.lower l) = true ->
    already_reported (fold_left (fallback_file normpath fs anonymize) files findings)
                     p (PyStr.str_of_Z (Z.of_nat n + 1)) = true.
Proof.
  induction files as [| q rest IH]; intros findings p text n l Hin Hr Hn Hl;
    [contradiction |].
  cbn [fold_left]. destruct Hin as [-> | Hin].
  - destruct (fallback_loop_extends rest (fallback_file normpath fs anonymize findings p))
      as [t E].
    rewrite E. apply reported_extends.
    unfold fallback_file. rewrite Hr.
    replace (Z.of_nat n + 1)%Z with (1 + Z.of_nat n)%Z by lia.
    eapply fallback_lines_reports; eassumption.
  - eapply IH; eassumption.
Qed.

(** The raw-text pass adds findings of the candidates only. *)
Lemma fallback_line_of (files : list string) (findings : list Finding) (p : string)
  (idx : Z) (text : string) :
  In p files ->
  Forall (fallback_of files) findings ->
  Forall (fallback_of files) (fallback_line normpath anonymize p findings idx text).
Proof.
  intros Hin H. unfold fallback_line.
  destruct (PyStr.contains "rsa" (PyStr.lower text)); [| exact H].
  destruct (already_reported findings p (PyStr.str_of_Z idx)); [exact H |].
  apply Forall_app. split; [exact H |]. constructor; [| constructor].
  unfold fallback_of. cbn. auto.
Qed.

Lemma fallback_lines_of (files : list string) (p : string) (lines : list string) :
  In p files ->
  forall idx findings,
    Forall (fallback_of files) findings ->
    Forall (fallback_of files) (fallback_lines normpath anonymize p lines idx findings).
Proof.
  intros Hin. induction lines as [| l rest IH]; intros idx findings H;
    cbn [fallback_lines]; [exact H |].
  apply IH. apply fallback_line_of; assumption.
Qed.

Lemma fallback_loop_of (files : list string) (todo : list string) :
  (forall p, In p todo -> In p files) ->
  forall findings,
    Forall (fallback_of files) findings ->
    Forall (fallback_of files)
           (fold_left (fallback_file normpath fs anonymize) todo findings).
Proof.
  induction todo as [| p rest IH]; intros Hsub findings H; cbn [fold_left]; [exact H |].
  apply IH; [intros q Hq; apply Hsub; right; exact Hq |].
  unfold fallback_file. destruct (read fs p); [| exact H].
  apply fallback_lines_of; [apply Hsub; left; reflexivity | exact H].
Qed.

Lemma structured_loop_nil (findings : list Finding) :
  fold_left (structured_step normpath fs anonymize) [] findings = findings.
Proof. reflexivity. Qed.

End ScanFacts.

(** X4: outside the scan's dry-run mode, every line that mentions rsa (in
    any letter case) in a candidate file that can be read is reported:
    the findings hold an entry at the file's real path and that line
    number, whatever the analyzer returned. *)
Theorem every_rsa_line_of_a_readable_candidate_is_reported
  (normpath : string -> string)
  (run_semgrep : list string -> string -> option (list SemgrepResult))
  (fs : FileSystem) (root : string) (files : list string) (cfg : ScanConfig)
  (p text : string) (n : nat) (l : string) :
  cfg_dry_run cfg = false ->
  In p files ->
  read fs p = Return text ->
  nth_error (readlines text) n = Some l ->
  PyStr.contains "rsa" (PyStr.lower l) = true ->
  already_reported (fst (scan_codebase normpath run_semgrep fs root true files cfg))
                   p (PyStr.str_of_Z (Z.of_nat n + 1)) = true.
Proof.
  intros Hdry Hin Hr Hn Hl. unfold scan_codebase. cbn [negb].
  destruct files as [| f rest]; [contradiction |].
  rewrite Hdry. cbn [fst].
  eapply fallback_loop_reports; eassumption.
Qed.

Lemma every_rsa_line_of_a_readable_candidate_is_reported_witness :
  already_reported
    (fst (scan_codebase (fun p => p) two_rules_one_line four_lines "." true
            ["k.py"] sample_config))
    "k.py" "4" = true.
Proof.
  apply (every_rsa_line_of_a_readable_candidate_is_reported (fun p => p)
           two_rules_one_line four_lines "." ["k.py"] sample_config "k.py"
           ("import os" ++ nl ++ "import rsa" ++ nl ++ "k = 1" ++ nl ++ "rsa.newkeys(512)")
           3 "rsa.newkeys(512)").
  - reflexivity.
  - simpl; auto.
  - vm_compute. reflexivity.
  - vm_compute. reflexivity.
  - vm_compute. reflexivity.
Defined.

(** X5: when the analyzer gives nothing (no rule file, no semgrep, a
    failed run: [run_semgrep] returns [{}] for every batch), the scan
    still returns the raw-text findings: every finding is an "Unmatched
    RSA reference" of risk "Review" on one of the candidate files. *)
Theorem without_analyzer_every_finding_is_a_text_match
  (normpath : string -> string)
  (run_semgrep : list string -> string -> option (list SemgrepResult))
  (fs : FileSystem) (root : string) (root_ok : bool) (files : list string)
  (cfg : ScanConfig) :
  (forall batch rule_file, run_semgrep batch rule_file = None) ->
  Forall (fallback_of files)
         (fst (scan_codebase normpath run_semgrep fs root root_ok files cfg)).
Proof.
  intros Hnone. unfold scan_codebase.
  destruct root_ok; [| constructor].
  destruct files as [| f rest]; [constructor |].
  destruct (cfg_dry_run cfg); [constructor |].
  cbn [negb fst].
  assert (Hres : semgrep_results run_semgrep (f :: rest) (cfg_rule_file cfg) = []).
  { unfold semgrep_results.
    destruct (List.length (f :: rest) <=? batch_size)%nat; [rewrite Hnone; reflexivity |].
    assert (Hb : forall fuel l, batches run_semgrep fuel l (cfg_rule_file cfg) = []).
    { intros fuel. induction fuel as [| fuel IH]; intros l; [reflexivity |].
      cbn [batches]. destruct l; [reflexivity |]. rewrite Hnone, IH. reflexivity. }
    apply Hb. }
  rewrite Hres, structured_loop_nil.
  apply fallback_loop_of; [auto | constructor].
Qed.

Lemma without_analyzer_every_finding_is_a_text_match_witness :
  Forall (fallback_of ["a.py"; "b.py"; "c.py"])
         (fst (scan_codebase (fun p => p) no_analyzer (disk three_files) "." true
                 ["a.py"; "b.py"; "c.py"] sample_config))
  /\ List.length (fst (scan_codebase (fun p => p) no_analyzer (disk three_files) "." true
                         ["a.py"; "b.py"; "c.py"] sample_config)) = 5%nat.
Proof.
  split.
  - apply (without_analyzer_every_finding_is_a_text_match (fun p => p) no_analyzer
             (disk three_files) "." true ["a.py"; "b.py"; "c.py"] sample_config).
    reflexivity.
  - vm_compute. reflexivity.
Defined.

(** The batches cover the file list once, in order. *)
Lemma batches_one_run
  (run_semgrep : list string -> string -> option (list SemgrepResult)) (rule_file : string) :
  (forall a b,
      get_default (run_semgrep (a ++ b)%list rule_file) []
      = (get_default (run_semgrep a rule_file) []
         ++ get_default (run_semgrep b rule_file) [])%list) ->
  forall fuel files,
    (List.length files <= fuel)%nat ->
    batches run_semgrep fuel files rule_file = get_default (run_semgrep files rule_file) [].
Proof.
  intros Hadd.
  assert (Hnil : get_default (run_semgrep [] rule_file) [] = []).
  { pose proof (Hadd [] []) as H. cbn [app] in H.
    apply (f_equal (@List.length SemgrepResult)) in H. rewrite length_app in H.
    destruct (get_default (run_semgrep [] rule_file) []); [reflexivity | cbn in H; lia]. }
  induction fuel as [| fuel IH]; intros files Hlen.
  - destruct files; [| cbn in Hlen; lia]. cbn [batches]. symmetry. exact Hnil.
  - cbn [batches]. destruct files as [| f rest]; [symmetry; exact Hnil |].
    rewrite IH.
    + rewrite <- (firstn_skipn batch_size (f :: rest)) at 3.
      rewrite Hadd. reflexivity.
    + rewrite length_skipn. cbn [List.length] in *. unfold batch_size. lia.
Qed.

(** X6: batching loses and repeats nothing.  For an analyzer whose result
    for a list of files is the results for its parts put together, the
    results gathered over the batches of 100 files are those of one run on
    the whole list, for a list of any length. *)
Theorem batching_agrees_with_one_run
  (run_semgrep : list string -> string -> option (list SemgrepResult))
  (files : list string) (rule_file : string) :
  (forall a b,
      get_default (run_semgrep (a ++ b)%list rule_file) []
      = (get_default (run_semgrep a rule_file) []
         ++ get_default (run_semgrep b rule_file) [])%list) ->
  semgrep_results run_semgrep files rule_file
  = get_default (run_semgrep files rule_file) [].
Proof.
  intros Hadd. unfold semgrep_results.
  destruct (List.length files <=? batch_size)%nat; [reflexivity |].
  apply batches_one_run; [exact Hadd | lia].
Qed.

Lemma batching_agrees_with_one_run_witness :
  semgrep_results one_result_per_file many_files "rsa_rules.yml"
  = map result_for many_files.
Proof.
  apply (batching_agrees_with_one_run one_result_per_file many_files "rsa_rules.yml").
  intros a b. unfold one_result_per_file. cbn [get_default]. apply map_app.
Defined.

(** [lines[i]] inside and outside the list. *)
Lemma py_index_nonneg (lines : list string) (i : Z) :
  (0 <= i < Z.of_nat (List.length lines))%Z ->
  exists l, nth_error lines (Z.to_nat i) = Some l /\ py_index lines i = Return l.
Proof.
  intros H. unfold py_index. cbv zeta.
  destruct (Z.ltb_spec i 0); [lia |].
  destruct (Z.ltb_spec i 0); [lia |].
  destruct (Z.leb_spec (Z.of_nat (List.length lines)) i); [lia |].
  cbn [orb].
  destruct (nth_error lines (Z.to_nat i)) as [l |] eqn:E.
  - exists l. auto.
  - apply nth_error_None in E. lia.
Qed.

Lemma py_index_wraps (lines : list string) (i : Z) :
  (- Z.of_nat (List.length lines) <= i < 0)%Z ->
  py_index lines i = py_index lines (i + Z.of_nat (List.length lines)).
Proof.
  intros H.
  assert (E1 : (i <? 0)%Z = true) by (apply Z.ltb_lt; lia).
  assert (E2 : (i + Z.of_nat (List.length lines) <? 0)%Z = false) by (apply Z.ltb_ge; lia).
  unfold py_index. cbv zeta. repeat (rewrite E1 || rewrite E2). reflexivity.
Qed.

Lemma py_index_below (lines : list string) (i : Z) :
  (i < - Z.of_nat (List.length lines))%Z ->
  py_index lines i = Raise "list index out of range".
Proof.
  intros H.
  assert (E1 : (i <? 0)%Z = true) by (apply Z.ltb_lt; lia).
  assert (E2 : (i + Z.of_nat (List.length lines) <? 0)%Z = true) by (apply Z.ltb_lt; lia).
  unfold py_index. cbv zeta. repeat (rewrite E1 || rewrite E2). reflexivity.
Qed.

(** X7: the snippet of a structured finding, by the line number the
    analyzer reports, for a file that reads as [text].  A number from 1 to
    the number of lines gives that line without its line end; a number
    beyond the end gives the empty snippet.  A number of 0 or below is not
    rejected: it indexes the lines from the end (0 gives the last line),
    and gives the empty snippet only once it runs past the first line. *)
Theorem code_snippet_by_line_number (fs : FileSystem) (file_path text : string)
  (line_num : Z) :
  read fs file_path = Return text ->
  ((1 <= line_num <= Z.of_nat (List.length (readlines text)))%Z ->
   exists l,
     nth_error (readlines text) (Z.to_nat (line_num - 1)) = Some l
     /\ code_snippet fs file_path line_num = PyStr.rstrip_by is_newline l)
  /\ ((Z.of_nat (List.length (readlines text)) < line_num)%Z ->
      code_snippet fs file_path line_num = "")
  /\ ((- Z.of_nat (List.length (readlines text)) < line_num <= 0)%Z ->
      code_snippet fs file_path line_num
      = code_snippet fs file_path (line_num + Z.of_nat (List.length (readlines text))))
  /\ ((line_num <= - Z.of_nat (List.length (readlines text)))%Z ->
      code_snippet fs file_path line_num = "").
Proof.
  intros Hr. unfold code_snippet. rewrite Hr. cbv zeta.
  split; [| split; [| split]]; intros H.
  - destruct (Z.leb_spec line_num (Z.of_nat (List.length (readlines text)))); [| lia].
    destruct (py_index_nonneg (readlines text) (line_num - 1)) as [l [Hn Hi]]; [lia |].
    exists l. rewrite Hi. auto.
  - destruct (Z.leb_spec line_num (Z.of_nat (List.length (readlines text)))); [lia |].
    reflexivity.
  - destruct (Z.leb_spec line_num (Z.of_nat (List.length (readlines text)))); [| lia].
    destruct (Z.leb_spec (line_num + Z.of_nat (List.length (readlines text)))
                         (Z.of_nat (List.length (readlines text)))); [| lia].
    rewrite (py_index_wraps (readlines text) (line_num - 1)) by lia.
    replace (line_num - 1 + Z.of_nat (List.length (readlines text)))%Z
      with (line_num + Z.of_nat (List.length (readlines text)) - 1)%Z by lia.
    reflexivity.
  - destruct (Z.leb_spec line_num (Z.of_nat (List.length (readlines text)))); [| lia].
    rewrite py_index_below by lia. reflexivity.
Qed.

Lemma code_snippet_by_line_number_witness :
  code_snippet four_lines "k.py" 2 = "import rsa"
  /\ code_snippet four_lines "k.py" 5 = ""
  /\ code_snippet four_lines "k.py" 0 = code_snippet four_lines "k.py" 4
  /\ code_snippet four_lines "k.py" (-4) = "".
Proof.
  split; [| split; [| split]].
  - destruct (code_snippet_by_line_number four_lines "k.py"
                ("import os" ++ nl ++ "import rsa" ++ nl ++ "k = 1" ++ nl ++ "rsa.newkeys(512)")
                2 eq_refl) as (H & _).
    destruct (H ltac:(vm_compute; split; discriminate)) as [l [Hl E]].
    rewrite E. vm_compute in Hl. injection Hl as <-. vm_compute. reflexivity.
  - destruct (code_snippet_by_line_number four_lines "k.py"
                ("import os" ++ nl ++ "import rsa" ++ nl ++ "k = 1" ++ nl ++ "rsa.newkeys(512)")
                5 eq_refl) as (_ & H & _).
    apply H. vm_compute. reflexivity.
  - destruct (code_snippet_by_line_number four_lines "k.py"
                ("import os" ++ nl ++ "import rsa" ++ nl ++ "k = 1" ++ nl ++ "rsa.newkeys(512)")
                0 eq_refl) as (_ & _ & H & _).
    apply H. vm_compute. split; [reflexivity | discriminate].
  - destruct (code_snippet_by_line_number four_lines "k.py"
                ("import os" ++ nl ++ "import rsa" ++ nl ++ "k = 1" ++ nl ++ "rsa.newkeys(512)")
                (-4) eq_refl) as (_ & _ & _ & H).
    apply H. vm_compute. discriminate.
Defined.

(** X9: whatever the analyzer reports and whatever the files hold, every
    finding of the scan gets the RSA recommendation of the final report:
    both messages the scan writes mention rsa, so the report's "Review the
    finding." is never chosen for a finding of the scan. *)
Theorem every_scan_finding_gets_the_rsa_recommendation
  (normpath : string -> string)
  (run_semgrep : list string -> string -> option (list SemgrepResult))
  (fs : FileSystem) (root : string) (root_ok : bool) (files : list string)
  (cfg : ScanConfig) (total vulnerable : Z) (done : bool) :
  recommendations
    (generate_final_report total vulnerable
       (fst (scan_codebase normpath run_semgrep fs root root_ok files cfg)) done)
  = repeat rsa_recommendation
      (List.length (fst (scan_codebase normpath run_semgrep fs root root_ok files cfg))).
Proof.
  destruct (scan_codebase_shape normpath run_semgrep fs root root_ok files cfg)
    as (structured & tail & E & Hs & Hf).
  rewrite E. cbn [generate_final_report recommendations].
  pose proof (fresh_messages tail structured Hf) as Ht.
  assert (Hall : Forall (fun f => get_recommendation f = rsa_recommendation)
                        (structured ++ tail)).
  { apply Forall_app. split.
    - eapply Forall_impl; [| exact Hs]. intros f Hm. unfold get_recommendation.
      rewrite Hm. reflexivity.
    - eapply Forall_impl; [| exact Ht]. intros f Hm. unfold get_recommendation.
      rewrite Hm. reflexivity. }
  revert Hall. generalize (structured ++ tail)%list. intros l Hall.
  induction Hall as [| f rest Hf' _ IH]; [reflexivity |].
  cbn [map List.length repeat]. rewrite Hf', IH. reflexivity.
Qed.

(** [s.split("/")] on a text without separator, and across one. *)
Lemma split_on_plain (s : string) :
  has_sep s = false -> forall cur, split_on "/"%char s cur = [cur ++ s].
Proof.
  induction s as [| c r IH]; intros H cur; cbn [split_on].
  - rewrite append_nil_r. reflexivity.
  - cbn [has_sep] in H. apply orb_false_iff in H. destruct H as [Hc Hr].
    rewrite Hc. rewrite (IH Hr). rewrite append_assoc. reflexivity.
Qed.

Lemma split_on_sep (a b : string) :
  forall cur,
    split_on "/"%char (a ++ String "/"%char b) cur
    = (split_on "/"%char a cur ++ split_on "/"%char b "")%list.
Proof.
  induction a as [| c r IH]; intros cur; cbn [append split_on].
  - reflexivity.
  - destruct (Ascii.eqb c "/"%char).
    + rewrite IH. reflexivity.
    + apply IH.
Qed.

(** X8: what the report shows for a path when [anonymize] is set.  A
    normalised path with at least one separator is cut to its last two
    segments, so files of different directories can be shown alike; a
    path whose normalised form has no separator is shown as it was given,
    not normalised. *)
Theorem anonymize_path_keeps_the_last_two_segments
  (normpath : string -> string) (full_path : string) :
  (forall dirs parent name,
      normpath full_path = dirs ++ "/" ++ parent ++ "/" ++ name ->
      has_sep parent = false -> has_sep name = false ->
      anonymize_path normpath full_path = parent ++ "/" ++ name)
  /\ (forall parent name,
        normpath full_path = parent ++ "/" ++ name ->
        has_sep parent = false -> has_sep name = false ->
        anonymize_path normpath full_path = parent ++ "/" ++ name)
  /\ (has_sep (normpath full_path) = false ->
      anonymize_path normpath full_path = full_path).
Proof.
  unfold anonymize_path. cbv zeta. split; [| split].
  - intros dirs parent name E Hp Hn. rewrite E.
    change (dirs ++ "/" ++ parent ++ "/" ++ name)
      with (dirs ++ String "/"%char (parent ++ String "/"%char name)).
    rewrite !split_on_sep, (split_on_plain parent Hp), (split_on_plain name Hn).
    cbn [append app].
    rewrite !length_app. cbn [List.length].
    destruct (Nat.leb_spec 2 (List.length (split_on "/"%char dirs "") + 2)); [| lia].
    replace (List.length (split_on "/"%char dirs "") + 2 - 2)%nat
      with (List.length (split_on "/"%char dirs "") + 0)%nat by lia.
    rewrite skipn_app, skipn_all2 by lia.
    replace (List.length (split_on "/"%char dirs "") + 0
             - List.length (split_on "/"%char dirs ""))%nat with 0%nat by lia.
    reflexivity.
  - intros parent name E Hp Hn. rewrite E.
    change (parent ++ "/" ++ name) with (parent ++ String "/"%char name).
    rewrite split_on_sep, (split_on_plain parent Hp), (split_on_plain name Hn).
    reflexivity.
  - intros H. rewrite (split_on_plain _ H). reflexivity.
Qed.

Lemma anonymize_path_keeps_the_last_two_segments_witness :
  anonymize_path (fun p => p) "/home/dev/billing/src/app.py" = "src/app.py"
  /\ anonymize_path (fun p => p) "/srv/portal/src/app.py" = "src/app.py"
  /\ anonymize_path (fun p => if String.eqb p "./app.py" then "app.py" else p) "./app.py"
     = "./app.py".
Proof.
  split; [| split].
  - destruct (anonymize_path_keeps_the_last_two_segments (fun p => p)
                "/home/dev/billing/src/app.py") as (H & _).
    apply (H "/home/dev/billing" "src" "app.py"); reflexivity.
  - destruct (anonymize_path_keeps_the_last_two_segments (fun p => p)
                "/srv/portal/src/app.py") as (H & _).
    apply (H "/srv/portal" "src" "app.py"); reflexivity.
  - destruct (anonymize_path_keeps_the_last_two_segments
                (fun p => if String.eqb p "./app.py" then "app.py" else p) "./app.py")
      as (_ & _ & H).
    apply H. reflexivity.
Defined.

Lemma structured_step_alone (normpath : string -> string) (fs : FileSystem)
  (anonymize : bool) (findings : list Finding) (res : SemgrepResult) :
  structured_step normpath fs anonymize findings res
  = (findings ++ structured_step normpath fs anonymize [] res)%list.
Proof.
  unfold structured_step.
  destruct (negb (PyStr.contains "rsa" (PyStr.lower (get_default (res_message res) ""))));
    [symmetry; apply app_nil_r |].
  destruct (res_line res); reflexivity.
Qed.

Lemma structured_loop_alone (normpath : string -> string) (fs : FileSystem)
  (anonymize : bool) (results : list SemgrepResult) :
  forall findings,
    fold_left (structured_step normpath fs anonymize) results findings
    = (findings ++ flat_map (structured_step normpath fs anonymize []) results)%list.
Proof.
  induction results as [| r rest IH]; intros findings; cbn [fold_left flat_map].
  - symmetry. apply app_nil_r.
  - rewrite IH, structured_step_alone, <- app_assoc. reflexivity.
Qed.

(** X19: outside the scan's dry-run mode the findings start with the
    structured findings, made one analyzer result at a time in the
    analyzer's order (a result is turned into a finding, or dropped when
    its message does not mention rsa, without looking at the findings made
    so far), and everything after them is a raw-text finding: the text
    pass only appends. *)
Theorem structured_findings_come_first_in_analyzer_order
  (normpath : string -> string)
  (run_semgrep : list string -> string -> option (list SemgrepResult))
  (fs : FileSystem) (root : string) (files : list string) (cfg : ScanConfig) :
  cfg_dry_run cfg = false ->
  files <> [] ->
  exists tail,
    fst (scan_codebase normpath run_semgrep fs root true files cfg)
    = (flat_map (structured_step normpath fs (cfg_anonymize cfg) [])
                (semgrep_results run_semgrep files (cfg_rule_file cfg))
       ++ tail)%list
    /\ Forall (fun g => message g = fallback_message /\ risk g = Review) tail.
Proof.
  intros Hdry Hfiles. unfold scan_codebase. cbn [negb].
  destruct files as [| f rest]; [contradiction |].
  rewrite Hdry. cbn [fst].
  rewrite structured_loop_alone. cbn [app].
  set (structured := flat_map _ _).
  assert (H : forall todo seen tail,
            Forall (fun g => message g = fallback_message /\ risk g = Review) tail ->
            exists tail',
              fold_left (fallback_file normpath fs (cfg_anonymize cfg)) todo
                        (seen ++ tail)%list = (seen ++ tail')%list
              /\ Forall (fun g => message g = fallback_message /\ risk g = Review) tail').
  { induction todo as [| p todo IH]; intros seen tail Ht; cbn [fold_left];
      [exists tail; auto |].
    unfold fallback_file at 2. destruct (read fs p) as [text | e]; [| apply IH; exact Ht].
    assert (Hl : forall lines idx tail0,
              Forall (fun g => message g = fallback_message /\ risk g = Review) tail0 ->
              exists tail1,
                fallback_lines normpath (cfg_anonymize cfg) p lines idx (seen ++ tail0)%list
                = (seen ++ tail1)%list
                /\ Forall (fun g => message g = fallback_message /\ risk g = Review) tail1).
    { induction lines as [| l lines IHl]; intros idx tail0 Ht0; cbn [fallback_lines];
        [exists tail0; auto |].
      unfold fallback_line.
      destruct (PyStr.contains "rsa" (PyStr.lower l)); [| apply IHl; exact Ht0].
      destruct (already_reported (seen ++ tail0) p (PyStr.str_of_Z idx));
        [apply IHl; exact Ht0 |].
      rewrite <- app_assoc. apply IHl. apply Forall_app. split; [exact Ht0 |].
      constructor; [| constructor]. cbn. auto. }
    destruct (Hl (readlines text) 1%Z tail Ht) as (tail1 & E1 & H1).
    rewrite E1. apply IH. exact H1. }
  destruct (H (f :: rest) structured [] (Forall_nil _)) as (tail & E & Ht).
  rewrite app_nil_r in E. exists tail. split; [exact E | exact Ht].
Qed.

Lemma structured_findings_come_first_in_analyzer_order_witness :
  exists tail,
    fst (scan_codebase (fun p => p) two_rules_one_line (disk three_files) "." true
           ["a.py"] sample_config)
    = ([ {| file := "a.py"; real_path := "a.py"; line := "2"; message := "RSA detected";
            risk := High; code := "rsa.encrypt(m, k)" |};
         {| file := "a.py"; real_path := "a.py"; line := "2"; message := "RSA detected";
            risk := Low; code := "rsa.encrypt(m, k)" |} ] ++ tail)%list
    /\ Forall (fun g => message g = fallback_message /\ risk g = Review) tail.
Proof.
  destruct (structured_findings_come_first_in_analyzer_order (fun p => p)
              two_rules_one_line (disk three_files) "." ["a.py"] sample_config eq_refl)
    as (tail & E & Ht); [discriminate |].
  exists tail. split; [| exact Ht]. rewrite E. vm_compute. reflexivity.
Defined.

(** ** The passes of the engine, one by one *)

(** The nodes of a list after a traversal whose visits return a node or
    nothing come from the nodes of the list before. *)
Lemma visit_items_origin (visit : value -> visited) (items : list value) (x : value)
  (cls : string) (fs : list (string * value)) :
  (forall y c f, In y items -> y = VNode c f ->
     visit y = Removed \/ exists c' f', visit y = Replaced (VNode c' f')) ->
  In x (visit_items visit items) -> x = VNode cls fs ->
  exists y c f, In y items /\ y = VNode c f /\ visit y = Replaced x.
Proof.
  intros Hshape Hin Hx. induction items as [| v rest IH]; [contradiction |].
  assert (Hrest : forall y c f, In y rest -> y = VNode c f ->
            visit y = Removed \/ exists c' f', visit y = Replaced (VNode c' f')).
  { intros y c f Hy. apply Hshape. right. exact Hy. }
  assert (Hnext : In x (visit_items visit rest) ->
            exists y c f, In y (v :: rest) /\ y = VNode c f /\ visit y = Replaced x).
  { intros H. destruct (IH Hrest H) as (y & c & f & Hy & Ey & Vy).
    exists y, c, f. split; [right; exact Hy | auto]. }
  destruct v as [| s | z | r | l | c f]; cbn [visit_items] in Hin;
    fold (visit_items visit) in Hin;
    try (destruct Hin as [E | Hin]; [subst x; discriminate | exact (Hnext Hin)]).
  destruct (Hshape (VNode c f) c f (or_introl eq_refl) eq_refl) as [E | (c' & f' & E)];
    rewrite E in Hin.
  - exact (Hnext Hin).
  - destruct Hin as [E' | Hin]; [| exact (Hnext Hin)].
    exists (VNode c f), c, f. split; [left; reflexivity |]. split; [reflexivity |].
    rewrite E, E'. reflexivity.
Qed.

Lemma generic_visit_origin (visit : value -> visited) (fields : list (string * value))
  (x : value) :
  (forall y, child fields y ->
     visit y = Removed \/ exists c' f', visit y = Replaced (VNode c' f')) ->
  child (generic_visit visit fields) x ->
  exists y, child fields y /\ visit y = Replaced x.
Proof.
  intros Hshape Hc. induction fields as [| [name old] rest IH].
  - destruct Hc as [k c f Hin _ | k items c f Hin _ _]; contradiction.
  - assert (Hrest : forall y, child rest y ->
              visit y = Removed \/ exists c' f', visit y = Replaced (VNode c' f')).
    { intros y Hy. apply Hshape. apply child_cons. exact Hy. }
    assert (Hnext : child (generic_visit visit rest) x ->
              exists y, child ((name, old) :: rest) y /\ visit y = Replaced x).
    { intros H. destruct (IH Hrest H) as (y & Hy & Vy).
      exists y. split; [apply child_cons; exact Hy | exact Vy]. }
    assert (Hsplit : forall kv tail,
              child (kv :: tail) x ->
              (exists c f, snd kv = x /\ x = VNode c f)
              \/ (exists items c f, snd kv = VList items /\ In x items /\ x = VNode c f)
              \/ child tail x).
    { intros kv tail H. destruct H as [k c f Hin Ex | k items c f Hin Hx Ex].
      - destruct Hin as [E | Hin]; [left; exists c, f; subst kv; auto |].
        right. right. eapply child_field; eassumption.
      - destruct Hin as [E | Hin]; [right; left; exists items, c, f; subst kv; auto |].
        right. right. eapply child_item; eassumption. }
    destruct old as [| s | z | r | items | c f]; cbn [generic_visit] in Hc;
      fold (generic_visit visit) in Hc.
    + destruct (Hsplit _ _ Hc) as [(c & f & E & Ex) | [(l & c & f & E & _) | H]];
        [cbn in E; subst x; discriminate | discriminate | exact (Hnext H)].
    + destruct (Hsplit _ _ Hc) as [(c & f & E & Ex) | [(l & c & f & E & _) | H]];
        [cbn in E; subst x; discriminate | discriminate | exact (Hnext H)].
    + destruct (Hsplit _ _ Hc) as [(c & f & E & Ex) | [(l & c & f & E & _) | H]];
        [cbn in E; subst x; discriminate | discriminate | exact (Hnext H)].
    + destruct (Hsplit _ _ Hc) as [(c & f & E & Ex) | [(l & c & f & E & _) | H]];
        [cbn in E; subst x; discriminate | discriminate | exact (Hnext H)].
    + destruct (Hsplit _ _ Hc) as [(c & f & E & Ex) | [(l & c & f & E & Hx & Ex) | H]];
        [cbn in E; subst x; discriminate | | exact (Hnext H)].
      cbn [snd] in E. injection E as <-.
      destruct (visit_items_origin visit items x c f) as (y & c0 & f0 & Hy & Ey & Vy);
        [| exact Hx | exact Ex |].
      * intros y c0 f0 Hy Ey. apply Hshape.
        eapply child_item; [left; reflexivity | exact Hy | exact Ey].
      * exists y. split; [| exact Vy].
        eapply child_item; [left; reflexivity | exact Hy | exact Ey].
    + assert (Hold : child ((name, VNode c f) :: rest) (VNode c f)).
      { eapply child_field; [left; reflexivity | reflexivity]. }
      destruct (Hshape _ Hold) as [E | (c' & f' & E)]; rewrite E in Hc.
      * exact (Hnext Hc).
      * destruct (Hsplit _ _ Hc) as [(c1 & f1 & E1 & Ex) | [(l & c1 & f1 & E1 & _) | H]];
          [| discriminate | exact (Hnext H)].
        cbn [snd] in E1. exists (VNode c f). split; [exact Hold |].
        rewrite E, E1. reflexivity.
Qed.

(** The import-removal pass returns nothing or a node. *)
Lemma remove_visit_shape (cls : string) (fields : list (string * value)) :
  RemoveRSAImportTransformer.visit (VNode cls fields) = Removed
  \/ exists c' f', RemoveRSAImportTransformer.visit (VNode cls fields)
                   = Replaced (VNode c' f').
Proof.
  rewrite remove_visit_node.
  destruct (String.eqb cls "Import").
  - unfold RemoveRSAImportTransformer.visit_Import.
    destruct (RemoveRSAImportTransformer.new_names fields); eauto.
  - destruct (String.eqb cls "ImportFrom").
    + unfold RemoveRSAImportTransformer.visit_ImportFrom.
      destruct (attr_eq (VNode cls fields) "module" "rsa"); eauto.
    + eauto.
Qed.

Lemma child_is_node (fields : list (string * value)) (x : value) :
  child fields x -> exists c f, x = VNode c f.
Proof. intros [k c f _ E | k items c f _ _ E]; eauto. Qed.

(** X10: the import-removal pass is idempotent on every tree: what it
    returns for a node is left unchanged by a second run of the pass. *)
Theorem import_removal_is_idempotent (cls : string) (fields : list (string * value))
  (tree' : value) :
  RemoveRSAImportTransformer.visit (VNode cls fields) = Replaced tree' ->
  RemoveRSAImportTransformer.visit tree' = Replaced tree'.
Proof.
  revert tree'. pattern (VNode cls fields). apply node_induction. clear cls fields.
  intros cls fields IH tree' H.
  rewrite remove_visit_node in H.
  destruct (String.eqb cls "Import") eqn:EI.
  - unfold RemoveRSAImportTransformer.visit_Import in H.
    destruct (RemoveRSAImportTransformer.new_names fields) eqn:En; [discriminate |].
    injection H as <-. rewrite remove_visit_node, EI.
    unfold RemoveRSAImportTransformer.visit_Import. rewrite En. reflexivity.
  - destruct (String.eqb cls "ImportFrom") eqn:EF.
    + unfold RemoveRSAImportTransformer.visit_ImportFrom in H.
      destruct (attr_eq (VNode cls fields) "module" "rsa") eqn:Ea; [discriminate |].
      injection H as <-. rewrite remove_visit_node, EI, EF.
      unfold RemoveRSAImportTransformer.visit_ImportFrom. rewrite Ea. reflexivity.
    + injection H as <-. rewrite remove_visit_node, EI, EF. do 2 f_equal.
      apply generic_visit_id. intros x Hx.
      destruct (generic_visit_origin RemoveRSAImportTransformer.visit fields x)
        as (y & Hy & Vy); [| exact Hx |].
      * intros y Hy. destruct (child_is_node fields y Hy) as (c & f & ->).
        apply remove_visit_shape.
      * exact (IH y Hy x Vy).
Qed.

Lemma import_removal_is_idempotent_witness :
  RemoveRSAImportTransformer.visit
    (Module [PyParse.Import [alias "os"];
             Expr (rsa_call "encrypt" [Name "m"; Name "k"] [])])
  = Replaced (Module [PyParse.Import [alias "os"];
                      Expr (rsa_call "encrypt" [Name "m"; Name "k"] [])]).
Proof.
  apply (import_removal_is_idempotent "Module"
           [("body", VList [PyParse.Import [alias "rsa"]; PyParse.Import [alias "os"];
                            ImportFrom "rsa" [alias "encrypt"] 0;
                            Expr (rsa_call "encrypt" [Name "m"; Name "k"] [])]);
            ("type_ignores", VList [])]).
  vm_compute. reflexivity.
Defined.

Lemma removable_is_removed (cls : string) (fields : list (string * value)) :
  removable cls fields = true ->
  RemoveRSAImportTransformer.visit (VNode cls fields) = Removed.
Proof.
  intros H. rewrite remove_visit_node. unfold removable in H.
  apply orb_true_iff in H. destruct H as [H | H]; apply andb_true_iff in H;
    destruct H as [Hc H].
  - rewrite Hc. unfold RemoveRSAImportTransformer.visit_Import.
    destruct (RemoveRSAImportTransformer.new_names fields); [reflexivity | discriminate].
  - apply String.eqb_eq in Hc. subst cls. cbn [String.eqb Ascii.eqb Bool.eqb].
    unfold RemoveRSAImportTransformer.visit_ImportFrom. rewrite H. reflexivity.
Qed.

(** X11: the engine deletes a statement that imports from rsa
    ([import rsa], [import rsa as r], [from rsa import encrypt]) and
    leaves every other statement as it is when none of them is an rsa
    call it rewrites: uses of the names the deleted statement bound
    ([encrypt(m, k)], [r.encrypt(m, k)]) stay in the output, after the
    inserted import of the replacement module. *)
Theorem import_is_deleted_and_the_rest_is_kept
  (pre post : list value) (cls : string) (fields : list (string * value)) :
  removable cls fields = true ->
  settled (pre ++ post) = true ->
  all_items no_pqc_import (pre ++ post) = true ->
  transform (Module (pre ++ VNode cls fields :: post))
  = Module (AddPQCImportTransformer.import_node :: pre ++ post).
Proof.
  intros Hrem Hset Hno.
  destruct (settled_passes (pre ++ post) Hset) as (H1 & H2 & H3).
  rewrite transform_Module. cbv zeta.
  assert (E1 : visit_items RemoveRSAImportTransformer.visit (pre ++ VNode cls fields :: post)
               = (pre ++ post)%list).
  { rewrite visit_items_app.
    change (visit_items RemoveRSAImportTransformer.visit (VNode cls fields :: post))
      with (match RemoveRSAImportTransformer.visit (VNode cls fields) with
            | Removed => visit_items RemoveRSAImportTransformer.visit post
            | Replaced n => n :: visit_items RemoveRSAImportTransformer.visit post
            | Spliced l => (l ++ visit_items RemoveRSAImportTransformer.visit post)%list
            end).
    rewrite (removable_is_removed cls fields Hrem).
    rewrite <- visit_items_app. exact H1. }
  rewrite E1, H2, H3. rewrite (no_pqc_any_items _ Hno). reflexivity.
Qed.

Lemma import_is_deleted_and_the_rest_is_kept_witness :
  run_engine from_import_file = import_line ++ nl ++ "c = encrypt(m, k)" ++ nl
  /\ run_engine aliased_import_file = import_line ++ nl ++ "c = r.encrypt(m, k)" ++ nl
  /\ transform (Module [ImportFrom "rsa" [alias "encrypt"] 0;
                        PyParse.Assign (PyParse.NameCtx "c" "Store")
                          (Call (Name "encrypt") (VList [Name "m"; Name "k"]) (VList []))])
     = Module [AddPQCImportTransformer.import_node;
               PyParse.Assign (PyParse.NameCtx "c" "Store")
                 (Call (Name "encrypt") (VList [Name "m"; Name "k"]) (VList []))].
Proof.
  split; [vm_compute; reflexivity |]. split; [vm_compute; reflexivity |].
  apply (import_is_deleted_and_the_rest_is_kept []
           [PyParse.Assign (PyParse.NameCtx "c" "Store")
              (Call (Name "encrypt") (VList [Name "m"; Name "k"]) (VList []))]
           "ImportFrom"
           [("module", VStr "rsa"); ("names", VList [alias "encrypt"]); ("level", VInt 0)]);
    vm_compute; reflexivity.
Defined.

(** The import-adding pass returns a node for a node, and when it ends
    with its flag set, the flag was set before or the tree it returns
    holds an import from [pqc_helpers]. *)
Lemma add_items_found (items : list value) :
  (forall x c f, In x items -> x = VNode c f ->
     forall st r st',
       AddPQCImportTransformer.visit x st = (r, st') ->
       exists c' f', r = Replaced (VNode c' f')
         /\ (st' = true -> st = true \/ has_pqc_import (VNode c' f') = true)) ->
  forall st items' st',
    visit_items_st AddPQCImportTransformer.visit items st = (items', st') ->
    st' = true -> st = true \/ any_items has_pqc_import items' = true.
Proof.
  induction items as [| v rest IH]; intros Hv st items' st' E Hst.
  - cbn in E. injection E as <- <-. left. exact Hst.
  - assert (Hrest : forall x c f, In x rest -> x = VNode c f ->
              forall st r st',
                AddPQCImportTransformer.visit x st = (r, st') ->
                exists c' f', r = Replaced (VNode c' f')
                  /\ (st' = true -> st = true \/ has_pqc_import (VNode c' f') = true)).
    { intros x c f Hx. apply Hv. right. exact Hx. }
    specialize (IH Hrest).
    destruct v as [| s | z | r0 | l | c f]; cbn [visit_items_st] in E;
      fold (visit_items_st AddPQCImportTransformer.visit) in E;
      try (destruct (visit_items_st AddPQCImportTransformer.visit rest st)
             as [rest' st2] eqn:Er;
           injection E as <- <-;
           destruct (IH _ _ _ Er Hst) as [H | H]; [left; exact H |];
           right; cbn [any_items existsb]; exact H).
    destruct (AddPQCImportTransformer.visit (VNode c f) st) as [r st1] eqn:Ev.
    destruct (visit_items_st AddPQCImportTransformer.visit rest st1) as [rest' st2] eqn:Er.
    destruct (Hv (VNode c f) c f (or_introl eq_refl) eq_refl _ _ _ Ev)
      as (c' & f' & -> & Hhead).
    injection E as <- <-.
    destruct (IH _ _ _ Er Hst) as [H | H].
    + destruct (Hhead H) as [H' | H']; [left; exact H' |].
      right. unfold any_items. cbn [existsb]. rewrite H'. reflexivity.
    + right. unfold any_items in *. cbn [existsb]. rewrite H. apply orb_true_r.
Qed.

Lemma add_fields_found (fields : list (string * value)) :
  (forall x, child fields x ->
     forall st r st',
       AddPQCImportTransformer.visit x st = (r, st') ->
       exists c' f', r = Replaced (VNode c' f')
         /\ (st' = true -> st = true \/ has_pqc_import (VNode c' f') = true)) ->
  forall st fields' st',
    generic_visit_st AddPQCImportTransformer.visit fields st = (fields', st') ->
    st' = true -> st = true \/ any_fields has_pqc_import fields' = true.
Proof.
  induction fields as [| [name old] rest IH]; intros Hv st fields' st' E Hst.
  - cbn in E. injection E as <- <-. left. exact Hst.
  - assert (Hrest : forall x, child rest x ->
              forall st r st',
                AddPQCImportTransformer.visit x st = (r, st') ->
                exists c' f', r = Replaced (VNode c' f')
                  /\ (st' = true -> st = true \/ has_pqc_import (VNode c' f') = true)).
    { intros x Hx. apply Hv. apply child_cons. exact Hx. }
    specialize (IH Hrest).
    destruct old as [| s | z | r0 | items | c f]; cbn [generic_visit_st] in E;
      fold (generic_visit_st AddPQCImportTransformer.visit) in E;
      try (destruct (generic_visit_st AddPQCImportTransformer.visit rest st)
             as [rest' st2] eqn:Er;
           injection E as <- <-;
           destruct (IH _ _ _ Er Hst) as [H | H]; [left; exact H |];
           right; unfold any_fields in *; cbn [existsb snd any_value]; exact H).
    + destruct (visit_items_st AddPQCImportTransformer.visit items st) as [items' st1] eqn:Ei.
      destruct (generic_visit_st AddPQCImportTransformer.visit rest st1) as [rest' st2] eqn:Er.
      injection E as <- <-.
      destruct (IH _ _ _ Er Hst) as [H | H].
      * destruct (add_items_found items) with (st := st) (items' := items') (st' := st1)
          as [H' | H']; [| exact Ei | exact H | left; exact H' |].
        -- intros x c f Hx Ex. apply Hv.
           eapply child_item; [left; reflexivity | exact Hx | exact Ex].
        -- right. unfold any_fields. cbn [existsb snd any_value]. rewrite H'. reflexivity.
      * right. unfold any_fields in *. cbn [existsb]. rewrite H. apply orb_true_r.
    + destruct (AddPQCImportTransformer.visit (VNode c f) st) as [r st1] eqn:Ev.
      destruct (generic_visit_st AddPQCImportTransformer.visit rest st1) as [rest' st2] eqn:Er.
      assert (Hold : child ((name, VNode c f) :: rest) (VNode c f)).
      { eapply child_field; [left; reflexivity | reflexivity]. }
      destruct (Hv _ Hold _ _ _ Ev) as (c' & f' & -> & Hhead).
      injection E as <- <-.
      destruct (IH _ _ _ Er Hst) as [H | H].
      * destruct (Hhead H) as [H' | H']; [left; exact H' |].
        right. unfold any_fields. cbn [existsb snd any_value]. rewrite H'. reflexivity.
      * right. unfold any_fields in *. cbn [existsb]. rewrite H. apply orb_true_r.
Qed.

Lemma add_visit_found (cls : string) (fields : list (string * value)) :
  forall st r st',
    AddPQCImportTransformer.visit (VNode cls fields) st = (r, st') ->
    exists c' f', r = Replaced (VNode c' f')
      /\ (st' = true -> st = true \/ has_pqc_import (VNode c' f') = true).
Proof.
  pattern (VNode cls fields). apply node_induction. clear cls fields.
  intros cls fields IH st r st' E.
  assert (Hch : forall x, child fields x ->
            forall st r st',
              AddPQCImportTransformer.visit x st = (r, st') ->
              exists c' f', r = Replaced (VNode c' f')
                /\ (st' = true -> st = true \/ has_pqc_import (VNode c' f') = true)).
  { intros x Hx. exact (IH _ Hx). }
  rewrite add_visit_node in E.
  destruct (String.eqb cls "ImportFrom") eqn:EF.
  - destruct (attr_eq (VNode cls fields) "module" "pqc_helpers") eqn:Ea;
      injection E as <- <-; exists cls, fields; (split; [reflexivity |]); intros Hst.
    + right. cbn [has_pqc_import]. rewrite EF. exact Ea.
    + left. exact Hst.
  - destruct (generic_visit_st AddPQCImportTransformer.visit fields st)
      as [fields' found'] eqn:Eg.
    assert (Hg : found' = true -> st = true \/ any_fields has_pqc_import fields' = true).
    { intros H. exact (add_fields_found fields Hch _ _ _ Eg H). }
    destruct (String.eqb cls "Module") eqn:EM.
    + destruct found'; injection E as <- <-.
      * exists cls, fields'. split; [reflexivity |]. intros _.
        destruct (Hg eq_refl) as [H | H]; [left; exact H |].
        right. cbn [has_pqc_import]. rewrite EF. exact H.
      * eexists cls, _. split; [reflexivity |]. discriminate.
    + cbv zeta in E. injection E as <- <-.
      exists cls, fields'. split; [reflexivity |]. intros Hst.
      destruct (Hg Hst) as [H | H]; [left; exact H |].
      right. cbn [has_pqc_import]. rewrite EF. exact H.
Qed.

(** X12: whatever the parsed module holds, the tree the three passes
    return is a module that holds an import from [pqc_helpers]: the one
    the last pass found, or the one it put first in the body. *)
Theorem transformed_module_imports_the_replacement (body : list value) :
  exists body',
    transform (Module body) = Module body'
    /\ any_items has_pqc_import body' = true.
Proof.
  rewrite transform_Module. cbv zeta.
  destruct (visit_items_st AddPQCImportTransformer.visit
              (visit_items RSA2PQCTransformer.visit
                 (visit_items RemoveRSAImportTransformer.visit body)) false)
    as [body3 found] eqn:E.
  destruct found.
  - exists body3. split; [reflexivity |].
    destruct (add_items_found _ (fun x c f _ Ex => ltac:(subst x; apply add_visit_found))
                _ _ _ E eq_refl) as [H | H]; [discriminate | exact H].
  - exists (AddPQCImportTransformer.import_node :: body3). split; reflexivity.
Qed.

(** ** The commands: grouping, exits, reissuance, the final report *)

Lemma assoc_setdefault_append (d : list (string * list Finding)) (k : string)
  (f : Finding) (p : string) :
  assoc (setdefault_append d k f) p
  = if String.eqb k p then Some (get_default (assoc d k) [] ++ [f])%list
    else assoc d p.
Proof.
  induction d as [| [k' l] rest IH]; cbn [setdefault_append assoc get_default].
  - cbn [app]. reflexivity.
  - destruct (String.eqb k' k) eqn:E.
    + apply String.eqb_eq in E. subst k'. cbn [assoc].
      destruct (String.eqb k p); reflexivity.
    + cbn [assoc]. rewrite IH.
      destruct (String.eqb k p) eqn:Ekp.
      * apply String.eqb_eq in Ekp. subst p. rewrite E. reflexivity.
      * reflexivity.
Qed.

Lemma findings_of_snoc (p : string) (findings : list Finding) (f : Finding) :
  findings_of p (findings ++ [f])
  = (findings_of p findings ++ if String.eqb (real_path f) p then [f] else [])%list.
Proof. unfold findings_of. rewrite filter_app. reflexivity. Qed.

Lemma group_loop_assoc (todo : list Finding) :
  forall (done : list Finding) (d : list (string * list Finding)),
    (forall p, assoc d p = match findings_of p done with
                           | [] => None
                           | g :: rest => Some (g :: rest)
                           end) ->
    forall p,
      assoc (fold_left (fun d finding => setdefault_append d (real_path finding) finding)
                       todo d) p
      = match findings_of p (done ++ todo) with
        | [] => None
        | g :: rest => Some (g :: rest)
        end.
Proof.
  induction todo as [| f rest IH]; intros done d Hd p; cbn [fold_left].
  - rewrite app_nil_r. apply Hd.
  - replace (done ++ f :: rest)%list with ((done ++ [f]) ++ rest)%list
      by (rewrite <- app_assoc; reflexivity).
    apply IH. intros q. rewrite assoc_setdefault_append, findings_of_snoc.
    destruct (String.eqb (real_path f) q) eqn:E.
    + apply String.eqb_eq in E. subst q. rewrite Hd.
      destruct (findings_of (real_path f) done); reflexivity.
    + rewrite app_nil_r. apply Hd.
Qed.

Lemma group_by_file_assoc (findings : list Finding) (p : string) :
  assoc (group_by_file findings) p
  = match findings_of p findings with
    | [] => None
    | g :: rest => Some (g :: rest)
    end.
Proof.
  unfold group_by_file.
  apply (group_loop_assoc findings [] []). intros q. reflexivity.
Qed.

Lemma assoc_In {A : Type} (d : list (string * A)) (p : string) (v : A) :
  NoDup (map fst d) -> (In (p, v) d <-> assoc d p = Some v).
Proof.
  induction d as [| [k x] rest IH]; intros Hnd; cbn [assoc].
  - split; [contradiction | discriminate].
  - cbn [map fst] in Hnd. inversion Hnd as [| k0 l0 Hnotin Hnd']; subst.
    destruct (String.eqb k p) eqn:E.
    + apply String.eqb_eq in E. subst k. split.
      * intros [H | H]; [congruence |].
        exfalso. apply Hnotin. apply in_map_iff. exists (p, v). auto.
      * intros H. left. congruence.
    + rewrite <- (IH Hnd'). split.
      * intros [H | H]; [| exact H].
        injection H as -> _. rewrite String.eqb_refl in E. discriminate.
      * intros H. right. exact H.
Qed.

Lemma group_by_file_entries (findings : list Finding) (p : string)
  (vulns : list Finding) :
  In (p, vulns) (group_by_file findings)
  <-> vulns = findings_of p findings /\ vulns <> [].
Proof.
  rewrite (assoc_In _ p vulns (group_by_file_NoDup findings)), group_by_file_assoc.
  destruct (findings_of p findings) as [| g rest]; split.
  - discriminate.
  - intros [-> H]. contradiction.
  - intros H. injection H as <-. split; [reflexivity | discriminate].
  - intros [-> _]. reflexivity.
Qed.

Lemma group_by_file_length (findings : list Finding) :
  List.length (group_by_file findings)
  = List.length (nodup string_dec (map real_path findings)).
Proof.
  assert (Hkeys : forall p, In p (map fst (group_by_file findings))
                            <-> In p (nodup string_dec (map real_path findings))).
  { intros p. rewrite nodup_In. split.
    - intros H. apply in_map_iff in H. destruct H as [[q vulns] [<- H]]. cbn [fst].
      apply group_by_file_entries in H. destruct H as [-> Hne].
      destruct (findings_of q findings) as [| g rest] eqn:E; [contradiction |].
      assert (Hg : In g (findings_of q findings)) by (rewrite E; left; reflexivity).
      unfold findings_of in Hg. apply filter_In in Hg. destruct Hg as [Hg Hq].
      apply String.eqb_eq in Hq. subst q. apply in_map. exact Hg.
    - intros H. apply in_map_iff in H. destruct H as [f [<- Hf]].
      apply in_map_iff. exists (real_path f, findings_of (real_path f) findings).
      split; [reflexivity |]. apply group_by_file_entries. split; [reflexivity |].
      intros E.
      assert (Hg : In f (findings_of (real_path f) findings)).
      { unfold findings_of. apply filter_In. split; [exact Hf | apply String.eqb_refl]. }
      rewrite E in Hg. contradiction. }
  rewrite <- (length_map fst (group_by_file findings)).
  apply Nat.le_antisymm; apply NoDup_incl_length;
    try apply group_by_file_NoDup; try apply NoDup_nodup;
    intros p Hp; apply Hkeys; exact Hp.
Qed.

(** X13: the dict [migrate] builds for the refactor loop has one entry
    per distinct real path among the findings; the entry of a path holds
    exactly the findings of that file, in the order of the scan.  So each
    finding reaches the loop in exactly one entry, and the number of
    entries, which the final report gives as the files with RSA
    vulnerabilities, is the number of distinct real paths. *)
Theorem group_by_file_groups_by_real_path (findings : list Finding) :
  NoDup (map fst (group_by_file findings))
  /\ (forall p vulns,
        In (p, vulns) (group_by_file findings)
        <-> vulns = findings_of p findings /\ vulns <> [])
  /\ List.length (group_by_file findings)
     = List.length (nodup string_dec (map real_path findings)).
Proof.
  split; [apply group_by_file_NoDup |]. split.
  - intros p vulns. apply group_by_file_entries.
  - apply group_by_file_length.
Qed.

Lemma group_by_file_groups_by_real_path_witness :
  In ("a.py", [finding_on "a.py" "1"; finding_on "a.py" "7"])
     (group_by_file [finding_on "a.py" "1"; finding_on "b.py" "3"; finding_on "a.py" "7"])
  /\ List.length
       (group_by_file [finding_on "a.py" "1"; finding_on "b.py" "3"; finding_on "a.py" "7"])
     = 2%nat.
Proof.
  destruct (group_by_file_groups_by_real_path
              [finding_on "a.py" "1"; finding_on "b.py" "3"; finding_on "a.py" "7"])
    as (_ & Hiff & Hlen).
  split.
  - apply Hiff. split; [vm_compute; reflexivity | discriminate].
  - rewrite Hlen. vm_compute. reflexivity.
Defined.

Lemma extends_refl (w : World) : extends 0 w w.
Proof. exists []. rewrite app_nil_r. auto. Qed.

Lemma extends_trans (n m : nat) (w1 w2 w3 : World) :
  extends n w1 w2 -> extends m w2 w3 -> extends (n + m) w1 w3.
Proof.
  intros (es1 & E1 & C1) (es2 & E2 & C2). exists (es1 ++ es2)%list. split.
  - rewrite E2, E1, app_assoc. reflexivity.
  - unfold reissues in *. rewrite filter_app, length_app. lia.
Qed.

Lemma extends_emit (n : nat) (w w0 : World) (e : event) :
  extends n w w0 -> not_reissue e = true -> extends n w (emit e w0).
Proof.
  intros H He. replace n with (n + 0)%nat by lia.
  eapply extends_trans; [exact H |].
  exists [e]. split; [reflexivity |]. destruct e; try discriminate; reflexivity.
Qed.

Lemma evolves_extends (keep : string -> bool) (w w' : World) :
  evolves not_reissue keep w w' -> extends 0 w w'.
Proof.
  intros (_ & _ & es & E & Ha). exists es. split; [exact E |].
  unfold reissues. clear E. induction es as [| e rest IH]; [reflexivity |].
  cbn [forallb] in Ha. apply andb_true_iff in Ha. destruct Ha as [He Hr].
  cbn [filter]. destruct e; try discriminate; cbn [is_reissue]; apply IH; exact Hr.
Qed.

Section CommandFacts.

Variable parse_body : string -> exc (list value).
Variable unparse_other : nat -> value -> exc string.
Variable normpath : string -> string.
Variable run_semgrep : list string -> string -> option (list SemgrepResult).
Variable json_dumps : list Finding -> string.
Variable keygen : exc (string * string).

Lemma reissue_keys_extends (keys_dir : option string) (w : World) :
  extends 1 w (fst (reissue_keys keygen keys_dir w)).
Proof.
  unfold reissue_keys.
  assert (H1 : extends 1 w (emit ReissueKeys w)).
  { exists [ReissueKeys]. split; reflexivity. }
  destruct keys_dir as [e |]; [exact H1 |]. cbn [fst].
  destruct keygen as [[key_file key_data] | e].
  - assert (Hw : extends 1 w (fst (write_file key_file key_data (emit ReissueKeys w)))).
    { unfold write_file.
      destruct (write_error (disk (emit ReissueKeys w)) key_file); [exact H1 |].
      cbn [fst]. exists [ReissueKeys; Written key_file key_data]. split.
      - cbn [trace emit]. rewrite <- app_assoc. reflexivity.
      - reflexivity. }
    destruct (write_file key_file key_data (emit ReissueKeys w)) as [w' [u | e]];
      cbn [fst] in Hw; apply extends_emit; auto.
  - apply extends_emit; auto.
Qed.

(** [reissue_keys] raises exactly when the keys directory cannot be
    made, right after it was invoked. *)
Lemma reissue_keys_raises (keys_dir : option string) (w : World) :
  match keys_dir with
  | Some e => reissue_keys keygen keys_dir w = (emit ReissueKeys w, Raise e)
  | None => snd (reissue_keys keygen keys_dir w) = Return tt
  end.
Proof. unfold reissue_keys. destruct keys_dir; reflexivity. Qed.

Lemma save_json_scan (p : string) (findings : list Finding) (w w0 : World) :
  evolves (scan_event (Some p)) (not_export (Some p)) w w0 ->
  evolves (scan_event (Some p)) (not_export (Some p)) w
          (save_json json_dumps findings p w0).
Proof.
  intros H. unfold save_json.
  pose proof (evolves_write (scan_event (Some p)) (not_export (Some p)) w w0 p
                (json_dumps findings) H) as Hw.
  destruct (write_file p (json_dumps findings) w0) as [w1 [u | e]] eqn:E;
    cbn [fst] in Hw;
    (apply evolves_emit; [| reflexivity]);
    apply Hw; cbn; rewrite String.eqb_refl; reflexivity.
Qed.

Lemma console_scan_event (json : option string) (e : event) :
  console e = true -> scan_event json e = true.
Proof. destruct e; try discriminate; reflexivity. Qed.

(** X14: when the scan returns no finding, [migrate] stops after the
    scan: it asks nothing, writes nothing (no export of the findings
    either, even with [--json-output]) and ends with "No RSA
    vulnerabilities found. Exiting.".  This is what happens when the root
    path does not exist, and whenever the configuration file sets
    [dry_run], whatever the files hold. *)
Theorem migrate_without_findings_stops_after_the_scan (i : Invocation) (w : World) :
  (fst (scan_codebase normpath run_semgrep (disk w) (path i) (root_exists i)
          (file_list i) (config i)) = [] ->
   migrate parse_body unparse_other normpath run_semgrep json_dumps keygen i w
   = {| disk := disk w;
        trace := trace w
                 ++ Echo "Starting RSA vulnerability scan..."
                 :: snd (scan_codebase normpath run_semgrep (disk w) (path i)
                           (root_exists i) (file_list i) (config i))
                 ++ [Echo "No RSA vulnerabilities found. Exiting."] |})
  /\ (root_exists i = false ->
      scan_codebase normpath run_semgrep (disk w) (path i) (root_exists i)
        (file_list i) (config i)
      = ([], [Print ("Error: The specified root path '" ++ path i ++ "' does not exist.")]))
  /\ (root_exists i = true -> cfg_dry_run (config i) = true ->
      scan_codebase normpath run_semgrep (disk w) (path i) (root_exists i)
        (file_list i) (config i)
      = ([], map would_scan (file_list i))).
Proof.
  split; [| split].
  - intros H. unfold migrate. cbn [disk emit].
    destruct (scan_codebase normpath run_semgrep (disk w) (path i) (root_exists i)
                (file_list i) (config i)) as [findings prints].
    cbn [fst snd] in *. subst findings.
    unfold emit, emit_all. cbn [disk trace]. f_equal.
    rewrite <- !app_assoc. reflexivity.
  - intros H. unfold scan_codebase. rewrite H. reflexivity.
  - intros H Hd. unfold scan_codebase. rewrite H, Hd. cbn [negb].
    destruct (file_list i); reflexivity.
Qed.

(** X15: when the refactoring is declined, [migrate] has scanned and
    reported only: apart from the export of the findings to the path
    given with [--json-output] every file reads as before, and the run
    produced console output, the table of findings and that export, no
    refactoring, no key reissuance, no test run and no final report. *)
Theorem declined_refactoring_leaves_the_sources (i : Invocation) (w : World) :
  confirm_refactor i = false ->
  (forall p, json_output i <> Some p ->
     read (disk (migrate parse_body unparse_other normpath run_semgrep
                         json_dumps keygen i w)) p
     = read (disk w) p)
  /\ (exists es,
        trace (migrate parse_body unparse_other normpath run_semgrep
                       json_dumps keygen i w)
        = (trace w ++ es)%list
        /\ forallb (scan_event (json_output i)) es = true).
Proof.
  intros Hno.
  assert (H : evolves (scan_event (json_output i)) (not_export (json_output i)) w
                (migrate parse_body unparse_other normpath run_semgrep
                         json_dumps keygen i w)).
  { unfold migrate. rewrite Hno.
    pose proof (scan_codebase_prints normpath run_semgrep
                  (disk (emit (Echo "Starting RSA vulnerability scan...") w))
                  (path i) (root_exists i) (file_list i) (config i)) as Hprints.
    destruct (scan_codebase normpath run_semgrep
                (disk (emit (Echo "Starting RSA vulnerability scan...") w))
                (path i) (root_exists i) (file_list i) (config i))
      as [findings prints].
    cbn [snd] in Hprints.
    assert (H0 : evolves (scan_event (json_output i)) (not_export (json_output i)) w
                   (emit_all prints (emit (Echo "Starting RSA vulnerability scan...") w))).
    { apply evolves_emit_all.
      - apply evolves_emit; [apply evolves_refl | reflexivity].
      - eapply forallb_impl_bool; [apply console_scan_event | exact Hprints]. }
    destruct findings as [| f rest].
    - apply evolves_emit; [exact H0 | reflexivity].
    - apply evolves_emit; [| reflexivity].
      destruct (json_output i) as [p |]; [| apply evolves_emit; [exact H0 | reflexivity]].
      destruct (String.eqb p ""); [apply evolves_emit; [exact H0 | reflexivity] |].
      apply save_json_scan. apply evolves_emit; [exact H0 | reflexivity]. }
  destruct H as (_ & Hr & Ht). split; [| exact Ht].
  intros p Hp. apply Hr. unfold not_export.
  destruct (json_output i) as [q |]; [| reflexivity].
  apply negb_true_iff. apply String.eqb_neq. congruence.
Qed.

(** X16: in every run of [migrate], [reissue_keys] is invoked exactly
    once when the scan found something, the refactoring was confirmed,
    the run is not a dry run and the second prompt was answered yes; in
    every other run it is not invoked at all. *)
Theorem keys_are_reissued_once_iff_confirmed (i : Invocation) (w : World) :
  exists es,
    trace (migrate parse_body unparse_other normpath run_semgrep json_dumps keygen i w)
    = (trace w ++ es)%list
    /\ reissues es
       = if andb (andb (negb (no_findings
                                (fst (scan_codebase normpath run_semgrep (disk w) (path i)
                                        (root_exists i) (file_list i) (config i)))))
                       (confirm_refactor i))
                 (andb (negb (dry_run i)) (confirm_reissue i))
         then 1%nat else 0%nat.
Proof.
  match goal with
  | |- exists es, trace ?w' = (trace ?w0 ++ es)%list /\ reissues es = ?n =>
      change (extends n w0 w')
  end.
  unfold migrate. cbn [disk emit].
  pose proof (scan_codebase_prints normpath run_semgrep (disk w) (path i) (root_exists i)
                (file_list i) (config i)) as Hprints.
  destruct (scan_codebase normpath run_semgrep (disk w) (path i) (root_exists i)
              (file_list i) (config i)) as [findings prints].
  cbn [fst snd] in *.
  set (w0 := emit_all prints _).
  assert (H0 : extends 0 w w0).
  { apply (evolves_extends (fun _ => false)). apply evolves_emit_all.
    - apply evolves_emit; [apply evolves_refl | reflexivity].
    - eapply forallb_impl_bool; [| exact Hprints].
      intros []; try discriminate; reflexivity. }
  destruct findings as [| f rest].
  - cbn [no_findings negb andb]. apply extends_emit; [exact H0 | reflexivity].
  - cbn [no_findings negb andb].
    set (w1 := emit (DisplayReport (f :: rest)) w0).
    assert (H1 : extends 0 w w1) by (apply extends_emit; [exact H0 | reflexivity]).
    set (w2 := match json_output i with
               | Some p => if String.eqb p "" then w1
                           else save_json json_dumps (f :: rest) p w1
               | None => w1
               end).
    assert (H2 : extends 0 w w2).
    { replace 0%nat with (0 + 0)%nat by reflexivity.
      eapply extends_trans; [exact H1 |].
      apply (evolves_extends (fun _ => false)).
      unfold w2. destruct (json_output i) as [p |]; [| apply evolves_refl].
      destruct (String.eqb p ""); [apply evolves_refl |].
      apply save_json_any. apply evolves_refl. }
    destruct (confirm_refactor i); cbn [andb];
      [| apply extends_emit; [exact H2 | reflexivity]].
    set (w3 := refactor_loop parse_body unparse_other (dry_run i)
                 (group_by_file (f :: rest)) w2).
    assert (H3 : extends 0 w w3).
    { replace 0%nat with (0 + 0)%nat by reflexivity.
      eapply extends_trans; [exact H2 |].
      apply (evolves_extends (fun _ => false)).
      eapply evolves_weaken; [| | apply refactor_loop_any].
      - intros []; try discriminate; reflexivity.
      - auto. }
    destruct (andb (negb (dry_run i)) (confirm_reissue i)).
    + assert (H4 : extends 1 w (fst (reissue_keys keygen (keys_dir i) w3))).
      { replace 1%nat with (0 + 1)%nat by reflexivity.
        eapply extends_trans; [exact H3 | apply reissue_keys_extends]. }
      destruct (reissue_keys keygen (keys_dir i) w3) as [w4 [u | e]]; cbn [fst] in H4.
      * unfold run_tests. cbn [negb].
        do 6 (apply extends_emit; [| reflexivity]). exact H4.
      * apply extends_emit; [exact H4 | reflexivity].
    + unfold run_tests. cbn [negb].
      do 6 (apply extends_emit; [| reflexivity]). exact H3.
Qed.

Lemma save_json_allowed (allowed : event -> bool) (p : string)
  (findings : list Finding) (w w0 : World) :
  (forall q text, allowed (Written q text) = true) ->
  (forall text, allowed (Echo text) = true) ->
  evolves allowed (fun _ => false) w w0 ->
  evolves allowed (fun _ => false) w (save_json json_dumps findings p w0).
Proof.
  intros Hw He H. unfold save_json.
  pose proof (evolves_write allowed (fun _ => false) w w0 p
                (json_dumps findings) H (Hw _ _) eq_refl) as H1.
  destruct (write_file p (json_dumps findings) w0) as [w1 [u | e]] eqn:E;
    cbn [fst] in H1; (apply evolves_emit; [exact H1 | apply He]).
Qed.

(** The run up to the end of the refactor loop, once the refactoring is
    confirmed: console output, the table, the export and the rewritten
    files. *)
Lemma migrate_before_reissue (i : Invocation) (w : World)
  (f : Finding) (rest : list Finding) (prints : list event) :
  forallb console prints = true ->
  evolves before_tests (fun _ => false) w
    (refactor_loop parse_body unparse_other (dry_run i) (group_by_file (f :: rest))
       match json_output i with
       | Some p =>
           if String.eqb p ""
           then emit (DisplayReport (f :: rest))
                  (emit_all prints (emit (Echo "Starting RSA vulnerability scan...") w))
           else save_json json_dumps (f :: rest) p
                  (emit (DisplayReport (f :: rest))
                     (emit_all prints (emit (Echo "Starting RSA vulnerability scan...") w)))
       | None =>
           emit (DisplayReport (f :: rest))
             (emit_all prints (emit (Echo "Starting RSA vulnerability scan...") w))
       end).
Proof.
  intros Hprints.
  assert (H1 : evolves before_tests (fun _ => false) w
                 (emit (DisplayReport (f :: rest))
                    (emit_all prints
                       (emit (Echo "Starting RSA vulnerability scan...") w)))).
  { apply evolves_emit; [| reflexivity]. apply evolves_emit_all.
    - apply evolves_emit; [apply evolves_refl | reflexivity].
    - eapply forallb_impl_bool; [| exact Hprints].
      intros []; try discriminate; reflexivity. }
  eapply evolves_trans; [| eapply evolves_weaken; [| | apply refactor_loop_any]].
  - destruct (json_output i) as [p |]; [| exact H1].
    destruct (String.eqb p ""); [exact H1 |].
    apply save_json_allowed; [reflexivity | reflexivity | exact H1].
  - intros []; try discriminate; reflexivity.
  - auto.
Qed.

(** X17: once the scan has found something and the refactoring is
    confirmed, the run goes on to the final report whether the files
    could be refactored or not and whether the key provider or the
    writing of the key file failed or not: the test step of [run_tests]
    reports success without running anything, so the run never stops at
    "Tests failed".  The report counts as vulnerable files the distinct
    real paths among the findings, and as scanned files the count of the
    walk.  The one way past the report is the keys directory: when the
    keys are to be reissued and the directory cannot be made, the
    exception leaves the command right after the refactoring, before any
    test and without a report. *)
Theorem confirmed_run_ends_with_the_final_report (i : Invocation) (w : World) :
  confirm_refactor i = true ->
  fst (scan_codebase normpath run_semgrep (disk w) (path i) (root_exists i)
         (file_list i) (config i)) <> [] ->
  (dry_run i = true \/ confirm_reissue i = false \/ keys_dir i = None ->
   exists es,
     trace (migrate parse_body unparse_other normpath run_semgrep json_dumps keygen i w)
     = (trace w ++ es
        ++ [ Echo "Running automated tests...";
             RunTests (path i);
             Print "Running tests on the updated codebase...";
             Echo "All tests passed.";
             Echo (nl ++ "Final Migration Report:" ++ nl);
             EchoReport
               (generate_final_report (walk_count i)
                  (Z.of_nat (List.length
                     (nodup string_dec
                        (map real_path
                           (fst (scan_codebase normpath run_semgrep (disk w) (path i)
                                   (root_exists i) (file_list i) (config i)))))))
                  (fst (scan_codebase normpath run_semgrep (disk w) (path i)
                          (root_exists i) (file_list i) (config i)))
                  (negb (dry_run i))) ])%list)
  /\ (forall e,
        dry_run i = false -> confirm_reissue i = true -> keys_dir i = Some e ->
        exists es,
          trace (migrate parse_body unparse_other normpath run_semgrep json_dumps
                         keygen i w)
          = (trace w ++ es ++ [ReissueKeys; Uncaught e])%list
          /\ forallb before_tests es = true).
Proof.
  intros Hyes Hfound.
  pose proof (scan_codebase_prints normpath run_semgrep (disk w) (path i) (root_exists i)
                (file_list i) (config i)) as Hprints.
  unfold migrate. rewrite Hyes. cbn [disk emit].
  destruct (scan_codebase normpath run_semgrep (disk w) (path i) (root_exists i)
              (file_list i) (config i)) as [findings prints].
  cbn [fst snd] in *.
  destruct findings as [| f rest]; [contradiction |].
  rewrite group_by_file_length.
  pose proof (migrate_before_reissue i w f rest prints Hprints) as H3.
  cbn [disk emit] in H3.
  match type of H3 with
  | evolves _ _ _ ?w3 => set (w3' := w3) in *
  end.
  destruct H3 as (_ & _ & es3 & E3 & A3).
  split.
  - intros Hmode.
    assert (H4 : exists es,
              (if andb (negb (dry_run i)) (confirm_reissue i)
               then reissue_keys keygen (keys_dir i) w3'
               else (w3', Return tt))
              = (fst (if andb (negb (dry_run i)) (confirm_reissue i)
                      then reissue_keys keygen (keys_dir i) w3'
                      else (w3', Return tt)), Return tt)
              /\ trace (fst (if andb (negb (dry_run i)) (confirm_reissue i)
                             then reissue_keys keygen (keys_dir i) w3'
                             else (w3', Return tt)))
                 = (trace w ++ es)%list).
    { destruct (andb (negb (dry_run i)) (confirm_reissue i)) eqn:Eb.
      - apply andb_true_iff in Eb. destruct Eb as [Ed Ec].
        apply negb_true_iff in Ed.
        destruct Hmode as [H | [H | H]]; [congruence | congruence |].
        rewrite H.
        destruct (reissue_keys_extends None w3') as (es4 & E4 & _).
        pose proof (reissue_keys_raises None w3') as Hr. cbn beta iota in Hr.
        exists (es3 ++ es4)%list. split.
        + destruct (reissue_keys keygen None w3') as [w4 r].
          cbn [fst snd] in *. rewrite Hr. reflexivity.
        + rewrite E4, E3, app_assoc. reflexivity.
      - exists es3. split; [reflexivity | exact E3]. }
    destruct H4 as (es & E4 & T4). rewrite E4.
    unfold run_tests. cbn [negb].
    exists es. cbn [trace emit]. rewrite T4. rewrite <- !app_assoc. reflexivity.
  - intros e Hd Hc Hk. rewrite Hd, Hc, Hk. cbn [negb andb].
    unfold reissue_keys. cbn [emit trace].
    exists es3. split; [| exact A3].
    rewrite E3. rewrite <- !app_assoc. reflexivity.
Qed.


End CommandFacts.

Lemma migrate_without_findings_stops_after_the_scan_witness :
  sample_migrate run_with_dry_config three_files
  = {| disk := disk three_files;
       trace := [ Echo "Starting RSA vulnerability scan...";
                  Print "[DRY RUN] Would scan: a.py";
                  Print "[DRY RUN] Would scan: b.py";
                  Print "[DRY RUN] Would scan: c.py";
                  Echo "No RSA vulnerabilities found. Exiting." ] |}.
Proof.
  unfold sample_migrate.
  destruct (migrate_without_findings_stops_after_the_scan PyParse.parse_body
              PyParse.no_other (fun p => p) (fun _ _ => None) (fun _ => "[]")
              (Return ("keys/pqc_keys.json", "{}")) run_with_dry_config three_files)
    as (H & _ & Hdry).
  rewrite (H eq_refl). rewrite (Hdry eq_refl eq_refl). reflexivity.
Defined.

Lemma declined_refactoring_leaves_the_sources_witness :
  read (disk (sample_migrate run_declining_refactor three_files)) "a.py" = Return a_py
  /\ exists es,
       trace (sample_migrate run_declining_refactor three_files) = es
       /\ forallb (scan_event (Some "findings.json")) es = true.
Proof.
  unfold sample_migrate.
  destruct (declined_refactoring_leaves_the_sources PyParse.parse_body
              PyParse.no_other (fun p => p) (fun _ _ => None) (fun _ => "[]")
              (Return ("keys/pqc_keys.json", "{}")) run_declining_refactor three_files
              eq_refl)
    as (Hr & es & E & Ha).
  split.
  - rewrite (Hr "a.py"); [reflexivity | discriminate].
  - exists es. split; [exact E | exact Ha].
Defined.

Lemma confirmed_run_ends_with_the_final_report_witness :
  (exists es r,
      trace (migrate_without_provider run_confirming_all three_files)
      = (es ++ [ Echo "Running automated tests...";
                 RunTests ".";
                 Print "Running tests on the updated codebase...";
                 Echo "All tests passed.";
                 Echo (nl ++ "Final Migration Report:" ++ nl);
                 EchoReport r ])%list
      /\ total_files_scanned r = 3%Z
      /\ total_vulnerable_files r = 3%Z
      /\ List.length (report_findings r) = 5%nat)
  /\ (exists es,
        trace (sample_migrate run_without_keys_dir three_files)
        = (es ++ [ReissueKeys; Uncaught "[Errno 13] Permission denied: 'keys'"])%list
        /\ forallb before_tests es = true).
Proof.
  split.
  - unfold migrate_without_provider.
    destruct (confirmed_run_ends_with_the_final_report PyParse.parse_body
                PyParse.no_other (fun p => p) (fun _ _ => None) (fun _ => "[]")
                (Raise "KEM mechanism is not supported") run_confirming_all three_files
                eq_refl)
      as (H & _).
    + vm_compute. discriminate.
    + destruct H as (es & E); [right; right; reflexivity |].
      exists es. eexists. split; [exact E |].
      vm_compute. repeat split.
  - unfold sample_migrate.
    destruct (confirmed_run_ends_with_the_final_report PyParse.parse_body
                PyParse.no_other (fun p => p) (fun _ _ => None) (fun _ => "[]")
                (Return ("keys/pqc_keys.json", "{}")) run_without_keys_dir three_files
                eq_refl)
      as (_ & H).
    + vm_compute. discriminate.
    + exact (H _ eq_refl eq_refl eq_refl).
Defined.

